(** * async-nitro: the swap-quote tool and its three lookups

    A shallow embedding of [src/controllers/nitroController.ts] and
    [src/tools/nitro.ts].

    - JavaScript values that come out of [JSON.parse] / [response.json()] are
      the inductive type [JSValue].
    - Whatever the code takes from the JavaScript runtime and from zod and
      does not define itself (numbers, [String.prototype.toLowerCase],
      [JSON.parse], the text of the messages of engine-raised errors) is a
      field of the class [Runtime]; every definition and theorem is stated
      for an arbitrary runtime.
    - The collaborators (the language model, the three HTTP endpoints, the
      clock) are an environment [Env] that answers each call from the trace of
      all calls made so far, so that any behaviour of the remote side is some
      environment.
    - Code that awaits and may throw lives in the monad [M]: a trace of calls
      is threaded through, and a computation ends in [Ok] or [Throw] ([try
      ... catch] is [try_catch]). *)

From Stdlib Require Import String Ascii List ZArith Bool Lia DecimalString.
Import ListNotations.
Local Open Scope string_scope.

(* ===================================================================== *)
(** ** JavaScript values *)

#[local] Set Warnings "-register-all".

Inductive JSValue (number : Type) : Type :=
| JUndefined
| JNull
| JBool (b : bool)
| JNum (n : number)
| JStr (s : string)
| JArr (items : list (JSValue number))
| JObj (fields : list (string * JSValue number)).

Arguments JUndefined {number}.
Arguments JNull {number}.
Arguments JBool {number} b.
Arguments JNum {number} n.
Arguments JStr {number} s.
Arguments JArr {number} items.
Arguments JObj {number} fields.

(** Errors the engine or a library raises on its own; the wording of their
    [message] is the runtime's. *)
Inductive Fault : Type :=
| ReadOfNullish (prop : string)   (* TypeError: property read on undefined/null *)
| NotCallable (prop : string)     (* TypeError: x.prop is not a function *)
| BadJSON (text : string)         (* SyntaxError raised by JSON.parse *)
| ZodIssues (schema : string)     (* ZodError raised by schema.parse *)
| NotPrimitive.                   (* TypeError: an object that does not print *)

Class Runtime : Type := {
  number : Type;
  (* ToBoolean on a number: false for +0, -0 and NaN *)
  number_truthy : number -> bool;
  (* the numbers [z.number()] refuses: NaN, and from zod 4 on the infinities *)
  number_refused : number -> bool;
  (* Number::toString, as used by template literals *)
  number_toString : number -> string;
  toLowerCase : string -> string;
  (* None when JSON.parse throws its SyntaxError *)
  JSON_parse : string -> option (JSValue number);
  fault_message : Fault -> string
}.

(** What a [throw] carries: every value thrown in these files is an [Error]
    instance with a [message]; a collaborator may reject with anything. *)
Inductive Exn : Type :=
| JsError (message : string)
| NonError.

Inductive Result (A : Type) : Type :=
| Ok (a : A)
| Throw (e : Exn).

Arguments Ok {A} a.
Arguments Throw {A} e.

(** [error instanceof Error ? error.message : fallback] *)
Definition message_or (fallback : string) (e : Exn) : string :=
  match e with
  | JsError m => m
  | NonError => fallback
  end.

(** Synchronous code that may throw. *)
Definition bindR {A B : Type} (r : Result A) (k : A -> Result B) : Result B :=
  match r with
  | Ok a => k a
  | Throw e => Throw e
  end.

(** [includes needle hay]: [hay.includes(needle)]. *)
Fixpoint prefix_of (p s : string) : bool :=
  match p, s with
  | EmptyString, _ => true
  | String a p', String b s' => Ascii.eqb a b && prefix_of p' s'
  | String _ _, EmptyString => false
  end.

Fixpoint includes (needle hay : string) : bool :=
  prefix_of needle hay ||
  match hay with
  | EmptyString => false
  | String _ hay' => includes needle hay'
  end.

Definition nl : string := String (ascii_of_nat 10) EmptyString.

(** Decimal text of an array length and of an HTTP status code. *)
Definition nat_to_string (n : nat) : string :=
  NilZero.string_of_uint (Nat.to_uint n).

Definition Z_to_string (z : Z) : string :=
  NilZero.string_of_int (Z.to_int z).

(** The match of [/\{[\s\S]*\}/]: from the first opening brace to the last
    closing brace after it. *)
Fixpoint from_first_open (s : string) : option string :=
  match s with
  | EmptyString => None
  | String c rest =>
      if Ascii.eqb c "{"%char then Some rest else from_first_open rest
  end.

Fixpoint upto_last_close (s : string) : option string :=
  match s with
  | EmptyString => None
  | String c rest =>
      match upto_last_close rest with
      | Some p => Some (String c p)
      | None => if Ascii.eqb c "}"%char then Some (String c EmptyString) else None
      end
  end.

Fixpoint has_char (c : ascii) (s : string) : bool :=
  match s with
  | EmptyString => false
  | String x rest => Ascii.eqb x c || has_char c rest
  end.

Definition match_json_object (content : string) : option string :=
  match from_first_open content with
  | None => None
  | Some rest =>
      match upto_last_close rest with
      | None => None
      | Some body => Some (String "{"%char body)
      end
  end.

Section Model.

Context {R : Runtime}.

Definition Value : Type := JSValue number.

(** ToBoolean *)
Definition truthy (v : Value) : bool :=
  match v with
  | JUndefined | JNull => false
  | JBool b => b
  | JNum n => number_truthy n
  | JStr s => negb (String.eqb s EmptyString)
  | JArr _ | JObj _ => true
  end.

Definition nullish (v : Value) : bool :=
  match v with
  | JUndefined | JNull => true
  | _ => false
  end.

(** [a || b] *)
Definition or_else (a b : Value) : Value :=
  if truthy a then a else b.

Definition isArray (v : Value) : bool :=
  match v with
  | JArr _ => true
  | _ => false
  end.

Fixpoint lookup (k : string) (fields : list (string * Value)) : option Value :=
  match fields with
  | [] => None
  | (k', v) :: rest => if String.eqb k k' then Some v else lookup k rest
  end.

(** [v.k] for a [v] that is neither undefined nor null: an own property of an
    object, undefined otherwise (none of the keys read in these files is a
    built-in property of a string, number, boolean or array). *)
Definition prop (v : Value) (k : string) : Value :=
  match v with
  | JObj fields =>
      match lookup k fields with
      | Some x => x
      | None => JUndefined
      end
  | _ => JUndefined
  end.

(** [v.k], which throws a TypeError when [v] is undefined or null. *)
Definition read (v : Value) (k : string) : Result Value :=
  if nullish v then Throw (JsError (fault_message (ReadOfNullish k)))
  else Ok (prop v k).

(** ToString, as a template literal applies it to a value that came out of
    [JSON.parse]. An object is printed by the [toString] it inherits, unless
    it has a key [toString] of its own: what such a key holds is never a
    function, and [valueOf] (inherited, or an own key just as little
    callable) yields no primitive either, so the conversion throws a
    TypeError. An array joins its elements, printing undefined and null as
    nothing and converting every other element in turn. *)
Fixpoint ToString (v : Value) : Result string :=
  match v with
  | JUndefined => Ok "undefined"
  | JNull => Ok "null"
  | JBool true => Ok "true"
  | JBool false => Ok "false"
  | JNum n => Ok (number_toString n)
  | JStr s => Ok s
  | JArr items =>
      (fix join (l : list Value) : Result string :=
         match l with
         | [] => Ok EmptyString
         | [x] => if nullish x then Ok EmptyString else ToString x
         | x :: (_ :: _) as rest =>
             bindR (if nullish x then Ok EmptyString else ToString x)
               (fun first =>
             bindR (join rest) (fun others =>
             Ok (first ++ "," ++ others)))
         end) items
  | JObj fields =>
      match lookup "toString" fields with
      | Some _ => Throw (JsError (fault_message NotPrimitive))
      | None => Ok "[object Object]"
      end
  end.

(* ===================================================================== *)
(** ** Schemas (zod)

    [z.object({...}).parse(v)] accepts an object (not null, not an array),
    checks each listed key, and returns a fresh object holding the listed
    keys only; a missing key reads as undefined and fails [z.string()],
    [z.number()] and [z.array()]. *)

Definition z_object (schema : string) (v : Value)
  : Result (list (string * Value)) :=
  match v with
  | JObj fields => Ok fields
  | _ => Throw (JsError (fault_message (ZodIssues schema)))
  end.

Definition z_string (schema key : string) (fields : list (string * Value))
  : Result string :=
  match lookup key fields with
  | Some (JStr s) => Ok s
  | _ => Throw (JsError (fault_message (ZodIssues schema)))
  end.

Definition z_number (schema key : string) (fields : list (string * Value))
  : Result number :=
  match lookup key fields with
  | Some (JNum n) =>
      if number_refused n then Throw (JsError (fault_message (ZodIssues schema)))
      else Ok n
  | _ => Throw (JsError (fault_message (ZodIssues schema)))
  end.

Definition z_array_any (schema key : string) (fields : list (string * Value))
  : Result (list Value) :=
  match lookup key fields with
  | Some (JArr items) => Ok items
  | _ => Throw (JsError (fault_message (ZodIssues schema)))
  end.

Record TransactionDetails : Type := {
  fromChain : string;
  toChain : string;
  amount : string;
  fromToken : string;
  toToken : string
}.

Definition TransactionDetailsSchema_parse (v : Value)
  : Result TransactionDetails :=
  bindR (z_object "TransactionDetailsSchema" v) (fun o =>
  bindR (z_string "TransactionDetailsSchema" "fromChain" o) (fun a =>
  bindR (z_string "TransactionDetailsSchema" "toChain" o) (fun b =>
  bindR (z_string "TransactionDetailsSchema" "amount" o) (fun c =>
  bindR (z_string "TransactionDetailsSchema" "fromToken" o) (fun d =>
  bindR (z_string "TransactionDetailsSchema" "toToken" o) (fun e =>
  Ok {| fromChain := a; toChain := b; amount := c;
        fromToken := d; toToken := e |})))))).

Record TokenDetails : Type := {
  symbol : string;
  address : string;
  decimals : number;
  token_chainId : string
}.

Definition TokenDetailsSchema_parse (v : Value) : Result TokenDetails :=
  bindR (z_object "TokenDetailsSchema" v) (fun o =>
  bindR (z_string "TokenDetailsSchema" "symbol" o) (fun a =>
  bindR (z_string "TokenDetailsSchema" "address" o) (fun b =>
  bindR (z_number "TokenDetailsSchema" "decimals" o) (fun c =>
  bindR (z_string "TokenDetailsSchema" "chainId" o) (fun d =>
  Ok {| symbol := a; address := b; decimals := c; token_chainId := d |}))))).

Record QuoteResponse : Type := {
  estimatedGas : number;
  route : list Value;
  expectedOutput : string;
  priceImpact : string
}.

Definition QuoteResponseSchema_parse (v : Value) : Result QuoteResponse :=
  bindR (z_object "QuoteResponseSchema" v) (fun o =>
  bindR (z_number "QuoteResponseSchema" "estimatedGas" o) (fun a =>
  bindR (z_array_any "QuoteResponseSchema" "route" o) (fun b =>
  bindR (z_string "QuoteResponseSchema" "expectedOutput" o) (fun c =>
  bindR (z_string "QuoteResponseSchema" "priceImpact" o) (fun d =>
  Ok {| estimatedGas := a; route := b;
        expectedOutput := c; priceImpact := d |}))))).

(* ===================================================================== *)
(** ** Collaborators *)

(** The body of the POST to the quote endpoint. The two chain ids are what
    [chain.chainId || "Unknown"] evaluated to, whatever its runtime type. *)
Record QuoteParams : Type := {
  fromChainId : Value;
  toChainId : Value;
  fromTokenAddress : string;
  toTokenAddress : string;
  quote_amount : string
}.

Inductive Request : Type :=
| GetChainDirectory (url : string)
| GetTokens (url : string)
| PostQuote (url : string) (params : QuoteParams).

Inductive Call : Type :=
| CallLLM (system user : string)
| CallFetch (req : Request)
| CallNow.

Definition Trace : Type := list Call.

Definition is_chain_call (c : Call) : bool :=
  match c with
  | CallFetch (GetChainDirectory _) => true
  | _ => false
  end.

Definition is_token_call (c : Call) : bool :=
  match c with
  | CallFetch (GetTokens _) => true
  | _ => false
  end.

Definition is_quote_call (c : Call) : bool :=
  match c with
  | CallFetch (PostQuote _ _) => true
  | _ => false
  end.

Definition count_calls (kind : Call -> bool) (tr : Trace) : nat :=
  length (filter kind tr).

Record Response : Type := {
  status : Z;
  statusText : string;
  (* what [await response.json()] does: throws or yields the parsed body *)
  json : Result Value
}.

(** [response.ok] *)
Definition ok (r : Response) : bool :=
  (200 <=? status r)%Z && (status r <? 300)%Z.

(** Each collaborator answers the call recorded last in the trace; the
    answer may depend on everything that happened before. *)
Record Env : Type := {
  (* [llm.invoke(...)] rejects, or resolves to a message whose [content]
     is the given value *)
  llm_invoke : Trace -> Result Value;
  (* [fetch(...)] rejects, or resolves to a response *)
  fetch_api : Trace -> Result Response;
  (* [new Date().toISOString()] *)
  clock : Trace -> string
}.

(* ===================================================================== *)
(** ** The monad of asynchronous code *)

Definition M (A : Type) : Type := Trace -> Result A * Trace.

Definition ret {A : Type} (a : A) : M A := fun tr => (Ok a, tr).

Definition throw {A : Type} (e : Exn) : M A := fun tr => (Throw e, tr).

Definition bind {A B : Type} (m : M A) (k : A -> M B) : M B :=
  fun tr =>
    match m tr with
    | (Ok a, tr') => k a tr'
    | (Throw e, tr') => (Throw e, tr')
    end.

Definition try_catch {A : Type} (body : M A) (handler : Exn -> M A) : M A :=
  fun tr =>
    match body tr with
    | (Ok a, tr') => (Ok a, tr')
    | (Throw e, tr') => handler e tr'
    end.

Definition lift {A : Type} (r : Result A) : M A := fun tr => (r, tr).

End Model.

Notation "x <- m ;; k" := (bind m (fun x => k))
  (at level 61, m at next level, right associativity).
Notation "x <~ r ;; k" := (bindR r (fun x => k))
  (at level 61, r at next level, right associativity).

Definition dquote : string := String (ascii_of_nat 34) EmptyString.

Section Lookups.

Context {R : Runtime}.
Variable env : Env.

(** [await fetch(...)]: the request is recorded, the endpoint answers. *)
Definition fetch (req : Request) : M Response :=
  fun tr => let tr' := (tr ++ [CallFetch req])%list in (fetch_api env tr', tr').

(** [new Date().toISOString()] *)
Definition now : M string :=
  fun tr => let tr' := (tr ++ [CallNow])%list in (Ok (clock env tr'), tr').

(** [await llm.invoke([{role: "system", ...}, {role: "user", ...}])],
    followed by [result.content]. *)
Definition invoke (system user : string) : M Value :=
  fun tr => let tr' := (tr ++ [CallLLM system user])%list in (llm_invoke env tr', tr').

Fixpoint mapM {A B : Type} (f : A -> M B) (l : list A) : M (list B) :=
  match l with
  | [] => ret []
  | x :: rest =>
      y <- f x ;;
      ys <- mapM f rest ;;
      ret (y :: ys)
  end.

(** [Array.prototype.filter] with a callback that may throw; the callback's
    result is used through ToBoolean. *)
Fixpoint filterR (f : Value -> Result Value) (l : list Value)
  : Result (list Value) :=
  match l with
  | [] => Ok []
  | x :: rest =>
      keep <~ f x ;;
      kept <~ filterR f rest ;;
      Ok (if truthy keep then x :: kept else kept)
  end.

(** [Array.prototype.find] with a callback that may throw: the first element
    the callback accepts, undefined when there is none. *)
Fixpoint findR (f : Value -> Result bool) (l : list Value) : Result Value :=
  match l with
  | [] => Ok JUndefined
  | x :: rest =>
      hit <~ f x ;;
      if hit then Ok x else findR f rest
  end.

(* ===================================================================== *)
(** ** src/controllers/nitroController.ts *)

Record ChainInfo : Type := {
  name : Value;
  chainId : Value;
  type : Value;
  isLive : Value
}.

Record GasInfo : Type := {
  token : Value;
  limits : Value
}.

Record Features : Type := {
  isIntentApiSupported : Value;
  isRefuelEnabled : Value;
  isQREnabled : Value
}.

Record Metadata : Type := {
  createdAt : Value;
  updatedAt : Value
}.

Record ChainQueryResult : Type := {
  chain : ChainInfo;
  gas : GasInfo;
  features : Features;
  metadata : Metadata;
  url : string;
  timestamp : string
}.

(** What [getChainDetails] resolves to; [data] is [None] for [data: null],
    [count] is [None] where the object has no such key. *)
Record ChainLookupResult : Type := {
  success : bool;
  data : option (list ChainQueryResult);
  message : string;
  lookup_timestamp : string;
  source : string;
  count : option nat
}.

(** [x?.toLowerCase().includes(searchTerm)] *)
Definition lower_includes (x : Value) (searchTerm : string) : Result Value :=
  match x with
  | JUndefined | JNull => Ok JUndefined
  | JStr s => Ok (JBool (includes searchTerm (toLowerCase s)))
  | _ => Throw (JsError (fault_message (NotCallable "toLowerCase")))
  end.

(** The callback of [data.data.filter(...)], lines 41-45. *)
Definition chain_matches (searchTerm : string) (chain : Value) : Result Value :=
  n <~ read chain "name" ;;
  byName <~ lower_includes n searchTerm ;;
  if truthy byName then Ok byName else
  i <~ read chain "chainId" ;;
  byId <~ lower_includes i searchTerm ;;
  if truthy byId then Ok byId else
  t <~ read chain "type" ;;
  byType <~ lower_includes t searchTerm ;;
  if truthy byType then Ok byType else
  g <~ read chain "gasToken" ;;
  if nullish g then Ok JUndefined
  else lower_includes (prop g "symbol") searchTerm.

(** The callback of [matchingChains.map(...)], lines 49-71. *)
Definition process_chain (chain : Value) : M ChainQueryResult :=
  _ <- lift (read chain "name") ;;
  (* the url's template literal comes before [new Date()] in the literal *)
  printed <- lift (ToString (prop chain "chainId")) ;;
  stamp <- now ;;
  ret {| chain := {| name := or_else (prop chain "name") (JStr "Unknown");
                     chainId := or_else (prop chain "chainId") (JStr "Unknown");
                     type := or_else (prop chain "type") (JStr "Unknown");
                     isLive := or_else (prop chain "isLive") (JBool false) |};
         gas := {| token := or_else (prop chain "gasToken") JNull;
                   limits := or_else (prop chain "gasLimit") (JObj []) |};
         features :=
           {| isIntentApiSupported :=
                or_else (prop chain "isIntentApiSupported") (JBool false);
              isRefuelEnabled :=
                or_else (prop chain "isRefuelEnabled") (JBool false);
              isQREnabled := or_else (prop chain "isQREnabled") (JBool false) |};
         metadata := {| createdAt := or_else (prop chain "createdAt") JNull;
                        updatedAt := or_else (prop chain "updatedAt") JNull |};
         url := "https://routernitro.com/chain/" ++ printed;
         timestamp := stamp |}.

Definition ROUTER_NITRO_API : string :=
  "https://api.nitroswap.routernitro.com/chain".

Definition searchParams : string :=
  "page=0&limit=200&sortKey=createdAt&sortOrder=asc".

Definition getChainDetails (chainQuery : string) : M ChainLookupResult :=
  try_catch
    (response <- fetch (GetChainDirectory (ROUTER_NITRO_API ++ "?" ++ searchParams)) ;;
     if negb (ok response) then
       throw (JsError ("RouterNitro API error: " ++ Z_to_string (status response)
                         ++ " " ++ statusText response))
     else
     data <- lift (json response) ;;
     chains <- lift (read data "data") ;;
     if negb (truthy chains) || negb (isArray chains) then
       throw (JsError "Invalid API response format")
     else
     let searchTerm := toLowerCase chainQuery in
     matchingChains <-
       lift match chains with
            | JArr items => filterR (chain_matches searchTerm) items
            | _ => Throw (JsError (fault_message (NotCallable "filter")))
            end ;;
     processedData <- mapM process_chain matchingChains ;;
     stamp <- now ;;
     ret {| success := true;
            data := Some processedData;
            message :=
              if (0 <? length processedData)%nat
              then "Found " ++ nat_to_string (length processedData)
                     ++ " matching chains"
              else "No matching chains found";
            lookup_timestamp := stamp;
            source := "RouterNitro";
            count := Some (length processedData) |})
    (fun error =>
       let errorMessage := message_or "An unknown error occurred" error in
       stamp <- now ;;
       ret {| success := false;
              data := None;
              message := errorMessage;
              lookup_timestamp := stamp;
              source := "RouterNitro";
              count := None |}).

(* ===================================================================== *)
(** ** src/tools/nitro.ts *)

Definition system_prompt : string :=
  "Extract transaction parameters and return them as a JSON object.".

Definition user_prompt (query : string) : string :=
  "Extract transaction parameters from this query: " ++ dquote ++ query
    ++ dquote ++ nl ++ nl
    ++ "Return ONLY a JSON object with these fields:" ++ nl
    ++ "- fromChain" ++ nl ++ "- toChain" ++ nl ++ "- amount" ++ nl
    ++ "- fromToken" ++ nl ++ "- toToken".

Definition extractTransactionDetails (query : string) : M TransactionDetails :=
  try_catch
    (content <- invoke system_prompt (user_prompt query) ;;
     try_catch
       (extractedData <-
          match content with
          | JStr text =>
              match match_json_object text with
              | Some jsonMatch =>
                  match JSON_parse jsonMatch with
                  | Some v => ret v
                  | None => throw (JsError (fault_message (BadJSON jsonMatch)))
                  end
              | None => throw (JsError "No JSON object found in LLM response")
              end
          | _ => ret content
          end ;;
        lift (TransactionDetailsSchema_parse extractedData))
       (fun parseError =>
          let errorMessage := message_or "Unknown parsing error" parseError in
          throw (JsError ("Failed to parse transaction details: " ++ errorMessage))))
    (fun error =>
       let errorMessage := message_or "Unknown error" error in
       throw (JsError ("Failed to extract transaction parameters: " ++ errorMessage))).

(** The callback of [tokens.find(...)], line 124. *)
Definition symbol_equals (tokenSymbol : string) (t : Value) : Result bool :=
  s <~ read t "symbol" ;;
  match s with
  | JStr sym => Ok (String.eqb (toLowerCase sym) (toLowerCase tokenSymbol))
  | JUndefined | JNull =>
      Throw (JsError (fault_message (ReadOfNullish "toLowerCase")))
  | _ => Throw (JsError (fault_message (NotCallable "toLowerCase")))
  end.

(** [chainId] is declared a string; at run time it is whatever the chain
    lookup put in [chain.chainId], so it is a [Value] here. The template
    literal of the address is inside the [try]: a [chainId] that does not
    print ends the lookup before any request. *)
Definition getTokenDetails (chainId : Value) (tokenSymbol : string)
  : M (option TokenDetails) :=
  try_catch
    (printed <- lift (ToString chainId) ;;
     let ROUTER_NITRO_TOKEN_API :=
       "https://api.nitroswap.routernitro.com/token/" ++ printed in
     response <- fetch (GetTokens ROUTER_NITRO_TOKEN_API) ;;
     if negb (ok response) then
       throw (JsError ("Token API error: " ++ Z_to_string (status response)
                         ++ " " ++ statusText response))
     else
     data <- lift (json response) ;;
     listed <- lift (read data "data") ;;
     let tokens := or_else listed (JArr []) in
     token <-
       lift match tokens with
            | JArr items => findR (symbol_equals tokenSymbol) items
            | _ => Throw (JsError (fault_message (NotCallable "find")))
            end ;;
     if truthy token then
       parsed <- lift (TokenDetailsSchema_parse token) ;;
       ret (Some parsed)
     else ret None)
    (fun error => ret None).

Definition ROUTER_NITRO_QUOTE_API : string :=
  "https://api.nitroswap.routernitro.com/quote".

Definition getTransactionDetails (params : QuoteParams)
  : M (option QuoteResponse) :=
  try_catch
    (response <- fetch (PostQuote ROUTER_NITRO_QUOTE_API params) ;;
     if negb (ok response) then
       throw (JsError ("Quote API error: " ++ Z_to_string (status response)
                         ++ " " ++ statusText response))
     else
     data <- lift (json response) ;;
     parsed <- lift (QuoteResponseSchema_parse data) ;;
     ret (Some parsed))
    (fun error => ret None).

(** The second element of the tool's result, one constructor per object
    literal returned by [nitro]. *)
Inductive Artifact : Type :=
| ChainFailure (error : string) (fromChainResult toChainResult : ChainLookupResult)
| TokenFailure (error : string) (fromToken toToken : option TokenDetails)
| QuoteFailure (error : string)
| Route (fromChain toChain : ChainInfo) (fromToken toToken : TokenDetails)
        (amount : string) (quote : QuoteResponse)
| Failure (error : string) (query : string).

(** [result.data[0]?.chain] *)
Definition first_chain (result : ChainLookupResult) : Result (option ChainInfo) :=
  match data result with
  | None => Throw (JsError (fault_message (ReadOfNullish "0")))
  | Some [] => Ok None
  | Some (first :: _) => Ok (Some (chain first))
  end.

(** The base of [c.chainId] for the possibly undefined [c] above: reading a
    property of undefined throws. *)
Definition defined (c : option ChainInfo) (key : string) : Result ChainInfo :=
  match c with
  | None => Throw (JsError (fault_message (ReadOfNullish key)))
  | Some info => Ok info
  end.

Definition humanReadableResponse (details : TransactionDetails)
    (transactionDetails : QuoteResponse) : string :=
  "Found route to " ++ toToken details ++ " on " ++ toChain details ++ " chain:" ++ nl
    ++ "- Amount: " ++ amount details ++ " " ++ fromToken details ++ nl
    ++ "- Expected output: " ++ expectedOutput transactionDetails ++ " "
    ++ toToken details ++ nl
    ++ "- Price impact: " ++ priceImpact transactionDetails ++ nl
    ++ "- Estimated gas: " ++ number_toString (estimatedGas transactionDetails).

(** The two [Promise.all] pairs run their calls one after the other here.
    Each call of a pair issues its request before the first response is
    awaited, so requests enter the trace in this order; the calls share no
    state and never reject, so their results do not depend on the order in
    which the responses are handled. The arguments of the second call are
    evaluated after the first call was started, as in the array literal.
    [nitro_steps] is the [try] block of the tool function, [nitro] the
    function. *)
Definition nitro_steps (query : string) : M (string * Artifact) :=
     details <- extractTransactionDetails query ;;
     fromChainResult <- getChainDetails (fromChain details) ;;
     toChainResult <- getChainDetails (toChain details) ;;
     if negb (success fromChainResult) || negb (success toChainResult) then
       ret ("Failed to fetch chain details. Please check the chain names and try again.",
            ChainFailure "Invalid chain information" fromChainResult toChainResult)
     else
     fromChain <- lift (first_chain fromChainResult) ;;
     toChain <- lift (first_chain toChainResult) ;;
     fromChain <- lift (defined fromChain "chainId") ;;
     fromToken <- getTokenDetails (chainId fromChain) (fromToken details) ;;
     toChain <- lift (defined toChain "chainId") ;;
     toToken <- getTokenDetails (chainId toChain) (toToken details) ;;
     match fromToken, toToken with
     | Some fromToken, Some toToken =>
         transactionDetails <-
           getTransactionDetails
             {| fromChainId := chainId fromChain;
                toChainId := chainId toChain;
                fromTokenAddress := address fromToken;
                toTokenAddress := address toToken;
                quote_amount := amount details |} ;;
         match transactionDetails with
         | Some transactionDetails =>
             ret (humanReadableResponse details transactionDetails,
                  Route fromChain toChain fromToken toToken
                        (amount details) transactionDetails)
         | None =>
             ret ("Failed to fetch quote. Please try again with different parameters.",
                  QuoteFailure "Error getting quote")
         end
     | _, _ =>
         ret ("Failed to fetch token details. Please check the token symbols and try again.",
              TokenFailure "Invalid token information" fromToken toToken)
     end.

Definition nitro (query : string) : M (string * Artifact) :=
  try_catch
    (nitro_steps query)
    (fun error =>
       ret ("An error occurred while processing your request. Please try again.",
            Failure (message_or "Unknown error" error) query)).

(* ===================================================================== *)
(** ** The specification's vocabulary

    The definitions below follow the words of the specification, not the
    code; the theorems relate the code to them. *)

(** A field contains the query as a case-insensitive substring. An absent
    field contains nothing. *)
Definition spec_contains (query : string) (field : Value) : bool :=
  match field with
  | JStr s => includes (toLowerCase query) (toLowerCase s)
  | _ => false
  end.

(** A chain is selected when its name, chainId, type or gasToken.symbol
    contains the query. *)
Definition spec_selected (query : string) (chain : Value) : bool :=
  spec_contains query (prop chain "name")
  || spec_contains query (prop chain "chainId")
  || spec_contains query (prop chain "type")
  || spec_contains query (prop (prop chain "gasToken") "symbol").

Definition optional_string (v : Value) : bool :=
  match v with
  | JUndefined | JNull | JStr _ => true
  | _ => false
  end.

(** A chain record of a well-formed directory response: an object whose
    name, chainId and type are strings where present, and whose gasToken is
    null or an object with a string symbol where present. *)
Definition well_formed_chain (chain : Value) : bool :=
  match chain with
  | JObj _ =>
      optional_string (prop chain "name")
      && optional_string (prop chain "chainId")
      && optional_string (prop chain "type")
      && match prop chain "gasToken" with
         | JUndefined | JNull => true
         | JObj _ as g => optional_string (prop g "symbol")
         | _ => false
         end
  | _ => false
  end.

(** A field that counts as absent: missing, null, false, the empty string,
    or a number that is zero or not a number. *)
Definition spec_absent (source : Value) : Prop :=
  source = JUndefined \/ source = JNull \/ source = JBool false
  \/ source = JStr EmptyString
  \/ exists n, source = JNum n /\ number_truthy n = false.

(** [out] is [source] with [fallback] as its default: the fallback when the
    source field is absent, the source field itself in every other case. *)
Definition spec_defaulted (source fallback out : Value) : Prop :=
  (spec_absent source -> out = fallback)
  /\ (~ spec_absent source -> out = source).

(** The reshaped record of a chain, with the stated defaults. *)
Definition spec_reshaped (c : Value) (p : ChainQueryResult) : Prop :=
  spec_defaulted (prop c "name") (JStr "Unknown") (name (chain p))
  /\ spec_defaulted (prop c "chainId") (JStr "Unknown") (chainId (chain p))
  /\ spec_defaulted (prop c "type") (JStr "Unknown") (type (chain p))
  /\ spec_defaulted (prop c "isLive") (JBool false) (isLive (chain p))
  /\ spec_defaulted (prop c "isIntentApiSupported") (JBool false)
       (isIntentApiSupported (features p))
  /\ spec_defaulted (prop c "isRefuelEnabled") (JBool false)
       (isRefuelEnabled (features p))
  /\ spec_defaulted (prop c "isQREnabled") (JBool false)
       (isQREnabled (features p))
  /\ spec_defaulted (prop c "gasLimit") (JObj []) (limits (gas p))
  /\ spec_defaulted (prop c "gasToken") JNull (token (gas p))
  /\ spec_defaulted (prop c "createdAt") JNull (createdAt (metadata p))
  /\ spec_defaulted (prop c "updatedAt") JNull (updatedAt (metadata p)).

(** The token record [r] is what the value [t] holds under the keys of the
    TokenRecord schema: symbol, address and chainId strings, decimals a
    number. *)
Definition spec_token_record (t : Value) (r : TokenDetails) : Prop :=
  exists fields,
    t = JObj fields
    /\ lookup "symbol" fields = Some (JStr (symbol r))
    /\ lookup "address" fields = Some (JStr (address r))
    /\ lookup "decimals" fields = Some (JNum (decimals r))
    /\ number_refused (decimals r) = false
    /\ lookup "chainId" fields = Some (JStr (token_chainId r)).

(** Case-insensitive exact match of a record's symbol. *)
Definition spec_symbol_matches (tokenSymbol : string) (r : TokenDetails) : bool :=
  String.eqb (toLowerCase (symbol r)) (toLowerCase tokenSymbol).

(** The same on a fetched value: it has a string symbol that matches. *)
Definition spec_has_symbol (tokenSymbol : string) (t : Value) : Prop :=
  exists s, prop t "symbol" = JStr s
            /\ toLowerCase s = toLowerCase tokenSymbol.

(** [t] is the first symbol-matching token of the fetched list. *)
Definition spec_first_match (tokenSymbol : string) (tokens : list Value)
    (t : Value) : Prop :=
  exists before after,
    tokens = (before ++ t :: after)%list
    /\ Forall (fun x => ~ spec_has_symbol tokenSymbol x) before
    /\ spec_has_symbol tokenSymbol t.

(** The shape [{estimatedGas: number, route: array, expectedOutput: string,
    priceImpact: string}]. *)
Definition spec_quote_shape (v : Value) : bool :=
  match v with
  | JObj fields =>
      match lookup "estimatedGas" fields, lookup "route" fields,
            lookup "expectedOutput" fields, lookup "priceImpact" fields with
      | Some (JNum _), Some (JArr _), Some (JStr _), Some (JStr _) => true
      | _, _, _, _ => false
      end
  | _ => false
  end.

(** The text contains a [{...}] substring: an opening brace with a closing
    brace somewhere after it. *)
Definition spec_has_braces (text : string) : Prop :=
  exists pre mid post, text = pre ++ "{" ++ mid ++ "}" ++ post.

Definition spec_string_field (key : string) (v : Value) : option string :=
  match prop v key with
  | JStr s => Some s
  | _ => None
  end.

(** The five fields fromChain, toChain, amount, fromToken, toToken of a
    value, when all five are there and are strings. *)
Definition spec_five_strings (v : Value) : option TransactionDetails :=
  match spec_string_field "fromChain" v, spec_string_field "toChain" v,
        spec_string_field "amount" v, spec_string_field "fromToken" v,
        spec_string_field "toToken" v with
  | Some a, Some b, Some c, Some d, Some e =>
      Some {| fromChain := a; toChain := b; amount := c;
              fromToken := d; toToken := e |}
  | _, _, _, _, _ => None
  end.

(** The requests the three lookups issue. *)
Definition chain_request : Request :=
  GetChainDirectory (ROUTER_NITRO_API ++ "?" ++ searchParams).

Definition token_request (printed : string) : Request :=
  GetTokens ("https://api.nitroswap.routernitro.com/token/" ++ printed).

(** A value a template literal prints. *)
Definition printable (v : Value) : bool :=
  match ToString v with
  | Ok _ => true
  | Throw _ => false
  end.

(** The text a reply is parsed from: what lies between the first opening
    brace and the last closing brace after it, braces included. *)
Definition spec_extracted (text found : string) : Prop :=
  exists pre mid post,
    text = pre ++ "{" ++ mid ++ "}" ++ post
    /\ has_char "{" pre = false
    /\ has_char "}" post = false
    /\ found = "{" ++ mid ++ "}".

Definition quote_request (params : QuoteParams) : Request :=
  PostQuote ROUTER_NITRO_QUOTE_API params.

(** The failure object of the chain lookup:
    [{success: false, data: null, message, timestamp, source}]. *)
Definition structured_failure (r : ChainLookupResult) : Prop :=
  success r = false /\ data r = None /\ count r = None
  /\ source r = "RouterNitro".

(** Its success object: [{success: true, data: [...], message, timestamp,
    source, count}] with [count] the length of [data]. *)
Definition success_object (r : ChainLookupResult) : Prop :=
  success r = true /\ source r = "RouterNitro"
  /\ exists found, data r = Some found /\ count r = Some (length found).

(** The requests of a run, by kind: calls of the model, directory requests,
    token requests, quote requests. *)
Definition is_llm_call (c : Call) : bool :=
  match c with
  | CallLLM _ _ => true
  | _ => false
  end.

Definition requests (added : Trace) : nat * nat * nat * nat :=
  (count_calls is_llm_call added, count_calls is_chain_call added,
   count_calls is_token_call added, count_calls is_quote_call added).

(** A value that is there and is not a string: a boolean, a number, an
    array or an object. *)
Definition not_text (v : Value) : bool :=
  match v with
  | JBool _ | JNum _ | JArr _ | JObj _ => true
  | _ => false
  end.

Definition is_text (v : Value) : bool :=
  match v with
  | JStr _ => true
  | _ => false
  end.

(** A chain with a string under one of the four keys the lookup searches. *)
Definition has_text_field (chain : Value) : bool :=
  is_text (prop chain "name") || is_text (prop chain "chainId")
  || is_text (prop chain "type")
  || is_text (prop (prop chain "gasToken") "symbol").

End Lookups.

(* ===================================================================== *)
(** ** src/seedDB.ts

    The seeding script talks to more collaborators than the tool does: the
    database client, the collection, the vector store. Its code lives in
    the same kind of monad, over a trace of its own calls. *)

Module Seed.

Section Model.

Context {R : Runtime}.

Record GasLimit : Type := {
  swap : number;
  transfer : number
}.

Record GasLimitGroup : Type := {
  trustless : GasLimit;
  mintBurn : GasLimit;
  circle : GasLimit
}.

Record GasToken : Type := {
  symbol : string;
  address : string
}.

Record Chain : Type := {
  _id : string;
  chainId : string;
  name : string;
  type : string;
  isLive : bool;
  isIntentApiSupported : bool;
  isEnabledForMainnet : bool;
  isRefuelEnabled : bool;
  isQREnabled : bool;
  gasLimit : option GasLimitGroup;
  gasToken : option GasToken;
  createdAt : string;
  updatedAt : string;
  __v : number
}.

(** [z.boolean()] *)
Definition z_boolean (schema key : string) (fields : list (string * Value))
  : Result bool :=
  match lookup key fields with
  | Some (JBool b) => Ok b
  | _ => Throw (JsError (fault_message (ZodIssues schema)))
  end.

(** The value a nested schema is applied to: what the key holds, undefined
    when the key is missing. *)
Definition field (key : string) (fields : list (string * Value)) : Value :=
  match lookup key fields with
  | Some v => v
  | None => JUndefined
  end.

(** [inner.nullable()]: null is accepted and stays null; undefined is not. *)
Definition nullable {A : Type} (inner : Value -> Result A) (v : Value)
  : Result (option A) :=
  match v with
  | JNull => Ok None
  | _ => x <~ inner v ;; Ok (Some x)
  end.

Definition GasLimitSchema_parse (v : Value) : Result GasLimit :=
  o <~ z_object "ChainSchema" v ;;
  a <~ z_number "ChainSchema" "swap" o ;;
  b <~ z_number "ChainSchema" "transfer" o ;;
  Ok {| swap := a; transfer := b |}.

Definition GasLimitGroupSchema_parse (v : Value) : Result GasLimitGroup :=
  o <~ z_object "ChainSchema" v ;;
  a <~ GasLimitSchema_parse (field "trustless" o) ;;
  b <~ GasLimitSchema_parse (field "mintBurn" o) ;;
  c <~ GasLimitSchema_parse (field "circle" o) ;;
  Ok {| trustless := a; mintBurn := b; circle := c |}.

Definition GasTokenSchema_parse (v : Value) : Result (option GasToken) :=
  nullable (fun v =>
              o <~ z_object "ChainSchema" v ;;
              a <~ z_string "ChainSchema" "symbol" o ;;
              b <~ z_string "ChainSchema" "address" o ;;
              Ok {| symbol := a; address := b |}) v.

Definition ChainSchema_parse (v : Value) : Result Chain :=
  o <~ z_object "ChainSchema" v ;;
  f_id <~ z_string "ChainSchema" "_id" o ;;
  f_chainId <~ z_string "ChainSchema" "chainId" o ;;
  f_name <~ z_string "ChainSchema" "name" o ;;
  f_type <~ z_string "ChainSchema" "type" o ;;
  f_isLive <~ z_boolean "ChainSchema" "isLive" o ;;
  f_intent <~ z_boolean "ChainSchema" "isIntentApiSupported" o ;;
  f_mainnet <~ z_boolean "ChainSchema" "isEnabledForMainnet" o ;;
  f_refuel <~ z_boolean "ChainSchema" "isRefuelEnabled" o ;;
  f_qr <~ z_boolean "ChainSchema" "isQREnabled" o ;;
  f_gasLimit <~ nullable GasLimitGroupSchema_parse (field "gasLimit" o) ;;
  f_gasToken <~ GasTokenSchema_parse (field "gasToken" o) ;;
  f_createdAt <~ z_string "ChainSchema" "createdAt" o ;;
  f_updatedAt <~ z_string "ChainSchema" "updatedAt" o ;;
  f_v <~ z_number "ChainSchema" "__v" o ;;
  Ok {| _id := f_id; chainId := f_chainId; name := f_name; type := f_type;
        isLive := f_isLive; isIntentApiSupported := f_intent;
        isEnabledForMainnet := f_mainnet; isRefuelEnabled := f_refuel;
        isQREnabled := f_qr; gasLimit := f_gasLimit; gasToken := f_gasToken;
        createdAt := f_createdAt; updatedAt := f_updatedAt; __v := f_v |}.

(** A document handed to the vector store. Its [metadata] is the chain:
    the spread [{...chain, chainId, name, type}] sets three keys to the
    values they already have. *)
Record Document : Type := {
  pageContent : string;
  metadata : Chain
}.

Inductive Call : Type :=
| Connect                                  (* client.connect() *)
| DeleteMany                               (* collection.deleteMany({}) *)
| Fetch (url : string)                     (* fetch(url) *)
| NewVectorStore                           (* the two constructors *)
| AddDocuments (documents : list Document) (* vectorStore.addDocuments(...) *)
| FindOne                                  (* collection.findOne({}) *)
| Close.                                   (* client.close() *)

Definition Trace : Type := list Call.

(** Each collaborator answers the call recorded last in the trace. The
    calls other than [fetch] and [findOne] resolve to nothing the script
    looks at, or reject. *)
Record Env : Type := {
  fetch_api : Trace -> Result Response;
  findOne_api : Trace -> Result Value;
  done_api : Trace -> Result unit
}.

Definition M (A : Type) : Type := Trace -> Result A * Trace.

Definition ret {A : Type} (a : A) : M A := fun tr => (Ok a, tr).

Definition throw {A : Type} (e : Exn) : M A := fun tr => (Throw e, tr).

Definition bind {A B : Type} (m : M A) (k : A -> M B) : M B :=
  fun tr =>
    match m tr with
    | (Ok a, tr') => k a tr'
    | (Throw e, tr') => (Throw e, tr')
    end.

Definition try_catch {A : Type} (body : M A) (handler : Exn -> M A) : M A :=
  fun tr =>
    match body tr with
    | (Ok a, tr') => (Ok a, tr')
    | (Throw e, tr') => handler e tr'
    end.

(** [try { body } finally { finalizer }]: the finalizer runs after the
    body however the body ended; if the finalizer throws, its error is the
    outcome, otherwise the body's outcome stands. *)
Definition try_finally {A : Type} (body : M A) (finalizer : M unit) : M A :=
  fun tr =>
    match body tr with
    | (outcome, tr') =>
        match finalizer tr' with
        | (Ok _, tr'') => (outcome, tr'')
        | (Throw e, tr'') => (Throw e, tr'')
        end
    end.

Definition lift {A : Type} (r : Result A) : M A := fun tr => (r, tr).

End Model.

Notation "x <-- m ;; k" := (bind m (fun x => k))
  (at level 61, m at next level, right associativity).

Section Script.

Context {R : Runtime}.
Variable env : Env.

(** The characters [trim()] strips and [\s] matches. *)
Variable is_space : ascii -> bool.

Definition fetch (url : string) : M Response :=
  fun tr => let tr' := (tr ++ [Fetch url])%list in (fetch_api env tr', tr').

(** A call whose result the script does not look at. *)
Definition perform (c : Call) : M unit :=
  fun tr => let tr' := (tr ++ [c])%list in (done_api env tr', tr').

Definition findOne : M Value :=
  fun tr => let tr' := (tr ++ [FindOne])%list in (findOne_api env tr', tr').

(** [Array.prototype.map] with a callback that may throw. *)
Fixpoint mapR {A B : Type} (f : A -> Result B) (l : list A) : Result (list B) :=
  match l with
  | [] => Ok []
  | x :: rest =>
      y <~ f x ;;
      ys <~ mapR f rest ;;
      Ok (y :: ys)
  end.

(** The callback of [rawData.data.map(...)], lines 71-78: the parsed chain,
    or null after a warning that prints [chain.name]. *)
Definition validate (chain : Value) : Result (option Chain) :=
  match ChainSchema_parse chain with
  | Ok parsed => Ok (Some parsed)
  | Throw error =>
      shown <~ read chain "name" ;;
      _ <~ ToString shown ;;
      Ok None
  end.

(** [.filter((chain) => chain !== null)] *)
Fixpoint not_null {A : Type} (l : list (option A)) : list A :=
  match l with
  | [] => []
  | Some x :: rest => x :: not_null rest
  | None :: rest => not_null rest
  end.

(** [`Fetched ${rawData.data.length} chains from API`], line 67: the
    length of an array or of a string is a number and prints; any other
    value prints what it holds under [length]. *)
Definition length_logged (listed : Value) : Result unit :=
  match listed with
  | JUndefined | JNull =>
      Throw (JsError (fault_message (ReadOfNullish "length")))
  | JArr _ | JStr _ => Ok tt
  | _ => _ <~ ToString (prop listed "length") ;; Ok tt
  end.

Definition CHAIN_URL : string :=
  "https://api.nitroswap.routernitro.com/chain?page=0&limit=50&sortKey=createdAt&sortOrder=asc".

Definition fetchChainData : M (list Chain) :=
  try_catch
    (response <-- fetch CHAIN_URL ;;
     if negb (ok response) then
       throw (JsError ("HTTP error! status: " ++ Z_to_string (status response)))
     else
     rawData <-- lift (json response) ;;
     listed <-- lift (read rawData "data") ;;
     _ <-- lift (length_logged listed) ;;
     validatedData <--
       lift match listed with
            | JArr items => mapR validate items
            | _ => Throw (JsError (fault_message (NotCallable "map")))
            end ;;
     ret (not_null validatedData))
    (fun error => throw error).

Definition yes_no (b : bool) (yes no : string) : string :=
  if b then yes else no.

(** [features], lines 90-95 *)
Definition features_text (chain : Chain) : string :=
  "Intent API: " ++ yes_no (isIntentApiSupported chain) "Supported" "Not Supported"
    ++ ", "
    ++ "Mainnet: " ++ yes_no (isEnabledForMainnet chain) "Enabled" "Not Enabled"
    ++ ", "
    ++ "Refuel: " ++ yes_no (isRefuelEnabled chain) "Available" "Not Available"
    ++ ", "
    ++ "QR: " ++ yes_no (isQREnabled chain) "Enabled" "Not Enabled".

Definition limit_text (label : string) (limit : GasLimit) : string :=
  label ++ ": Swap " ++ number_toString (swap limit)
    ++ ", Transfer " ++ number_toString (transfer limit).

(** [gasLimits], lines 97-103 *)
Definition gas_limits_text (chain : Chain) : string :=
  match gasLimit chain with
  | Some limits =>
      limit_text "Trustless" (trustless limits) ++ "; "
        ++ limit_text "MintBurn" (mintBurn limits) ++ "; "
        ++ limit_text "Circle" (circle limits)
  | None => "No gas limits defined"
  end.

(** The template literal of lines 105-119, line breaks and indentation
    included. *)
Definition template (chain : Chain) : string :=
  nl ++ "    Chain: " ++ name chain ++ " (" ++ type chain ++ ")" ++ nl
    ++ "    Chain ID: " ++ chainId chain ++ nl
    ++ "    Status: " ++ yes_no (isLive chain) "Live" "Not Live" ++ nl
    ++ "    Gas Token: "
    ++ match gasToken chain with
       | Some token => symbol token ++ " (" ++ address token ++ ")"
       | None => "None"
       end ++ nl
    ++ "    Features: " ++ features_text chain ++ nl
    ++ "    Gas Limits: " ++ gas_limits_text chain ++ nl
    ++ "    Created: " ++ createdAt chain ++ nl
    ++ "    Updated: " ++ updatedAt chain ++ nl
    ++ "  ".

Fixpoint trim_start (s : string) : string :=
  match s with
  | EmptyString => EmptyString
  | String c rest => if is_space c then trim_start rest else s
  end.

Fixpoint trim_end (s : string) : string :=
  match s with
  | EmptyString => EmptyString
  | String c rest =>
      match trim_end rest with
      | EmptyString => if is_space c then EmptyString else String c EmptyString
      | kept => String c kept
      end
  end.

(** [s.trim()] *)
Definition trim (s : string) : string := trim_end (trim_start s).

Definition is_newline (c : ascii) : bool := Ascii.eqb c (ascii_of_nat 10).

Definition starts_with_space (s : string) : bool :=
  match s with
  | EmptyString => false
  | String c _ => is_space c
  end.

(** [s.replace(/\n\s+/g, " ")], scanning from the left: a line feed that
    whitespace follows becomes one space and the whitespace after it is
    dropped ([dropping] is true while it lasts). *)
Fixpoint replace_breaks (dropping : bool) (s : string) : string :=
  match s with
  | EmptyString => EmptyString
  | String c rest =>
      if dropping && is_space c then replace_breaks true rest
      else if is_newline c && starts_with_space rest
           then String " " (replace_breaks true rest)
           else String c (replace_breaks false rest)
  end.

Definition createSearchableText (chain : Chain) : string :=
  replace_breaks false (trim (template chain)).

Definition document_of (chain : Chain) : Document :=
  {| pageContent := createSearchableText chain; metadata := chain |}.

Definition seedDatabase : M unit :=
  try_finally
    (try_catch
       (_ <-- perform Connect ;;
        _ <-- perform DeleteMany ;;
        chainData <-- fetchChainData ;;
        _ <-- perform NewVectorStore ;;
        let documents := map document_of chainData in
        _ <-- perform (AddDocuments documents) ;;
        sampleDoc <-- findOne ;;
        ret tt)
       (fun error => throw error))
    (perform Close).

(* --------------------------------------------------------------------- *)
(** The vocabulary of the properties of the script. *)

(** What a value must hold for [{swap: number, transfer: number}]. *)
Definition spec_limit (v : Value) (limit : GasLimit) : Prop :=
  exists fields,
    v = JObj fields
    /\ lookup "swap" fields = Some (JNum (swap limit))
    /\ number_refused (swap limit) = false
    /\ lookup "transfer" fields = Some (JNum (transfer limit))
    /\ number_refused (transfer limit) = false.

(** Null, or the three pairs trustless, mintBurn and circle. *)
Definition spec_limits (v : Value) (limits : option GasLimitGroup) : Prop :=
  match limits with
  | None => v = JNull
  | Some group =>
      exists fields,
        v = JObj fields
        /\ spec_limit (field "trustless" fields) (trustless group)
        /\ spec_limit (field "mintBurn" fields) (mintBurn group)
        /\ spec_limit (field "circle" fields) (circle group)
  end.

(** Null, or [{symbol: string, address: string}]. *)
Definition spec_gas_token (v : Value) (token : option GasToken) : Prop :=
  match token with
  | None => v = JNull
  | Some t =>
      exists fields,
        v = JObj fields
        /\ lookup "symbol" fields = Some (JStr (symbol t))
        /\ lookup "address" fields = Some (JStr (address t))
  end.

(** The chain [c] is what the value [v] holds under the keys of
    ChainSchema. *)
Definition spec_chain_record (v : Value) (c : Chain) : Prop :=
  exists fields,
    v = JObj fields
    /\ lookup "_id" fields = Some (JStr (_id c))
    /\ lookup "chainId" fields = Some (JStr (chainId c))
    /\ lookup "name" fields = Some (JStr (name c))
    /\ lookup "type" fields = Some (JStr (type c))
    /\ lookup "isLive" fields = Some (JBool (isLive c))
    /\ lookup "isIntentApiSupported" fields = Some (JBool (isIntentApiSupported c))
    /\ lookup "isEnabledForMainnet" fields = Some (JBool (isEnabledForMainnet c))
    /\ lookup "isRefuelEnabled" fields = Some (JBool (isRefuelEnabled c))
    /\ lookup "isQREnabled" fields = Some (JBool (isQREnabled c))
    /\ spec_limits (field "gasLimit" fields) (gasLimit c)
    /\ spec_gas_token (field "gasToken" fields) (gasToken c)
    /\ lookup "createdAt" fields = Some (JStr (createdAt c))
    /\ lookup "updatedAt" fields = Some (JStr (updatedAt c))
    /\ lookup "__v" fields = Some (JNum (__v c))
    /\ number_refused (__v c) = false.

(** The entries that pass the schema, parsed, in the order of the list. *)
Fixpoint valid_chains (items : list Value) : list Chain :=
  match items with
  | [] => []
  | v :: rest =>
      match ChainSchema_parse v with
      | Ok c => c :: valid_chains rest
      | Throw _ => valid_chains rest
      end
  end.

Fixpoint ends_with_space (s : string) : bool :=
  match s with
  | EmptyString => false
  | String c EmptyString => is_space c
  | String _ rest => ends_with_space rest
  end.

(** Somewhere in the text a line feed is followed by whitespace. *)
Fixpoint has_broken_line (s : string) : bool :=
  match s with
  | EmptyString => false
  | String c rest =>
      (is_newline c && starts_with_space rest) || has_broken_line rest
  end.

(** An entry the warning of a failed validation can name: neither
    undefined nor null, with a name that prints (a missing name prints as
    undefined). Every entry that passes the schema is one. *)
Definition nameable (v : Value) : bool :=
  negb (nullish v) && printable (prop v "name").

(** Whether the log line can print the length of what [data] holds: the
    length of a string is a number, a boolean or a number has none, an
    object has what it holds under that key. *)
Definition length_prints (listed : Value) : bool :=
  match listed with
  | JObj fields =>
      match lookup "length" fields with
      | Some v => printable v
      | None => true
      end
  | _ => true
  end.

Definition is_close (c : Call) : bool :=
  match c with
  | Close => true
  | _ => false
  end.


End Script.

End Seed.


(* ===================================================================== *)
(** ** A concrete runtime for examples

    Numbers are integers, lower-casing acts on the letters A-Z, and
    [JSON.parse] is a reader for JSON text whose numbers are integer
    literals and whose strings use the single-character escapes. The
    messages are those of V8 and zod, shortened. *)

Definition lower_char (c : ascii) : ascii :=
  let n := nat_of_ascii c in
  if (65 <=? n)%nat && (n <=? 90)%nat then ascii_of_nat (n + 32) else c.

Fixpoint ascii_toLowerCase (s : string) : string :=
  match s with
  | EmptyString => EmptyString
  | String c rest => String (lower_char c) (ascii_toLowerCase rest)
  end.

Definition is_ws (c : ascii) : bool :=
  let n := nat_of_ascii c in
  (n =? 32)%nat || (n =? 9)%nat || (n =? 10)%nat || (n =? 13)%nat.

Fixpoint skip_ws (s : string) : string :=
  match s with
  | EmptyString => EmptyString
  | String c rest => if is_ws c then skip_ws rest else s
  end.

(** The characters of a string literal after its opening quote, and what
    follows the closing quote. *)
Fixpoint read_string (s : string) : option (string * string) :=
  match s with
  | EmptyString => None
  | String c rest =>
      if (nat_of_ascii c =? 34)%nat then Some (EmptyString, rest)
      else if (nat_of_ascii c =? 92)%nat then
        match rest with
        | EmptyString => None
        | String e rest' =>
            let unescaped :=
              match nat_of_ascii e with
              | 34 => Some (ascii_of_nat 34)
              | 92 => Some (ascii_of_nat 92)
              | 47 => Some (ascii_of_nat 47)
              | 98 => Some (ascii_of_nat 8)
              | 102 => Some (ascii_of_nat 12)
              | 110 => Some (ascii_of_nat 10)
              | 114 => Some (ascii_of_nat 13)
              | 116 => Some (ascii_of_nat 9)
              | _ => None
              end in
            match unescaped, read_string rest' with
            | Some u, Some (text, after) => Some (String u text, after)
            | _, _ => None
            end
        end
      else if (nat_of_ascii c <? 32)%nat then None
      else
        match read_string rest with
        | Some (text, after) => Some (String c text, after)
        | None => None
        end
  end.

Definition digit_of (c : ascii) : option Z :=
  let n := nat_of_ascii c in
  if (48 <=? n)%nat && (n <=? 57)%nat then Some (Z.of_nat (n - 48)) else None.

Fixpoint read_digits (acc : Z) (s : string) : Z * string :=
  match s with
  | EmptyString => (acc, s)
  | String c rest =>
      match digit_of c with
      | Some d => read_digits (10 * acc + d) rest
      | None => (acc, s)
      end
  end.

(** An integer literal: an optional minus sign, then either a single 0 or
    digits that do not start with 0. *)
Definition read_integer (s : string) : option (Z * string) :=
  let (negative, body) :=
    match s with
    | String "-"%char rest => (true, rest)
    | _ => (false, s)
    end in
  match body with
  | String c rest =>
      match digit_of c with
      | Some d =>
          let (n, after) := if (d =? 0)%Z then (0%Z, rest) else read_digits d rest in
          match after with
          | String "."%char _ | String "e"%char _ | String "E"%char _ => None
          | String c' _ =>
              match digit_of c' with
              | Some _ => None
              | None => Some (if negative then (- n)%Z else n, after)
              end
          | EmptyString => Some (if negative then (- n)%Z else n, after)
          end
      | None => None
      end
  | EmptyString => None
  end.

(** A later member with the same key replaces the value of the earlier. *)
Fixpoint set_field {number : Type} (k : string) (v : JSValue number)
    (fields : list (string * JSValue number)) : list (string * JSValue number) :=
  match fields with
  | [] => [(k, v)]
  | (k', v') :: rest =>
      if String.eqb k k' then (k', v) :: rest else (k', v') :: set_field k v rest
  end.

Fixpoint read_value (fuel : nat) (s : string) : option (JSValue Z * string) :=
  match fuel with
  | O => None
  | S fuel' =>
      match skip_ws s with
      | String "{"%char rest =>
          match skip_ws rest with
          | String "}"%char after => Some (JObj [], after)
          | _ => read_members fuel' [] rest
          end
      | String "["%char rest =>
          match skip_ws rest with
          | String "]"%char after => Some (JArr [], after)
          | _ => read_elements fuel' [] rest
          end
      | String "t"%char (String "r"%char (String "u"%char (String "e"%char after))) =>
          Some (JBool true, after)
      | String "f"%char (String "a"%char (String "l"%char (String "s"%char
          (String "e"%char after)))) =>
          Some (JBool false, after)
      | String "n"%char (String "u"%char (String "l"%char (String "l"%char after))) =>
          Some (JNull, after)
      | String c rest as text =>
          if (nat_of_ascii c =? 34)%nat then
            match read_string rest with
            | Some (str, after) => Some (JStr str, after)
            | None => None
            end
          else
            match read_integer text with
            | Some (n, after) => Some (JNum n, after)
            | None => None
            end
      | EmptyString => None
      end
  end
with read_members (fuel : nat) (seen : list (string * JSValue Z)) (s : string)
  : option (JSValue Z * string) :=
  match fuel with
  | O => None
  | S fuel' =>
      match skip_ws s with
      | String c rest =>
          if (nat_of_ascii c =? 34)%nat then
            match read_string rest with
            | Some (key, after_key) =>
                match skip_ws after_key with
                | String ":"%char after_colon =>
                    match read_value fuel' after_colon with
                    | Some (v, after_value) =>
                        match skip_ws after_value with
                        | String ","%char more =>
                            read_members fuel' (set_field key v seen) more
                        | String "}"%char after =>
                            Some (JObj (set_field key v seen), after)
                        | _ => None
                        end
                    | None => None
                    end
                | _ => None
                end
            | None => None
            end
          else None
      | EmptyString => None
      end
  end
with read_elements (fuel : nat) (seen : list (JSValue Z)) (s : string)
  : option (JSValue Z * string) :=
  match fuel with
  | O => None
  | S fuel' =>
      match read_value fuel' s with
      | Some (v, after_value) =>
          match skip_ws after_value with
          | String ","%char more => read_elements fuel' (seen ++ [v])%list more
          | String "]"%char after => Some (JArr (seen ++ [v])%list, after)
          | _ => None
          end
      | None => None
      end
  end.

Definition read_json (text : string) : option (JSValue Z) :=
  match read_value (2 * String.length text + 2) text with
  | Some (v, after) =>
      match skip_ws after with
      | EmptyString => Some v
      | _ => None
      end
  | None => None
  end.

Definition v8_message (f : Fault) : string :=
  match f with
  | ReadOfNullish prop =>
      "Cannot read properties of undefined (reading '" ++ prop ++ "')"
  | NotCallable prop => prop ++ " is not a function"
  | BadJSON _ => "Unexpected token in JSON"
  | ZodIssues schema => "Invalid input for " ++ schema
  | NotPrimitive => "Cannot convert object to primitive value"
  end.

#[local] Instance ExampleRuntime : Runtime := {|
  number := Z;
  number_truthy := fun n => negb (n =? 0)%Z;
  number_refused := fun _ => false;
  number_toString := Z_to_string;
  toLowerCase := ascii_toLowerCase;
  JSON_parse := read_json;
  fault_message := v8_message
|}.

Definition q (s : string) : string := dquote ++ s ++ dquote.

Definition reply_text : string :=
  "{" ++ q "fromChain" ++ ":" ++ q "Ethereum" ++ ","
      ++ q "toChain" ++ ":" ++ q "Polygon" ++ ","
      ++ q "amount" ++ ":" ++ q "100" ++ ","
      ++ q "fromToken" ++ ":" ++ q "ETH" ++ ","
      ++ q "toToken" ++ ":" ++ q "ETH" ++ "}".


(** An environment that answers from a script: one reply of the model, the
    directory and token endpoints answering their n-th call with the n-th
    entry, one answer of the quote endpoint, a clock that stands still. *)
Definition scripted (reply : Result (JSValue Z))
    (directory tokens : list (Result (@Response ExampleRuntime)))
    (quoted : Result (@Response ExampleRuntime))
    (time : string) : @Env ExampleRuntime :=
  {| llm_invoke := fun _ => reply;
     fetch_api := fun tr =>
       match last tr CallNow with
       | CallFetch (GetChainDirectory _) =>
           nth (count_calls is_chain_call tr - 1) directory (Throw NonError)
       | CallFetch (GetTokens _) =>
           nth (count_calls is_token_call tr - 1) tokens (Throw NonError)
       | CallFetch (PostQuote _ _) => quoted
       | _ => Throw NonError
       end;
     clock := fun _ => time |}.

Definition json_ok (code : Z) (body : JSValue Z)
  : Result (@Response ExampleRuntime) :=
  Ok {| status := code; statusText := "OK"; json := Ok body |}.

Definition chain_record (name id symbol : string) : JSValue Z :=
  JObj [("_id", JStr ("id-" ++ id)); ("chainId", JStr id); ("name", JStr name);
        ("type", JStr "evm"); ("isLive", JBool true);
        ("isIntentApiSupported", JBool false);
        ("isEnabledForMainnet", JBool true);
        ("isRefuelEnabled", JBool false); ("isQREnabled", JBool true);
        ("gasLimit", JNull);
        ("gasToken", JObj [("symbol", JStr symbol); ("address", JStr "0xEeee")]);
        ("createdAt", JStr "2023-01-01T00:00:00.000Z");
        ("updatedAt", JStr "2023-06-01T00:00:00.000Z"); ("__v", JNum 0%Z)].

Definition directory_body : JSValue Z :=
  JObj [("data", JArr [chain_record "Ethereum" "1" "ETH";
                       chain_record "BSC" "56" "BNB";
                       chain_record "Polygon" "137" "MATIC";
                       JObj [("name", JStr "Bare")]])].

Definition token_record (symbol address chain : string) : JSValue Z :=
  JObj [("symbol", JStr symbol); ("address", JStr address);
        ("decimals", JNum 18%Z); ("chainId", JStr chain)].

Definition tokens_body (chain : string) : JSValue Z :=
  JObj [("data", JArr [token_record "ETH" "0xE" chain;
                       token_record "USDC" "0xC" chain;
                       token_record "USDT" "0xD" chain])].

Definition quote_body : JSValue Z :=
  JObj [("estimatedGas", JNum 210000%Z); ("route", JArr [JStr "bridge"]);
        ("expectedOutput", JStr "49.9"); ("priceImpact", JStr "0.2%")].

Definition bridge_reply : string :=
  "{" ++ q "fromChain" ++ ":" ++ q "BSC" ++ ","
      ++ q "toChain" ++ ":" ++ q "Polygon" ++ ","
      ++ q "amount" ++ ":" ++ q "50" ++ ","
      ++ q "fromToken" ++ ":" ++ q "USDT" ++ ","
      ++ q "toToken" ++ ":" ++ q "USDT" ++ "}".

Definition bridge_env : @Env ExampleRuntime :=
  scripted (Ok (JStr bridge_reply))
    [json_ok 200 directory_body; json_ok 200 directory_body]
    [json_ok 200 (tokens_body "56"); json_ok 200 (tokens_body "137")]
    (json_ok 200 quote_body) "2024-01-01T00:00:00.000Z".

Definition two_tokens : list (JSValue Z) :=
  [token_record "ETH" "0xE" "1"; token_record "USDC" "0xC" "1"].

Definition two_tokens_env : Env :=
  scripted (Ok (JStr bridge_reply)) []
    [json_ok 200 (JObj [("data", JArr two_tokens)])]
    (json_ok 200 quote_body) "2024-01-01T00:00:00.000Z".

(** A token list whose first ETH entry has no decimals. *)
Definition ragged_tokens : list (JSValue Z) :=
  [token_record "USDC" "0xC" "1";
   JObj [("symbol", JStr "Eth"); ("address", JStr "0xE"); ("chainId", JStr "1")];
   token_record "ETH" "0xE" "1"].

Definition ragged_env : Env :=
  scripted (Ok (JStr bridge_reply)) []
    [json_ok 200 (JObj [("data", JArr ragged_tokens)])]
    (json_ok 200 quote_body) "2024-01-01T00:00:00.000Z".

(** A quote without priceImpact. *)
Definition short_quote_fields : list (string * JSValue Z) :=
  [("estimatedGas", JNum 210000%Z); ("route", JArr []);
   ("expectedOutput", JStr "49.9")].

Definition short_quote_env : Env :=
  scripted (Ok (JStr bridge_reply)) [] []
    (json_ok 200 (JObj short_quote_fields)) "2024-01-01T00:00:00.000Z".

Definition sample_params : QuoteParams :=
  {| fromChainId := JStr "56"; toChainId := JStr "137";
     fromTokenAddress := "0xD"; toTokenAddress := "0xD"; quote_amount := "50" |}.

(** The model answers with the reply of the specification's example. *)
Definition swap_env : Env :=
  scripted (Ok (JStr reply_text)) [] [] (Throw NonError) "2024-01-01T00:00:00.000Z".

(** The model answers in prose. *)
Definition prose_env : Env :=
  scripted (Ok (JStr "I could not find any parameters."))
    [] [] (Throw NonError) "2024-01-01T00:00:00.000Z".

(** The directory is down for the first lookup. *)
Definition down_env : Env :=
  scripted (Ok (JStr bridge_reply))
    [Ok {| status := 503; statusText := "Service Unavailable";
           json := Ok JNull |};
     json_ok 200 directory_body]
    [] (Throw NonError) "2024-01-01T00:00:00.000Z".

(** The directory answers with an object that has no data field. *)
Definition odd_env : Env :=
  scripted (Ok (JStr bridge_reply))
    [json_ok 200 (JObj [("total", JNum 0%Z)])]
    [] (Throw NonError) "2024-01-01T00:00:00.000Z".

(** The model sends the destination to a chain the directory does not
    list. *)
Definition nowhere_reply : string :=
  "{" ++ q "fromChain" ++ ":" ++ q "BSC" ++ ","
      ++ q "toChain" ++ ":" ++ q "Atlantis" ++ ","
      ++ q "amount" ++ ":" ++ q "50" ++ ","
      ++ q "fromToken" ++ ":" ++ q "USDT" ++ ","
      ++ q "toToken" ++ ":" ++ q "USDT" ++ "}".

Definition nowhere_env : Env :=
  scripted (Ok (JStr nowhere_reply))
    [json_ok 200 directory_body; json_ok 200 directory_body]
    [json_ok 200 (tokens_body "56"); json_ok 200 (tokens_body "137")]
    (json_ok 200 quote_body) "2024-01-01T00:00:00.000Z".

(** The model is unreachable. *)
Definition silent_env : Env :=
  scripted (Throw (JsError "Connection error.")) [] [] (Throw NonError)
    "2024-01-01T00:00:00.000Z".

(** The destination chain does not list the token. *)
Definition missing_token_env : Env :=
  scripted (Ok (JStr bridge_reply))
    [json_ok 200 directory_body; json_ok 200 directory_body]
    [json_ok 200 (tokens_body "56"); json_ok 200 (JObj [("data", JArr two_tokens)])]
    (json_ok 200 quote_body) "2024-01-01T00:00:00.000Z".

(** Everything resolves but the quote lacks priceImpact. *)
Definition no_quote_env : Env :=
  scripted (Ok (JStr bridge_reply))
    [json_ok 200 directory_body; json_ok 200 directory_body]
    [json_ok 200 (tokens_body "56"); json_ok 200 (tokens_body "137")]
    (json_ok 200 (JObj short_quote_fields)) "2024-01-01T00:00:00.000Z".

(** A directory with a null entry between two chains. *)
Definition holed_env : Env :=
  scripted (Ok (JStr bridge_reply))
    [json_ok 200 (JObj [("data", JArr ([chain_record "Ethereum" "1" "ETH"]
                                        ++ JNull
                                        :: [chain_record "BSC" "56" "BNB"]))])]
    [] (Throw NonError) "2024-01-01T00:00:00.000Z".

(** A token list with an entry without symbol before the ETH token. *)
Definition holed_tokens_env : Env :=
  scripted (Ok (JStr bridge_reply)) []
    [json_ok 200
       (JObj [("data", JArr ([token_record "USDC" "0xC" "1"]
                              ++ JObj [("address", JStr "0x0")]
                              :: [token_record "ETH" "0xE" "1"]))])]
    (Throw NonError) "2024-01-01T00:00:00.000Z".

(** A token endpoint that answers with a message instead of a list. *)
Definition no_list_env : Env :=
  scripted (Ok (JStr bridge_reply)) []
    [json_ok 200 (JObj [("data", JStr "unsupported chain")])]
    (Throw NonError) "2024-01-01T00:00:00.000Z".

(** The model answers with content parts instead of a string. *)
Definition parts : JSValue Z :=
  JArr [JObj [("type", JStr "text"); ("text", JStr reply_text)]].

Definition parts_env : Env :=
  scripted (Ok parts) [] [] (Throw NonError) "2024-01-01T00:00:00.000Z".

(** The model wraps the object in prose. *)
Definition inner_text : string :=
  q "fromChain" ++ ":" ++ q "Ethereum" ++ ","
    ++ q "toChain" ++ ":" ++ q "Polygon" ++ ","
    ++ q "amount" ++ ":" ++ q "100" ++ ","
    ++ q "fromToken" ++ ":" ++ q "ETH" ++ ","
    ++ q "toToken" ++ ":" ++ q "ETH".

Definition chatty_env : Env :=
  scripted (Ok (JStr ("Here you go: " ++ "{" ++ inner_text ++ "}"
                        ++ " Hope this helps.")))
    [] [] (Throw NonError) "2024-01-01T00:00:00.000Z".

(** The seeding script's collaborators: one answer of the directory, one
    document found; every other call goes through. *)
Definition seed_scripted (answer : Result Response) (sample : Result (JSValue Z))
  : Seed.Env :=
  {| Seed.fetch_api := fun _ => answer;
     Seed.findOne_api := fun _ => sample;
     Seed.done_api := fun _ => Ok tt |}.

Definition seed_env : Seed.Env :=
  seed_scripted (json_ok 200 directory_body) (Ok JNull).

Definition seed_down_env : Seed.Env :=
  seed_scripted (Ok {| status := 503; statusText := "Service Unavailable";
                       json := Ok JNull |}) (Ok JNull).

Definition seed_holed_env : Seed.Env :=
  seed_scripted
    (json_ok 200 (JObj [("data", JArr ([chain_record "Ethereum" "1" "ETH"]
                                        ++ JNull
                                        :: [chain_record "BSC" "56" "BNB"]))]))
    (Ok JNull).

Definition seed_chain (name id symbol : string) : Seed.Chain :=
  {| Seed._id := "id-" ++ id; Seed.chainId := id; Seed.name := name;
     Seed.type := "evm"; Seed.isLive := true;
     Seed.isIntentApiSupported := false; Seed.isEnabledForMainnet := true;
     Seed.isRefuelEnabled := false; Seed.isQREnabled := true;
     Seed.gasLimit := None;
     Seed.gasToken := Some {| Seed.symbol := symbol; Seed.address := "0xEeee" |};
     Seed.createdAt := "2023-01-01T00:00:00.000Z";
     Seed.updatedAt := "2023-06-01T00:00:00.000Z"; Seed.__v := 0%Z |}.

Definition seed_chains : list Seed.Chain :=
  [seed_chain "Ethereum" "1" "ETH"; seed_chain "BSC" "56" "BNB";
   seed_chain "Polygon" "137" "MATIC"].

(** A value no template literal prints: an object with a key toString. *)
Definition unprintable : JSValue Z := JObj [("toString", JNum 1%Z)].

(** A directory whose second chain is found by its name and has a chainId
    that does not print. *)
Definition unprintable_env : Env :=
  scripted (Ok (JStr bridge_reply))
    [json_ok 200
       (JObj [("data", JArr ([chain_record "BSC" "56" "BNB"]
                              ++ JObj [("name", JStr "bsc-two");
                                       ("chainId", unprintable)]
                              :: [chain_record "Polygon" "137" "MATIC"]))])]
    [] (Throw NonError) "2024-01-01T00:00:00.000Z".

(** The seeder's directory lists an entry whose name does not print. *)
Definition seed_unnameable_env : Seed.Env :=
  seed_scripted
    (json_ok 200 (JObj [("data", JArr ([chain_record "BSC" "56" "BNB"]
                                        ++ JObj [("name", unprintable)]
                                        :: []))]))
    (Ok JNull).

(** The seeder's directory answers with an object whose length does not
    print where the list should be. *)
Definition seed_odd_length_env : Seed.Env :=
  seed_scripted (json_ok 200 (JObj [("data", JObj [("length", unprintable)])]))
    (Ok JNull).


(** The theorems are about every runtime: the example runtime is put aside
    until they are applied to it. *)
#[local] Remove Hints ExampleRuntime : typeclass_instances.

(* ===================================================================== *)
(** * Properties *)

Section Proofs.

Context {R : Runtime}.
Variable env : Env.

(** ** The monad *)

Lemma bind_ok {A B : Type} (m : M A) (k : A -> M B) tr a tr' :
  m tr = (Ok a, tr') -> bind m k tr = k a tr'.
Proof. intros H. unfold bind. now rewrite H. Qed.

Lemma bind_throw {A B : Type} (m : M A) (k : A -> M B) tr e tr' :
  m tr = (Throw e, tr') -> bind m k tr = (Throw e, tr').
Proof. intros H. unfold bind. now rewrite H. Qed.

Lemma try_catch_ok {A : Type} (body : M A) handler tr a tr' :
  body tr = (Ok a, tr') -> try_catch body handler tr = (Ok a, tr').
Proof. intros H. unfold try_catch. now rewrite H. Qed.

Lemma try_catch_throw {A : Type} (body : M A) handler tr e tr' :
  body tr = (Throw e, tr') -> try_catch body handler tr = handler e tr'.
Proof. intros H. unfold try_catch. now rewrite H. Qed.

(** ** Traces: which calls a computation adds *)

Lemma count_calls_app kind (a b : Trace) :
  count_calls kind (a ++ b)%list = count_calls kind a + count_calls kind b.
Proof. unfold count_calls. now rewrite filter_app, length_app. Qed.

(** [adds P m]: whatever [m] does, it only appends calls, and the calls it
    appends satisfy [P]. *)
Definition adds {A : Type} (P : Trace -> Prop) (m : M A) : Prop :=
  forall tr r tr', m tr = (r, tr') -> exists added, tr' = (tr ++ added)%list /\ P added.

Definition none_of (kind : Call -> bool) (added : Trace) : Prop :=
  count_calls kind added = 0.

Lemma adds_ret {A : Type} kind (a : A) : adds (none_of kind) (ret a).
Proof.
  intros tr r tr' H. inversion H; subst. exists []. split.
  - now rewrite app_nil_r.
  - reflexivity.
Qed.

Lemma adds_throw {A : Type} kind e : adds (none_of kind) (@throw _ A e).
Proof.
  intros tr r tr' H. inversion H; subst. exists []. split.
  - now rewrite app_nil_r.
  - reflexivity.
Qed.

Lemma adds_lift {A : Type} kind (x : Result A) : adds (none_of kind) (lift x).
Proof.
  intros tr r tr' H. inversion H; subst. exists []. split.
  - now rewrite app_nil_r.
  - reflexivity.
Qed.

Lemma adds_bind {A B : Type} kind (m : M A) (k : A -> M B) :
  adds (none_of kind) m -> (forall a, adds (none_of kind) (k a)) ->
  adds (none_of kind) (bind m k).
Proof.
  intros Hm Hk tr r tr' H. unfold bind in H.
  destruct (m tr) as [[a | e] tr1] eqn:E.
  - destruct (Hm _ _ _ E) as (x & -> & Hx).
    destruct (Hk a _ _ _ H) as (y & -> & Hy).
    exists (x ++ y)%list. split.
    + now rewrite app_assoc.
    + unfold none_of in *. rewrite count_calls_app. lia.
  - inversion H; subst. exact (Hm _ _ _ E).
Qed.

Lemma adds_try_catch {A : Type} kind (body : M A) handler :
  adds (none_of kind) body -> (forall e, adds (none_of kind) (handler e)) ->
  adds (none_of kind) (try_catch body handler).
Proof.
  intros Hb Hh tr r tr' H. unfold try_catch in H.
  destruct (body tr) as [[a | e] tr1] eqn:E.
  - inversion H; subst. exact (Hb _ _ _ E).
  - destruct (Hb _ _ _ E) as (x & -> & Hx).
    destruct (Hh e _ _ _ H) as (y & -> & Hy).
    exists (x ++ y)%list. split.
    + now rewrite app_assoc.
    + unfold none_of in *. rewrite count_calls_app. lia.
Qed.

Lemma adds_now kind : kind CallNow = false -> adds (none_of kind) (now env).
Proof.
  intros Hk tr r tr' H. inversion H; subst. exists [CallNow]. split; [reflexivity |].
  unfold none_of, count_calls. simpl. now rewrite Hk.
Qed.

Lemma adds_fetch kind req :
  kind (CallFetch req) = false -> adds (none_of kind) (fetch env req).
Proof.
  intros Hk tr r tr' H. inversion H; subst. exists [CallFetch req].
  split; [reflexivity |].
  unfold none_of, count_calls. simpl. now rewrite Hk.
Qed.

Lemma adds_invoke kind system user :
  kind (CallLLM system user) = false -> adds (none_of kind) (invoke env system user).
Proof.
  intros Hk tr r tr' H. inversion H; subst. exists [CallLLM system user].
  split; [reflexivity |].
  unfold none_of, count_calls. simpl. now rewrite Hk.
Qed.

Lemma adds_mapM {A B : Type} kind (f : A -> M B) l :
  (forall a, adds (none_of kind) (f a)) -> adds (none_of kind) (mapM f l).
Proof.
  intros Hf. induction l as [| x rest IH]; simpl.
  - apply adds_ret.
  - apply adds_bind; [apply Hf |]. intros y.
    apply adds_bind; [exact IH |]. intros ys. apply adds_ret.
Qed.

Lemma adds_if {A : Type} kind (b : bool) (m1 m2 : M A) :
  adds (none_of kind) m1 -> adds (none_of kind) m2 ->
  adds (none_of kind) (if b then m1 else m2).
Proof. now destruct b. Qed.

Create HintDb trace.

#[local] Hint Resolve adds_ret adds_throw adds_lift adds_now adds_fetch
  adds_invoke adds_mapM adds_if : trace.

Ltac trace_step :=
  repeat first
    [ apply adds_try_catch; [| intros ?]
    | apply adds_bind; [| intros ?]
    | apply adds_if
    | apply adds_mapM; intros ?
    | solve [auto with trace]
    | match goal with
      | |- adds _ (match ?x with _ => _ end) => destruct x
      end ].

Lemma getChainDetails_adds kind chainQuery :
  (forall url, kind (CallFetch (GetChainDirectory url)) = false) ->
  kind CallNow = false ->
  adds (none_of kind) (getChainDetails env chainQuery).
Proof.
  intros Hf Hn. unfold getChainDetails, process_chain. trace_step.
Qed.

Lemma extractTransactionDetails_adds kind query :
  (forall system user, kind (CallLLM system user) = false) ->
  adds (none_of kind) (extractTransactionDetails env query).
Proof.
  intros Hk. unfold extractTransactionDetails. trace_step.
Qed.

(** ** Chain lookup *)

Ltac run_in H :=
  unfold bind, try_catch, fetch, now, invoke, lift, ret, throw in H;
  simpl in H.

(** Case analysis on the innermost test the hypothesis is stuck on. *)
Ltac case_split_in H :=
  repeat match type of H with
         | context [match ?x with _ => _ end] =>
             lazymatch x with
             | context [match _ with _ => _ end] => fail
             | _ => destruct x eqn:?; cbv beta iota in H
             end
         end.

(** Case analysis on the first field a schema reads in [H]; the cases in
    which the schema throws are closed. *)
Ltac field_in H :=
  match type of H with
  | context [lookup ?k ?fields] =>
      destruct (lookup k fields) as [[] |] eqn:?; cbn [bindR] in H;
      try discriminate H
  end.

(** The [try] block of the chain lookup, as the proofs see it. *)
Lemma getChainDetails_unfold chainQuery tr :
  getChainDetails env chainQuery tr =
  try_catch
    (response <- fetch env chain_request ;;
     if negb (ok response) then
       throw (JsError ("RouterNitro API error: " ++ Z_to_string (status response)
                         ++ " " ++ statusText response))
     else
     data <- lift (json response) ;;
     chains <- lift (read data "data") ;;
     if negb (truthy chains) || negb (isArray chains) then
       throw (JsError "Invalid API response format")
     else
     matchingChains <-
       lift match chains with
            | JArr items => filterR (chain_matches (toLowerCase chainQuery)) items
            | _ => Throw (JsError (fault_message (NotCallable "filter")))
            end ;;
     processedData <- mapM (process_chain env) matchingChains ;;
     stamp <- now env ;;
     ret {| success := true;
            data := Some processedData;
            message :=
              if (0 <? length processedData)%nat
              then "Found " ++ nat_to_string (length processedData)
                     ++ " matching chains"
              else "No matching chains found";
            lookup_timestamp := stamp;
            source := "RouterNitro";
            count := Some (length processedData) |})
    (fun error =>
       stamp <- now env ;;
       ret {| success := false;
              data := None;
              message := message_or "An unknown error occurred" error;
              lookup_timestamp := stamp;
              source := "RouterNitro";
              count := None |}) tr.
Proof. reflexivity. Qed.

Lemma getChainDetails_shape chainQuery tr :
  exists r tr', getChainDetails env chainQuery tr = (Ok r, tr')
                /\ (success_object r \/ structured_failure r).
Proof.
  rewrite getChainDetails_unfold. unfold try_catch.
  match goal with |- context [match ?b tr with _ => _ end] => destruct (b tr) as [[r | e] tr1] eqn:E end.
  - exists r, tr1. split; [reflexivity |]. left.
    run_in E. case_split_in E; try discriminate;
      inversion E; subst; unfold success_object; simpl; eauto.
  - eexists _, _. split; [reflexivity |]. right.
    unfold structured_failure. simpl. auto.
Qed.

Lemma or_else_defaulted (source fallback : Value) :
  spec_defaulted source fallback (or_else source fallback).
Proof.
  unfold spec_defaulted, spec_absent, or_else. split.
  - intros [-> | [-> | [-> | [-> | (n & -> & N)]]]]; cbn [truthy];
      try rewrite N; reflexivity.
  - intros A. destruct source as [| | [|] | n | [| c s] | items | fields];
      cbn [truthy negb String.eqb]; try reflexivity;
      try (exfalso; apply A; tauto).
    destruct (number_truthy n) eqn:N; [reflexivity |].
    exfalso. apply A. do 4 right. now exists n.
Qed.

(** What a chain record may hold under a key that is printed: a string, or
    nothing. *)
Lemma optional_string_prints (v : Value) :
  optional_string v = true -> exists s, ToString v = Ok s.
Proof. destruct v; simpl; try discriminate; eauto. Qed.

Lemma lower_includes_wf (x : Value) (query : string) :
  optional_string x = true ->
  exists v, lower_includes x (toLowerCase query) = Ok v
            /\ truthy v = spec_contains query x.
Proof.
  destruct x; simpl; try discriminate; intros _; eauto.
Qed.

(** On a well-formed chain the filter callback does not throw and decides
    what the specification calls selected. *)
Lemma chain_matches_wf (query : string) (c : Value) :
  well_formed_chain c = true ->
  exists v, chain_matches (toLowerCase query) c = Ok v
            /\ truthy v = spec_selected query c.
Proof.
  intros W. destruct c; try discriminate W.
  cbv beta iota delta [well_formed_chain] in W.
  apply andb_prop in W. destruct W as [W Wg].
  apply andb_prop in W. destruct W as [W Wt].
  apply andb_prop in W. destruct W as [Wn Wi].
  unfold chain_matches, spec_selected, read.
  change (nullish (JObj fields)) with false. cbn [bindR].
  destruct (lower_includes_wf _ query Wn) as (vn & -> & En). cbn [bindR].
  rewrite <- En. destruct (truthy vn) eqn:Tn; [now exists vn |]. cbn [bindR].
  destruct (lower_includes_wf _ query Wi) as (vi & -> & Ei). cbn [bindR].
  rewrite <- Ei. destruct (truthy vi) eqn:Ti; [now exists vi |]. cbn [bindR].
  destruct (lower_includes_wf _ query Wt) as (vt & -> & Et). cbn [bindR].
  rewrite <- Et. destruct (truthy vt) eqn:Tt; [now exists vt |]. cbn [bindR].
  cbn [orb].
  destruct (prop (JObj fields) "gasToken") as [| | b | n | s | items | g] eqn:G;
    try discriminate Wg; cbn [nullish]; eauto.
  apply lower_includes_wf. exact Wg.
Qed.

Lemma filterR_wf (query : string) (chains : list Value) :
  forallb well_formed_chain chains = true ->
  filterR (chain_matches (toLowerCase query)) chains
  = Ok (filter (spec_selected query) chains).
Proof.
  induction chains as [| c rest IH]; simpl; [reflexivity |].
  intros W. apply andb_prop in W. destruct W as [Wc Wrest].
  destruct (chain_matches_wf query c Wc) as (v & -> & Ev).
  simpl. rewrite (IH Wrest). simpl. now rewrite Ev.
Qed.

Lemma process_chain_reshapes (c : Value) tr :
  nullish c = false ->
  printable (prop c "chainId") = true ->
  exists p tr', process_chain env c tr = (Ok p, tr') /\ spec_reshaped c p.
Proof.
  intros N P. unfold process_chain, bind, lift, read, now, ret. rewrite N.
  unfold printable in P.
  destruct (ToString (prop c "chainId")) as [printed | e]; [| discriminate P].
  eexists _, _. split; [reflexivity |].
  unfold spec_reshaped. simpl.
  repeat split; apply or_else_defaulted.
Qed.

Lemma mapM_process_chain (l : list Value) tr :
  forallb (fun c => negb (nullish c) && printable (prop c "chainId")) l = true ->
  exists found tr', mapM (process_chain env) l tr = (Ok found, tr')
                    /\ Forall2 spec_reshaped l found.
Proof.
  revert tr. induction l as [| c rest IH]; intros tr N; simpl.
  - exists [], tr. split; [reflexivity | constructor].
  - simpl in N. apply andb_prop in N. destruct N as [Nc Nrest].
    apply andb_prop in Nc. destruct Nc as [Nc Pc].
    apply negb_true_iff in Nc.
    destruct (process_chain_reshapes c tr Nc Pc) as (p & tr1 & Ep & Hp).
    destruct (IH tr1 Nrest) as (found & tr2 & Ef & Hf).
    exists (p :: found), tr2. split.
    + rewrite (bind_ok _ _ _ _ _ Ep). rewrite (bind_ok _ _ _ _ _ Ef). reflexivity.
    + now constructor.
Qed.

Lemma well_formed_not_nullish (c : Value) :
  well_formed_chain c = true -> negb (nullish c) = true.
Proof. destruct c; simpl; congruence. Qed.

Lemma well_formed_printable (c : Value) :
  well_formed_chain c = true -> printable (prop c "chainId") = true.
Proof.
  intros W. destruct c; try discriminate W.
  cbv beta iota delta [well_formed_chain] in W.
  apply andb_prop in W. destruct W as [W _].
  apply andb_prop in W. destruct W as [W _].
  apply andb_prop in W. destruct W as [_ Wi].
  destruct (optional_string_prints _ Wi) as (s & E).
  unfold printable. now rewrite E.
Qed.

Lemma selected_not_nullish (query : string) (chains : list Value) :
  forallb well_formed_chain chains = true ->
  forallb (fun c => negb (nullish c) && printable (prop c "chainId"))
          (filter (spec_selected query) chains) = true.
Proof.
  intros W. apply forallb_forall. intros c Hc.
  apply filter_In in Hc. destruct Hc as [Hc _].
  pose proof (proj1 (forallb_forall _ _) W c Hc) as Wc.
  rewrite (well_formed_not_nullish c Wc), (well_formed_printable c Wc).
  reflexivity.
Qed.

Ltac run :=
  cbv beta iota zeta delta [bind try_catch fetch now invoke lift ret throw bindR];
  cbn [truthy isArray nullish negb orb andb].

(** C2. For every query and every well-formed directory response, the chain
    lookup succeeds, and its data are the fetched chains whose name, chainId,
    type or gasToken.symbol contains the query case-insensitively, in order
    and each once, reshaped with the defaults "Unknown", false, the empty
    object and null for absent fields; when no chain is selected the data are
    empty, the count is 0 and the message is "No matching chains found". *)
Theorem getChainDetails_selects (chainQuery : string) (tr : Trace)
    (resp : Response) (body : Value) (chains : list Value) :
  fetch_api env (tr ++ [CallFetch chain_request])%list = Ok resp ->
  ok resp = true ->
  json resp = Ok body ->
  read body "data" = Ok (JArr chains) ->
  forallb well_formed_chain chains = true ->
  exists r tr' found,
    getChainDetails env chainQuery tr = (Ok r, tr')
    /\ success r = true
    /\ data r = Some found
    /\ count r = Some (length found)
    /\ Forall2 spec_reshaped (filter (spec_selected chainQuery) chains) found
    /\ (filter (spec_selected chainQuery) chains = [] ->
        found = [] /\ count r = Some 0
        /\ message r = "No matching chains found").
Proof.
  intros Hfetch Hok Hjson Hdata W.
  destruct (mapM_process_chain _ (tr ++ [CallFetch chain_request])%list
              (selected_not_nullish chainQuery chains W))
    as (found & tr2 & Hmap & Hfound).
  rewrite getChainDetails_unfold. run.
  rewrite Hfetch, Hok. run. rewrite Hjson, Hdata. run.
  rewrite (filterR_wf chainQuery chains W). run. rewrite Hmap.
  eexists _, _, found. split; [reflexivity |]. cbn [success data count message].
  repeat (split; [reflexivity |]). split; [exact Hfound |].
  intros E. rewrite E in Hfound. inversion Hfound. repeat split.
Qed.

(** C7. Whatever the query and whatever the directory endpoint does, the
    chain lookup returns: either the success object or the structured
    failure object. A rejected request, a non-2xx status, a body that fails
    to parse and a data field that is missing or not an array each give the
    failure object, with the message of the error. *)
Theorem getChainDetails_never_throws (chainQuery : string) (tr : Trace) :
  (exists r tr', getChainDetails env chainQuery tr = (Ok r, tr')
                 /\ (success_object r \/ structured_failure r))
  /\ (forall e,
        fetch_api env (tr ++ [CallFetch chain_request])%list = Throw e ->
        exists r tr', getChainDetails env chainQuery tr = (Ok r, tr')
                      /\ structured_failure r
                      /\ message r = message_or "An unknown error occurred" e)
  /\ (forall resp,
        fetch_api env (tr ++ [CallFetch chain_request])%list = Ok resp ->
        ok resp = false ->
        exists r tr', getChainDetails env chainQuery tr = (Ok r, tr')
                      /\ structured_failure r
                      /\ message r = "RouterNitro API error: "
                                       ++ Z_to_string (status resp) ++ " "
                                       ++ statusText resp)
  /\ (forall resp e,
        fetch_api env (tr ++ [CallFetch chain_request])%list = Ok resp ->
        ok resp = true ->
        json resp = Throw e ->
        exists r tr', getChainDetails env chainQuery tr = (Ok r, tr')
                      /\ structured_failure r
                      /\ message r = message_or "An unknown error occurred" e)
  /\ (forall resp body,
        fetch_api env (tr ++ [CallFetch chain_request])%list = Ok resp ->
        ok resp = true ->
        json resp = Ok body ->
        nullish body = false ->
        isArray (prop body "data") = false ->
        exists r tr', getChainDetails env chainQuery tr = (Ok r, tr')
                      /\ structured_failure r
                      /\ message r = "Invalid API response format").
Proof.
  split; [apply getChainDetails_shape |].
  unfold structured_failure.
  split; [| split; [| split]].
  - intros e Hfetch. rewrite getChainDetails_unfold. run. rewrite Hfetch.
    eexists _, _. split; [reflexivity |]. cbn. auto.
  - intros resp Hfetch Hok. rewrite getChainDetails_unfold. run.
    rewrite Hfetch, Hok. run.
    eexists _, _. split; [reflexivity |]. cbn. auto.
  - intros resp e Hfetch Hok Hjson. rewrite getChainDetails_unfold. run.
    rewrite Hfetch, Hok. run. rewrite Hjson.
    eexists _, _. split; [reflexivity |]. cbn. auto.
  - intros resp body Hfetch Hok Hjson Hnull Harr.
    rewrite getChainDetails_unfold. run.
    rewrite Hfetch, Hok. run. rewrite Hjson. unfold read. rewrite Hnull, Harr.
    run. rewrite orb_true_r.
    eexists _, _. split; [reflexivity |]. cbn. auto.
Qed.

(** ** Token lookup *)

Lemma getTokenDetails_unfold chainId printed tokenSymbol tr :
  ToString chainId = Ok printed ->
  getTokenDetails env chainId tokenSymbol tr =
  try_catch
    (response <- fetch env (token_request printed) ;;
     if negb (ok response) then
       throw (JsError ("Token API error: " ++ Z_to_string (status response)
                         ++ " " ++ statusText response))
     else
     data <- lift (json response) ;;
     listed <- lift (read data "data") ;;
     token <-
       lift match or_else listed (JArr []) with
            | JArr items => findR (symbol_equals tokenSymbol) items
            | _ => Throw (JsError (fault_message (NotCallable "find")))
            end ;;
     if truthy token then
       parsed <- lift (TokenDetailsSchema_parse token) ;;
       ret (Some parsed)
     else ret None)
    (fun error => ret None) tr.
Proof.
  intros P. unfold getTokenDetails, try_catch, bind, lift. rewrite P.
  reflexivity.
Qed.

(** A [chainId] that does not print ends the lookup before any request. *)
Lemma getTokenDetails_unprintable chainId tokenSymbol tr e :
  ToString chainId = Throw e ->
  getTokenDetails env chainId tokenSymbol tr = (Ok None, tr).
Proof.
  intros P. unfold getTokenDetails, try_catch, bind, lift, ret. rewrite P.
  reflexivity.
Qed.

(** With a [chainId] that prints, the token lookup issues exactly one
    request, whatever happens next. *)
Lemma getTokenDetails_trace chainId printed tokenSymbol tr r tr' :
  ToString chainId = Ok printed ->
  getTokenDetails env chainId tokenSymbol tr = (r, tr') ->
  tr' = (tr ++ [CallFetch (token_request printed)])%list.
Proof.
  intros P. rewrite (getTokenDetails_unfold _ _ _ _ P). run. intros H.
  case_split_in H; inversion H; reflexivity.
Qed.

Lemma getTokenDetails_returns chainId printed tokenSymbol tr :
  ToString chainId = Ok printed ->
  exists found,
    getTokenDetails env chainId tokenSymbol tr
    = (Ok found, (tr ++ [CallFetch (token_request printed)])%list).
Proof.
  intros P.
  destruct (getTokenDetails env chainId tokenSymbol tr) as [r tr'] eqn:E.
  rewrite (getTokenDetails_trace _ _ _ _ _ _ P E).
  rewrite (getTokenDetails_unfold _ _ _ _ P) in E. run_in E.
  case_split_in E; inversion E; eauto.
Qed.

Lemma TokenDetailsSchema_parse_spec (t : Value) (r : TokenDetails) :
  TokenDetailsSchema_parse t = Ok r <-> spec_token_record t r.
Proof.
  unfold TokenDetailsSchema_parse, spec_token_record, z_object, z_string, z_number.
  split.
  - intros H. destruct t; try discriminate H. cbn [bindR] in H.
    exists fields. split; [reflexivity |].
    field_in H. field_in H. field_in H.
    destruct (number_refused n) eqn:?; [discriminate H |]. cbn [bindR] in H.
    field_in H. inversion H; subst; cbn. auto.
  - intros (fields & -> & Hs & Ha & Hd & Hn & Hc). cbn [bindR].
    rewrite Hs. cbn [bindR]. rewrite Ha. cbn [bindR]. rewrite Hd, Hn.
    cbn [bindR]. rewrite Hc. cbn [bindR]. now destruct r.
Qed.

Lemma symbol_equals_spec (tokenSymbol : string) (t : Value) (b : bool) :
  symbol_equals tokenSymbol t = Ok b ->
  nullish t = false
  /\ exists s, prop t "symbol" = JStr s
               /\ b = String.eqb (toLowerCase s) (toLowerCase tokenSymbol).
Proof.
  unfold symbol_equals, read. destruct (nullish t); [discriminate |].
  cbn [bindR]. destruct (prop t "symbol"); try discriminate.
  intros H. inversion H. eauto.
Qed.

Lemma symbol_equals_true (tokenSymbol : string) (t : Value) :
  symbol_equals tokenSymbol t = Ok true -> spec_has_symbol tokenSymbol t.
Proof.
  intros H. apply symbol_equals_spec in H. destruct H as (_ & s & Hs & Hb).
  exists s. split; [exact Hs |]. symmetry in Hb. now apply String.eqb_eq in Hb.
Qed.

Lemma symbol_equals_false (tokenSymbol : string) (t : Value) :
  symbol_equals tokenSymbol t = Ok false -> ~ spec_has_symbol tokenSymbol t.
Proof.
  intros H (s' & Hs' & Hm). apply symbol_equals_spec in H.
  destruct H as (_ & s & Hs & Hb). rewrite Hs in Hs'. inversion Hs'; subst.
  symmetry in Hb. apply String.eqb_neq in Hb. contradiction.
Qed.

Lemma has_symbol_equals (tokenSymbol : string) (t : Value) :
  spec_has_symbol tokenSymbol t -> symbol_equals tokenSymbol t = Ok true.
Proof.
  intros (s & Hs & Hm). unfold symbol_equals, read.
  destruct t; try discriminate Hs. cbn [nullish bindR]. rewrite Hs.
  now rewrite Hm, String.eqb_refl.
Qed.

(** What [find] returns: undefined when the callback rejected every element,
    the first accepted element otherwise. *)
Lemma findR_first (tokenSymbol : string) (tokens : list Value) (t : Value) :
  findR (symbol_equals tokenSymbol) tokens = Ok t ->
  (t = JUndefined /\ Forall (fun x => ~ spec_has_symbol tokenSymbol x) tokens)
  \/ spec_first_match tokenSymbol tokens t.
Proof.
  induction tokens as [| x rest IH]; cbn [findR bindR].
  - intros H. inversion H. left. split; [reflexivity | constructor].
  - destruct (symbol_equals tokenSymbol x) as [[|] | e] eqn:E; cbn [bindR];
      [| | discriminate].
    + intros H. inversion H; subst. right. exists [], rest.
      split; [reflexivity |]. split; [constructor |].
      now apply symbol_equals_true.
    + intros H. apply symbol_equals_false in E.
      destruct (IH H) as [[-> Hall] | (before & after & -> & Hb & Ht)].
      * left. split; [reflexivity | now constructor].
      * right. exists (x :: before), after. split; [reflexivity |].
        split; [now constructor | exact Ht].
Qed.

(** Whatever precedes it, once [find] reaches the first symbol-matching
    token it either returns that token or has thrown on the way. *)
Lemma findR_reaches (tokenSymbol : string) (tokens : list Value) (t : Value) :
  spec_first_match tokenSymbol tokens t ->
  findR (symbol_equals tokenSymbol) tokens = Ok t
  \/ exists e, findR (symbol_equals tokenSymbol) tokens = Throw e.
Proof.
  intros (before & after & -> & Hb & Ht).
  induction before as [| x rest IH]; cbn [app findR bindR].
  - rewrite (has_symbol_equals _ _ Ht). now left.
  - inversion Hb as [| ? ? Hx Hrest]; subst.
    destruct (symbol_equals tokenSymbol x) as [[|] | e] eqn:E; cbn [bindR].
    + apply symbol_equals_true in E. contradiction.
    + exact (IH Hrest).
    + right. now exists e.
Qed.

Lemma findR_records (tokenSymbol : string) (tokens : list Value)
    (records : list TokenDetails) :
  Forall2 spec_token_record tokens records ->
  match find (spec_symbol_matches tokenSymbol) records with
  | Some r =>
      exists t, findR (symbol_equals tokenSymbol) tokens = Ok t
                /\ truthy t = true /\ TokenDetailsSchema_parse t = Ok r
  | None => findR (symbol_equals tokenSymbol) tokens = Ok JUndefined
  end.
Proof.
  induction 1 as [| t r tokens records Htr Hrest IH]; cbn [find findR];
    [reflexivity |].
  assert (E : symbol_equals tokenSymbol t = Ok (spec_symbol_matches tokenSymbol r)).
  { destruct Htr as (fields & -> & Hs & _). unfold symbol_equals, read, prop.
    cbn [nullish bindR]. now rewrite Hs. }
  rewrite E. cbn [bindR].
  destruct (spec_symbol_matches tokenSymbol r).
  - exists t. split; [reflexivity |]. split.
    + destruct Htr as (fields & -> & _). reflexivity.
    + now apply TokenDetailsSchema_parse_spec.
  - exact IH.
Qed.

(** C4. The token lookup scans the fetched list in order for the first
    token whose symbol equals the requested one up to case and returns it,
    or null when there is none; a rejected request, a non-2xx status and a
    body that fails to parse give null as well. The request goes to the
    address that ends in the chainId as printed; a chainId that does not
    print gives null without a request. *)
Theorem getTokenDetails_scans (chainId : Value) (tokenSymbol : string)
    (tr : Trace) :
  (forall e,
     ToString chainId = Throw e ->
     getTokenDetails env chainId tokenSymbol tr = (Ok None, tr))
  /\ forall printed,
       ToString chainId = Ok printed ->
  let asked := (tr ++ [CallFetch (token_request printed)])%list in
  (forall e,
     fetch_api env asked = Throw e ->
     getTokenDetails env chainId tokenSymbol tr = (Ok None, asked))
  /\ (forall resp,
        fetch_api env asked = Ok resp ->
        ok resp = false ->
        getTokenDetails env chainId tokenSymbol tr = (Ok None, asked))
  /\ (forall resp e,
        fetch_api env asked = Ok resp ->
        ok resp = true ->
        json resp = Throw e ->
        getTokenDetails env chainId tokenSymbol tr = (Ok None, asked))
  /\ (forall resp body tokens records,
        fetch_api env asked = Ok resp ->
        ok resp = true ->
        json resp = Ok body ->
        read body "data" = Ok (JArr tokens) ->
        Forall2 spec_token_record tokens records ->
        getTokenDetails env chainId tokenSymbol tr
        = (Ok (find (spec_symbol_matches tokenSymbol) records), asked)).
Proof.
  split; [intros e P; exact (getTokenDetails_unprintable _ _ _ _ P) |].
  intros printed P asked. subst asked.
  rewrite (getTokenDetails_unfold _ _ tokenSymbol tr P).
  split; [| split; [| split]].
  - intros e Hfetch. run. now rewrite Hfetch.
  - intros resp Hfetch Hok. run.
    rewrite Hfetch, Hok. reflexivity.
  - intros resp e Hfetch Hok Hjson. run.
    rewrite Hfetch, Hok. run. now rewrite Hjson.
  - intros resp body tokens records Hfetch Hok Hjson Hdata Hrec.
    run.
    rewrite Hfetch, Hok. run. rewrite Hjson, Hdata.
    unfold or_else. run.
    pose proof (findR_records tokenSymbol tokens records Hrec) as Hfind.
    destruct (find (spec_symbol_matches tokenSymbol) records) as [r |].
    + destruct Hfind as (t & -> & -> & ->). reflexivity.
    + rewrite Hfind. reflexivity.
Qed.

(** C10. A record returned by the token lookup is the first symbol-matching
    token of the list fetched from the address of the printed chainId and
    satisfies the TokenRecord schema; when the first symbol-matching token
    does not satisfy the schema, the lookup returns null. *)
Theorem getTokenDetails_schema (chainId : Value) (tokenSymbol : string)
    (tr : Trace) :
  (forall r tr',
     getTokenDetails env chainId tokenSymbol tr = (Ok (Some r), tr') ->
     exists printed resp body tokens t,
       ToString chainId = Ok printed
       /\ fetch_api env (tr ++ [CallFetch (token_request printed)])%list = Ok resp
       /\ json resp = Ok body
       /\ or_else (prop body "data") (JArr []) = JArr tokens
       /\ spec_first_match tokenSymbol tokens t
       /\ spec_token_record t r)
  /\ (forall printed resp body tokens t,
        ToString chainId = Ok printed ->
        let asked := (tr ++ [CallFetch (token_request printed)])%list in
        fetch_api env asked = Ok resp ->
        ok resp = true ->
        json resp = Ok body ->
        read body "data" = Ok (JArr tokens) ->
        spec_first_match tokenSymbol tokens t ->
        (forall r, ~ spec_token_record t r) ->
        getTokenDetails env chainId tokenSymbol tr = (Ok None, asked)).
Proof.
  split.
  - intros r tr' H.
    destruct (ToString chainId) as [printed | e] eqn:Hp;
      [| rewrite (getTokenDetails_unprintable _ _ _ _ Hp) in H; discriminate H].
    rewrite (getTokenDetails_unfold _ _ _ _ Hp) in H. run_in H.
    destruct (fetch_api env _) as [resp | e] eqn:Hfetch; [| discriminate H].
    destruct (negb (ok resp)); [discriminate H |].
    destruct (json resp) as [body | e] eqn:Hjson; [| discriminate H].
    unfold read in H. destruct (nullish body); [discriminate H |].
    cbv beta iota in H.
    destruct (or_else (prop body "data") (JArr [])) as [| | | | | tokens |] eqn:T;
      try discriminate H.
    destruct (findR (symbol_equals tokenSymbol) tokens) as [t | e] eqn:F;
      [| discriminate H].
    destruct (truthy t) eqn:Tt; [| discriminate H].
    destruct (TokenDetailsSchema_parse t) as [r' | e] eqn:P; [| discriminate H].
    inversion H; subst.
    exists printed, resp, body, tokens, t.
    repeat (split; [first [reflexivity | assumption] |]).
    split; [| now apply TokenDetailsSchema_parse_spec].
    destruct (findR_first _ _ _ F) as [[-> _] | Hfirst];
      [discriminate Tt | exact Hfirst].
  - intros printed resp body tokens t Hp asked Hfetch Hok Hjson Hdata Hfirst Hbad.
    subst asked. rewrite (getTokenDetails_unfold _ _ _ _ Hp). run.
    rewrite Hfetch, Hok. run. rewrite Hjson, Hdata.
    unfold or_else. run.
    destruct (findR_reaches _ _ _ Hfirst) as [-> | (e & ->)]; [| reflexivity].
    destruct (truthy t); [| reflexivity].
    destruct (TokenDetailsSchema_parse t) as [r |] eqn:P; [| reflexivity].
    apply TokenDetailsSchema_parse_spec in P. now destruct (Hbad r).
Qed.

(** ** Quote lookup *)

Lemma QuoteResponseSchema_parse_shape (v : Value) (quote : QuoteResponse) :
  QuoteResponseSchema_parse v = Ok quote -> spec_quote_shape v = true.
Proof.
  unfold QuoteResponseSchema_parse, spec_quote_shape, z_object, z_number,
    z_array_any, z_string.
  destruct v; try discriminate. cbn [bindR]. intros H.
  field_in H. destruct (number_refused n); [discriminate H |].
  cbn [bindR] in H. field_in H. field_in H. field_in H. reflexivity.
Qed.

(** C5. The quote lookup always returns; it returns null when the request
    is rejected, when the status is not 2xx, when the body fails to parse
    and when the body does not have the shape [{estimatedGas: number,
    route: array, expectedOutput: string, priceImpact: string}], as a body
    without priceImpact does not. *)
Theorem getTransactionDetails_null_on_failure (params : QuoteParams)
    (tr : Trace) :
  let asked := (tr ++ [CallFetch (quote_request params)])%list in
  (exists found, getTransactionDetails env params tr = (Ok found, asked))
  /\ (forall e,
        fetch_api env asked = Throw e ->
        getTransactionDetails env params tr = (Ok None, asked))
  /\ (forall resp,
        fetch_api env asked = Ok resp ->
        (status resp < 200 \/ 300 <= status resp)%Z ->
        getTransactionDetails env params tr = (Ok None, asked))
  /\ (forall resp e,
        fetch_api env asked = Ok resp ->
        json resp = Throw e ->
        getTransactionDetails env params tr = (Ok None, asked))
  /\ (forall resp body,
        fetch_api env asked = Ok resp ->
        json resp = Ok body ->
        spec_quote_shape body = false ->
        getTransactionDetails env params tr = (Ok None, asked))
  /\ (forall resp fields,
        fetch_api env asked = Ok resp ->
        json resp = Ok (JObj fields) ->
        lookup "priceImpact" fields = None ->
        getTransactionDetails env params tr = (Ok None, asked)).
Proof.
  intros asked. subst asked.
  assert (Hshape : forall resp body,
             fetch_api env (tr ++ [CallFetch (quote_request params)])%list = Ok resp ->
             json resp = Ok body ->
             spec_quote_shape body = false ->
             getTransactionDetails env params tr
             = (Ok None, (tr ++ [CallFetch (quote_request params)])%list)).
  { intros resp body Hfetch Hjson Hbad.
    unfold getTransactionDetails. run.
    change (PostQuote ROUTER_NITRO_QUOTE_API params) with (quote_request params).
    rewrite Hfetch. destruct (ok resp); [| reflexivity]. run. rewrite Hjson.
    destruct (QuoteResponseSchema_parse body) as [quote |] eqn:P; [| reflexivity].
    apply QuoteResponseSchema_parse_shape in P. congruence. }
  split; [| split; [| split; [| split; [| split]]]].
  - unfold getTransactionDetails. run.
    change (PostQuote ROUTER_NITRO_QUOTE_API params) with (quote_request params).
    destruct (fetch_api env _) as [resp | e]; [| eauto].
    destruct (ok resp); run; [| eauto].
    destruct (json resp) as [body | e]; [| eauto].
    destruct (QuoteResponseSchema_parse body); eauto.
  - intros e Hfetch. unfold getTransactionDetails. run.
    change (PostQuote ROUTER_NITRO_QUOTE_API params) with (quote_request params).
    now rewrite Hfetch.
  - intros resp Hfetch Hstatus. unfold getTransactionDetails. run.
    change (PostQuote ROUTER_NITRO_QUOTE_API params) with (quote_request params).
    rewrite Hfetch.
    assert (Hok : ok resp = false).
    { unfold ok. destruct Hstatus as [Hlow | Hhigh].
      - apply andb_false_iff. left. now apply Z.leb_gt.
      - apply andb_false_iff. right. now apply Z.ltb_ge. }
    now rewrite Hok.
  - intros resp e Hfetch Hjson. unfold getTransactionDetails. run.
    change (PostQuote ROUTER_NITRO_QUOTE_API params) with (quote_request params).
    rewrite Hfetch. destruct (ok resp); [| reflexivity]. run. now rewrite Hjson.
  - exact Hshape.
  - intros resp fields Hfetch Hjson Hmissing.
    apply (Hshape resp (JObj fields) Hfetch Hjson).
    unfold spec_quote_shape. rewrite Hmissing.
    destruct (lookup "estimatedGas" fields) as [[] |];
      destruct (lookup "route" fields) as [[] |];
      destruct (lookup "expectedOutput" fields) as [[] |]; reflexivity.
Qed.

(** ** Parameter extraction *)

Lemma append_assoc_cons (a : string) (c : ascii) (b : string) :
  (a ++ String c EmptyString) ++ b = a ++ String c b.
Proof. induction a as [| x a IH]; cbn; [reflexivity | now rewrite IH]. Qed.

Lemma from_first_open_finds (pre x : string) :
  exists y, from_first_open (pre ++ String "{" x) = Some (y ++ x).
Proof.
  induction pre as [| c pre IH]; cbn.
  - now exists EmptyString.
  - destruct (Ascii.eqb c "{").
    + exists (pre ++ String "{" EmptyString). now rewrite append_assoc_cons.
    + exact IH.
Qed.

Lemma upto_last_close_finds (a b : string) :
  upto_last_close (a ++ String "}" b) <> None.
Proof.
  induction a as [| c a IH]; cbn.
  - destruct (upto_last_close b); discriminate.
  - destruct (upto_last_close (a ++ String "}" b)); [discriminate | contradiction].
Qed.

Lemma from_first_open_split (s rest : string) :
  from_first_open s = Some rest ->
  exists pre, s = pre ++ String "{" rest /\ has_char "{" pre = false.
Proof.
  induction s as [| c s IH]; cbn; [discriminate |].
  destruct (Ascii.eqb c "{") eqn:E.
  - intros H. inversion H; subst. apply Ascii.eqb_eq in E. subst.
    now exists EmptyString.
  - intros H. destruct (IH H) as (pre & -> & Hpre). exists (String c pre).
    split; [reflexivity |]. cbn. now rewrite E.
Qed.

Lemma upto_last_close_none (s : string) :
  upto_last_close s = None -> has_char "}" s = false.
Proof.
  induction s as [| c s IH]; cbn; [reflexivity |].
  destruct (upto_last_close s); [discriminate |].
  destruct (Ascii.eqb c "}"); [discriminate |]. intros _. now apply IH.
Qed.

Lemma upto_last_close_split (s body : string) :
  upto_last_close s = Some body ->
  exists mid post, s = mid ++ String "}" post /\ body = mid ++ "}"
                   /\ has_char "}" post = false.
Proof.
  revert body. induction s as [| c s IH]; cbn; [discriminate |].
  intros body. destruct (upto_last_close s) as [p |] eqn:U.
  - intros H. inversion H; subst.
    destruct (IH p eq_refl) as (mid & post & -> & -> & Hpost).
    now exists (String c mid), post.
  - destruct (Ascii.eqb c "}") eqn:E; [| discriminate].
    intros H. inversion H; subst. apply Ascii.eqb_eq in E. subst.
    exists EmptyString, s. repeat split. now apply upto_last_close_none.
Qed.

(** The pattern matches exactly the texts with a [{...}] substring, and its
    match starts and ends with a brace. *)
Lemma match_json_object_none (text : string) :
  match_json_object text = None <-> ~ spec_has_braces text.
Proof.
  unfold match_json_object, spec_has_braces. split.
  - intros H (pre & mid & post & ->).
    destruct (from_first_open_finds pre (mid ++ "}" ++ post)) as (y & E).
    cbn in E. cbn in H. rewrite E in H.
    rewrite <- append_assoc_cons in H.
    assert (Y : y ++ (mid ++ String "}" EmptyString) ++ post
                = (y ++ mid) ++ String "}" post).
    { rewrite append_assoc_cons. clear.
      induction y as [| c y IH]; cbn; [reflexivity | now rewrite IH]. }
    rewrite Y in H.
    pose proof (upto_last_close_finds (y ++ mid) post) as N.
    destruct (upto_last_close ((y ++ mid) ++ String "}" post));
      [discriminate | contradiction].
  - intros N.
    destruct (from_first_open text) as [rest |] eqn:E; [| reflexivity].
    destruct (upto_last_close rest) as [body |] eqn:B; [| reflexivity].
    exfalso. apply N.
    destruct (from_first_open_split _ _ E) as (pre & -> & _).
    destruct (upto_last_close_split _ _ B) as (mid & post & -> & _).
    now exists pre, mid, post.
Qed.

(** The match runs from the first opening brace of the text to its last
    closing brace. *)
Lemma match_json_object_some (text m : string) :
  match_json_object text = Some m ->
  exists pre mid post,
    text = pre ++ "{" ++ mid ++ "}" ++ post
    /\ m = "{" ++ mid ++ "}"
    /\ has_char "{" pre = false
    /\ has_char "}" post = false.
Proof.
  unfold match_json_object.
  destruct (from_first_open text) as [rest |] eqn:E; [| discriminate].
  destruct (upto_last_close rest) as [body |] eqn:B; [| discriminate].
  intros H. inversion H; subst.
  destruct (from_first_open_split _ _ E) as (pre & -> & Hpre).
  destruct (upto_last_close_split _ _ B) as (mid & post & -> & -> & Hpost).
  now exists pre, mid, post.
Qed.

Lemma from_first_open_exact (pre x : string) :
  has_char "{" pre = false ->
  from_first_open (pre ++ String "{" x) = Some x.
Proof.
  induction pre as [| c pre IH]; cbn; [reflexivity |].
  destruct (Ascii.eqb c "{"); [discriminate |]. exact IH.
Qed.

Lemma upto_last_close_clean (post : string) :
  has_char "}" post = false -> upto_last_close post = None.
Proof.
  induction post as [| c post IH]; cbn; [reflexivity |].
  destruct (Ascii.eqb c "}"); [discriminate |]. intros H.
  now rewrite (IH H).
Qed.

Lemma upto_last_close_exact (mid post : string) :
  has_char "}" post = false ->
  upto_last_close (mid ++ String "}" post) = Some (mid ++ "}").
Proof.
  intros Hpost. induction mid as [| c mid IH]; cbn.
  - now rewrite (upto_last_close_clean post Hpost).
  - now rewrite IH.
Qed.

(** What the pattern matches is what the specification calls the extracted
    text. *)
Lemma match_json_object_extracted (text m : string) :
  match_json_object text = Some m <-> spec_extracted text m.
Proof.
  split.
  - intros H.
    destruct (match_json_object_some _ _ H) as (pre & mid & post & E & Em & A & B).
    now exists pre, mid, post.
  - intros (pre & mid & post & -> & Hpre & Hpost & ->).
    unfold match_json_object. cbn [append].
    rewrite (from_first_open_exact pre _ Hpre).
    now rewrite (upto_last_close_exact mid post Hpost).
Qed.

Lemma TransactionDetailsSchema_parse_spec (v : Value) :
  TransactionDetailsSchema_parse v
  = match spec_five_strings v with
    | Some d => Ok d
    | None => Throw (JsError (fault_message (ZodIssues "TransactionDetailsSchema")))
    end.
Proof.
  unfold TransactionDetailsSchema_parse, spec_five_strings, spec_string_field,
    z_object, z_string, prop.
  destruct v; try reflexivity. cbn [bindR].
  destruct (lookup "fromChain" fields) as [[] |]; try reflexivity. cbn [bindR].
  destruct (lookup "toChain" fields) as [[] |]; try reflexivity. cbn [bindR].
  destruct (lookup "amount" fields) as [[] |]; try reflexivity. cbn [bindR].
  destruct (lookup "fromToken" fields) as [[] |]; try reflexivity. cbn [bindR].
  destruct (lookup "toToken" fields) as [[] |]; reflexivity.
Qed.

Lemma extractTransactionDetails_by_match (query : string) (tr : Trace)
    (text : string) :
  let asked := (tr ++ [CallLLM system_prompt (user_prompt query)])%list in
  llm_invoke env asked = Ok (JStr text) ->
  ((exists e, extractTransactionDetails env query tr = (Throw e, asked))
   <-> (~ spec_has_braces text
        \/ (exists m, match_json_object text = Some m /\ JSON_parse m = None)
        \/ (exists m v, match_json_object text = Some m
                        /\ JSON_parse m = Some v
                        /\ spec_five_strings v = None)))
  /\ (forall m v details,
        match_json_object text = Some m ->
        JSON_parse m = Some v ->
        spec_five_strings v = Some details ->
        extractTransactionDetails env query tr = (Ok details, asked)).
Proof.
  intros asked Hllm. subst asked.
  unfold extractTransactionDetails. run. rewrite Hllm.
  destruct (match_json_object text) as [m |] eqn:Hm.
  - destruct (JSON_parse m) as [v |] eqn:Hv.
    + rewrite TransactionDetailsSchema_parse_spec.
      destruct (spec_five_strings v) as [d |] eqn:Hd; cbv beta iota.
      * split.
        -- split.
           ++ intros (e & H). discriminate H.
           ++ intros [N | [(m' & Hm' & Hv') | (m' & v' & Hm' & Hv' & Hd')]].
              ** apply match_json_object_none in N. congruence.
              ** congruence.
              ** congruence.
        -- intros m' v' d' Hm' Hv' Hd'. inversion Hm'; subst m'.
           rewrite Hv in Hv'. inversion Hv'; subst v'.
           rewrite Hd in Hd'. now inversion Hd'.
      * split.
        -- split; [| eauto]. intros _. right. right. now exists m, v.
        -- intros m' v' d' Hm' Hv' Hd'. congruence.
    + split.
      * split; [| eauto]. intros _. right. left. now exists m.
      * intros m' v' d' Hm' Hv' Hd'. congruence.
  - split.
    + split; [| eauto]. intros _. left. now apply match_json_object_none.
    + intros m' v' d' Hm'. discriminate Hm'.
Qed.

(** C6. Given a reply of the model that is a string, parameter extraction
    throws exactly when the reply has no [{...}] substring, or the
    extracted text (from the first opening brace of the reply to its last
    closing brace) is not JSON, or the value parsed from it lacks one of
    the five fields as a string; otherwise it returns the five strings as
    they are in the value parsed from the extracted text. *)
Theorem extractTransactionDetails_fails_exactly (query : string) (tr : Trace)
    (text : string) :
  let asked := (tr ++ [CallLLM system_prompt (user_prompt query)])%list in
  llm_invoke env asked = Ok (JStr text) ->
  ((exists e, extractTransactionDetails env query tr = (Throw e, asked))
   <-> (~ spec_has_braces text
        \/ (exists m, spec_extracted text m /\ JSON_parse m = None)
        \/ (exists m v, spec_extracted text m
                        /\ JSON_parse m = Some v
                        /\ spec_five_strings v = None)))
  /\ (forall m v details,
        spec_extracted text m ->
        JSON_parse m = Some v ->
        spec_five_strings v = Some details ->
        extractTransactionDetails env query tr = (Ok details, asked)).
Proof.
  intros asked Hllm.
  destruct (extractTransactionDetails_by_match query tr text Hllm) as [Hiff Hok].
  fold asked in Hiff, Hok. split.
  - rewrite Hiff. split.
    + intros [N | [(m & Hm & Hv) | (m & v & Hm & Hv & Hd)]].
      * now left.
      * right. left. exists m. split; [| exact Hv].
        now apply match_json_object_extracted.
      * right. right. exists m, v. split; [| now split].
        now apply match_json_object_extracted.
    + intros [N | [(m & Hm & Hv) | (m & v & Hm & Hv & Hd)]].
      * now left.
      * right. left. exists m. split; [| exact Hv].
        now apply match_json_object_extracted.
      * right. right. exists m, v. split; [| now split].
        now apply match_json_object_extracted.
  - intros m v details Hm. apply Hok. now apply match_json_object_extracted.
Qed.

(** ** The pipeline *)

(** The only error a template literal raises. *)
Lemma ToString_throws :
  forall (v : Value) (e : Exn),
    ToString v = Throw e -> e = JsError (fault_message NotPrimitive).
Proof.
  fix IH 1. intros [| | [|] | n | s | items | fields] e; cbn [ToString];
    try discriminate.
  - induction items as [| x rest IHrest]; [discriminate |].
    destruct rest as [| y rest].
    + destruct (nullish x); [discriminate | apply IH].
    + destruct (nullish x).
      * cbn [bindR]. intros H. apply IHrest.
        match type of H with
        | bindR ?j _ = _ => destruct j as [others | e'] eqn:J
        end; [discriminate H | now inversion H].
      * destruct (ToString x) as [first | e'] eqn:X; cbn [bindR].
        -- intros H. apply IHrest.
           match type of H with
           | bindR ?j _ = _ => destruct j as [others | e''] eqn:J
           end; [discriminate H | now inversion H].
        -- intros H. inversion H; subst. exact (IH x e X).
  - destruct (lookup "toString" fields); [| discriminate].
    intros H. now inversion H.
Qed.

(** The chain ids the lookup returns print: each went through the template
    literal of its record's url, or is the default. *)
Lemma process_chain_printable (c : Value) tr p tr' :
  process_chain env c tr = (Ok p, tr') ->
  printable (chainId (chain p)) = true.
Proof.
  unfold process_chain, bind, lift, now, ret.
  destruct (read c "name"); [| discriminate].
  destruct (ToString (prop c "chainId")) as [printed | e] eqn:P;
    [| discriminate].
  intros H. inversion H; subst. cbn [chain chainId].
  unfold or_else, printable. destruct (truthy (prop c "chainId"));
    [now rewrite P | reflexivity].
Qed.

Lemma mapM_process_chain_printable (l : list Value) tr found tr' :
  mapM (process_chain env) l tr = (Ok found, tr') ->
  Forall (fun p => printable (chainId (chain p)) = true) found.
Proof.
  revert tr found. induction l as [| c rest IH]; intros tr found; cbn [mapM].
  - unfold ret. intros H. inversion H. constructor.
  - unfold bind at 1.
    destruct (process_chain env c tr) as [[p | e] tr1] eqn:Ep; [| discriminate].
    unfold bind at 1.
    destruct (mapM (process_chain env) rest tr1) as [[ps | e] tr2] eqn:Er;
      [| discriminate].
    unfold ret. intros H. inversion H; subst. constructor.
    + exact (process_chain_printable _ _ _ _ Ep).
    + exact (IH _ _ Er).
Qed.

Lemma getChainDetails_printable chainQuery tr r tr' found :
  getChainDetails env chainQuery tr = (Ok r, tr') ->
  data r = Some found ->
  Forall (fun p => printable (chainId (chain p)) = true) found.
Proof.
  rewrite getChainDetails_unfold. unfold try_catch.
  match goal with
  | |- context [match ?b tr with _ => _ end] =>
      destruct (b tr) as [[r0 | e] tr1] eqn:E
  end.
  - intros H D. inversion H; subst r0 tr1. run_in E.
    case_split_in E; try discriminate E;
      inversion E; subst; cbn [data] in D; inversion D; subst;
      match goal with
      | Hm : mapM _ _ _ = (Ok _, _) |- _ =>
          exact (mapM_process_chain_printable _ _ _ _ Hm)
      end.
  - unfold bind, now, ret. intros H D. inversion H; subst. discriminate D.
Qed.

Lemma first_match_prints chainQuery tr r tr' first rest :
  getChainDetails env chainQuery tr = (Ok r, tr') ->
  data r = Some (first :: rest) ->
  exists printed, ToString (chainId (chain first)) = Ok printed.
Proof.
  intros H D. pose proof (getChainDetails_printable _ _ _ _ _ H D) as F.
  inversion F as [| ? ? P _]; subst. unfold printable in P.
  destruct (ToString (chainId (chain first))) as [printed |];
    [now exists printed | discriminate P].
Qed.

(** Extraction and the two chain lookups add no call of a kind that leaves
    out the model, the directory and the clock. *)
Lemma chain_stage_adds (kind : Call -> bool) query tr details tr1
    fromResult tr2 toResult tr3 :
  (forall system user, kind (CallLLM system user) = false) ->
  (forall url, kind (CallFetch (GetChainDirectory url)) = false) ->
  kind CallNow = false ->
  extractTransactionDetails env query tr = (Ok details, tr1) ->
  getChainDetails env (fromChain details) tr1 = (Ok fromResult, tr2) ->
  getChainDetails env (toChain details) tr2 = (Ok toResult, tr3) ->
  exists added, tr3 = (tr ++ added)%list /\ count_calls kind added = 0.
Proof.
  intros Kl Kc Kn He Hf Ht.
  destruct (extractTransactionDetails_adds kind query Kl _ _ _ He) as (a1 & -> & C1).
  destruct (getChainDetails_adds kind _ Kc Kn _ _ _ Hf) as (a2 & -> & C2).
  destruct (getChainDetails_adds kind _ Kc Kn _ _ _ Ht) as (a3 & -> & C3).
  exists (a1 ++ a2 ++ a3)%list. split.
  - now rewrite <- !app_assoc.
  - unfold none_of in *. rewrite !count_calls_app. lia.
Qed.

Lemma chain_stage_quiet query tr details tr1 fromResult tr2 toResult tr3 :
  extractTransactionDetails env query tr = (Ok details, tr1) ->
  getChainDetails env (fromChain details) tr1 = (Ok fromResult, tr2) ->
  getChainDetails env (toChain details) tr2 = (Ok toResult, tr3) ->
  exists added,
    tr3 = (tr ++ added)%list
    /\ count_calls is_token_call added = 0
    /\ count_calls is_quote_call added = 0.
Proof.
  intros He Hf Ht.
  destruct (chain_stage_adds is_token_call _ _ _ _ _ _ _ _
              (fun _ _ => eq_refl) (fun _ => eq_refl) eq_refl He Hf Ht)
    as (a & E & Ca).
  destruct (chain_stage_adds is_quote_call _ _ _ _ _ _ _ _
              (fun _ _ => eq_refl) (fun _ => eq_refl) eq_refl He Hf Ht)
    as (b & E' & Cb).
  exists a. split; [exact E |]. split; [exact Ca |].
  rewrite E in E'. apply app_inv_head in E'. now subst b.
Qed.

(** C1. When extraction has succeeded and one of the two chain lookups
    returns success:false, the tool returns the fixed message "Failed to
    fetch chain details. ..." with a payload holding both chain results, and
    the run has issued no token request and no quote request. *)
Theorem nitro_chain_failure (query : string) (tr : Trace)
    (details : TransactionDetails) (tr1 : Trace)
    (fromChainResult : ChainLookupResult) (tr2 : Trace)
    (toChainResult : ChainLookupResult) (tr3 : Trace) :
  extractTransactionDetails env query tr = (Ok details, tr1) ->
  getChainDetails env (fromChain details) tr1 = (Ok fromChainResult, tr2) ->
  getChainDetails env (toChain details) tr2 = (Ok toChainResult, tr3) ->
  success fromChainResult = false \/ success toChainResult = false ->
  nitro env query tr
  = (Ok ("Failed to fetch chain details. Please check the chain names and try again.",
         ChainFailure "Invalid chain information" fromChainResult toChainResult),
     tr3)
  /\ exists added,
       tr3 = (tr ++ added)%list
       /\ count_calls is_token_call added = 0
       /\ count_calls is_quote_call added = 0.
Proof.
  intros He Hf Ht Hfail. split.
  - unfold nitro. apply try_catch_ok. unfold nitro_steps.
    rewrite (bind_ok _ _ _ _ _ He), (bind_ok _ _ _ _ _ Hf), (bind_ok _ _ _ _ _ Ht).
    destruct Hfail as [-> | ->]; cbn [negb orb]; [reflexivity |].
    now rewrite orb_true_r.
  - exact (chain_stage_quiet _ _ _ _ _ _ _ _ He Hf Ht).
Qed.

(** C3. When both chain lookups return success:true and one of the two
    lists of matches is empty, the tool returns the message "An error
    occurred while processing your request. Please try again." with a
    payload holding the error and the query, not the success tuple; no
    quote request is issued, and at most the token request of the source
    side (none when the source list is the empty one). *)
Theorem nitro_empty_match_halts (query : string) (tr : Trace)
    (details : TransactionDetails) (tr1 : Trace)
    (fromChainResult : ChainLookupResult) (tr2 : Trace)
    (toChainResult : ChainLookupResult) (tr3 : Trace)
    (fromFound toFound : list ChainQueryResult) :
  extractTransactionDetails env query tr = (Ok details, tr1) ->
  getChainDetails env (fromChain details) tr1 = (Ok fromChainResult, tr2) ->
  getChainDetails env (toChain details) tr2 = (Ok toChainResult, tr3) ->
  success fromChainResult = true ->
  success toChainResult = true ->
  data fromChainResult = Some fromFound ->
  data toChainResult = Some toFound ->
  fromFound = [] \/ toFound = [] ->
  exists added,
    nitro env query tr
    = (Ok ("An error occurred while processing your request. Please try again.",
           Failure (fault_message (ReadOfNullish "chainId")) query),
       (tr ++ added)%list)
    /\ count_calls is_quote_call added = 0
    /\ count_calls is_token_call added <= 1
    /\ (fromFound = [] -> count_calls is_token_call added = 0).
Proof.
  intros He Hf Ht Sf St Df Dt Hempty.
  destruct (chain_stage_quiet _ _ _ _ _ _ _ _ He Hf Ht) as (a & E & Ctok & Cquo).
  destruct fromFound as [| cf restf].
  - exists a. split; [| split; [exact Cquo | split; [lia | intros _; exact Ctok]]].
    assert (Hs : nitro_steps env query tr
                 = (Throw (JsError (fault_message (ReadOfNullish "chainId"))), tr3)).
    { unfold nitro_steps.
      rewrite (bind_ok _ _ _ _ _ He), (bind_ok _ _ _ _ _ Hf), (bind_ok _ _ _ _ _ Ht).
      rewrite Sf, St. cbn [negb orb]. unfold first_chain. rewrite Df, Dt.
      run. now destruct toFound. }
    unfold nitro. rewrite (try_catch_throw _ _ _ _ _ Hs), E. reflexivity.
  - destruct Hempty as [Hn | ->]; [discriminate Hn |].
    destruct (first_match_prints _ _ _ _ _ _ Hf Df) as (printed & Hp).
    destruct (getTokenDetails_returns (chainId (chain cf)) printed
                (fromToken details) tr3 Hp)
      as (found & Htok).
    exists (a ++ [CallFetch (token_request printed)])%list.
    split; [| split; [| split; [| intros Hn; discriminate Hn]]].
    + assert (Hs : nitro_steps env query tr
                   = (Throw (JsError (fault_message (ReadOfNullish "chainId"))),
                      (tr3 ++ [CallFetch (token_request printed)])%list)).
      { unfold nitro_steps.
        rewrite (bind_ok _ _ _ _ _ He), (bind_ok _ _ _ _ _ Hf), (bind_ok _ _ _ _ _ Ht).
        rewrite Sf, St. cbn [negb orb]. unfold first_chain. rewrite Df, Dt.
        run. unfold defined at 1. cbv beta iota. now rewrite Htok. }
      unfold nitro. rewrite (try_catch_throw _ _ _ _ _ Hs), E, app_assoc.
      reflexivity.
    + rewrite count_calls_app, Cquo. reflexivity.
    + rewrite count_calls_app, Ctok. cbn. lia.
Qed.

Lemma prefix_of_append (a b : string) : prefix_of a (a ++ b) = true.
Proof.
  induction a as [| c a IH]; cbn; [reflexivity |].
  now rewrite Ascii.eqb_refl, IH.
Qed.

Lemma includes_prefix (a b : string) : includes a (a ++ b) = true.
Proof.
  destruct a as [| c a]; cbn.
  - now destruct b.
  - now rewrite Ascii.eqb_refl, prefix_of_append.
Qed.

Lemma append_assoc (a b c : string) : (a ++ b) ++ c = a ++ b ++ c.
Proof. induction a as [| x a IH]; cbn; [reflexivity | now rewrite IH]. Qed.

(** C8. When extraction succeeds, both chain lookups succeed with at least
    one match, both token lookups return a record and the quote lookup
    returns a quote, the tool returns the pair of the summary "Found route
    to {toToken} on {toChain} chain:" followed by the lines of the amount,
    the expected output, the price impact and the estimated gas, and of the
    object holding fromChain, toChain, fromToken, toToken, amount and
    quote. *)
Theorem nitro_route_found (query : string) (tr : Trace)
    (details : TransactionDetails) (tr1 : Trace)
    (fromChainResult : ChainLookupResult) (tr2 : Trace)
    (toChainResult : ChainLookupResult) (tr3 : Trace)
    (fromMatch toMatch : ChainQueryResult)
    (fromRest toRest : list ChainQueryResult)
    (fromRecord : TokenDetails) (tr4 : Trace)
    (toRecord : TokenDetails) (tr5 : Trace)
    (quote : QuoteResponse) (tr6 : Trace) :
  extractTransactionDetails env query tr = (Ok details, tr1) ->
  getChainDetails env (fromChain details) tr1 = (Ok fromChainResult, tr2) ->
  getChainDetails env (toChain details) tr2 = (Ok toChainResult, tr3) ->
  success fromChainResult = true ->
  success toChainResult = true ->
  data fromChainResult = Some (fromMatch :: fromRest) ->
  data toChainResult = Some (toMatch :: toRest) ->
  getTokenDetails env (chainId (chain fromMatch)) (fromToken details) tr3
  = (Ok (Some fromRecord), tr4) ->
  getTokenDetails env (chainId (chain toMatch)) (toToken details) tr4
  = (Ok (Some toRecord), tr5) ->
  getTransactionDetails env
    {| fromChainId := chainId (chain fromMatch);
       toChainId := chainId (chain toMatch);
       fromTokenAddress := address fromRecord;
       toTokenAddress := address toRecord;
       quote_amount := amount details |} tr5
  = (Ok (Some quote), tr6) ->
  let summary :=
    "Found route to " ++ toToken details ++ " on " ++ toChain details
      ++ " chain:" ++ nl
      ++ "- Amount: " ++ amount details ++ " " ++ fromToken details ++ nl
      ++ "- Expected output: " ++ expectedOutput quote ++ " "
      ++ toToken details ++ nl
      ++ "- Price impact: " ++ priceImpact quote ++ nl
      ++ "- Estimated gas: " ++ number_toString (estimatedGas quote) in
  nitro env query tr
  = (Ok (summary,
         Route (chain fromMatch) (chain toMatch) fromRecord toRecord
               (amount details) quote),
     tr6)
  /\ includes ("Found route to " ++ toToken details ++ " on "
                 ++ toChain details ++ " chain") summary = true.
Proof.
  intros He Hf Ht Sf St Df Dt Hft Htt Hq summary. split.
  - unfold nitro. apply try_catch_ok. unfold nitro_steps.
    rewrite (bind_ok _ _ _ _ _ He), (bind_ok _ _ _ _ _ Hf), (bind_ok _ _ _ _ _ Ht).
    rewrite Sf, St. cbn [negb orb]. unfold first_chain. rewrite Df, Dt.
    run. unfold defined. cbv beta iota. rewrite Hft. cbv beta iota.
    rewrite Htt. cbv beta iota. rewrite Hq. reflexivity.
  - subst summary.
    replace ("Found route to " ++ toToken details ++ " on " ++ toChain details
               ++ " chain:" ++ nl
               ++ "- Amount: " ++ amount details ++ " " ++ fromToken details ++ nl
               ++ "- Expected output: " ++ expectedOutput quote ++ " "
               ++ toToken details ++ nl
               ++ "- Price impact: " ++ priceImpact quote ++ nl
               ++ "- Estimated gas: " ++ number_toString (estimatedGas quote))
      with (("Found route to " ++ toToken details ++ " on " ++ toChain details
               ++ " chain")
              ++ (":" ++ nl
               ++ "- Amount: " ++ amount details ++ " " ++ fromToken details ++ nl
               ++ "- Expected output: " ++ expectedOutput quote ++ " "
               ++ toToken details ++ nl
               ++ "- Price impact: " ++ priceImpact quote ++ nl
               ++ "- Estimated gas: " ++ number_toString (estimatedGas quote))).
    + apply includes_prefix.
    + rewrite !append_assoc. reflexivity.
Qed.

(** C9. Whatever the query and whatever the collaborators do, the tool
    function returns a pair of a message and a payload. An error that
    escapes its steps, that of a failed parameter extraction included, is
    turned into the message "An error occurred while processing your
    request. Please try again." with the payload of the error's message and
    the query. *)
Theorem nitro_never_rejects (query : string) (tr : Trace) :
  (exists message artifact tr',
     nitro env query tr = (Ok (message, artifact), tr'))
  /\ (forall e tr',
        nitro_steps env query tr = (Throw e, tr') ->
        nitro env query tr
        = (Ok ("An error occurred while processing your request. Please try again.",
               Failure (message_or "Unknown error" e) query),
           tr'))
  /\ (forall e tr',
        extractTransactionDetails env query tr = (Throw e, tr') ->
        nitro env query tr
        = (Ok ("An error occurred while processing your request. Please try again.",
               Failure (message_or "Unknown error" e) query),
           tr')).
Proof.
  split; [| split].
  - unfold nitro, try_catch.
    destruct (nitro_steps env query tr) as [[[message artifact] | e] tr'];
      eexists _, _, _; reflexivity.
  - intros e tr' H. unfold nitro. now rewrite (try_catch_throw _ _ _ _ _ H).
  - intros e tr' H. unfold nitro.
    erewrite try_catch_throw; [reflexivity |].
    unfold nitro_steps. now rewrite (bind_throw _ _ _ _ _ H).
Qed.

(** ** Requests made by the lookups and by the pipeline *)

Lemma count_calls_clock kind k :
  kind CallNow = false -> count_calls kind (repeat CallNow k) = 0.
Proof.
  intros Hk. unfold count_calls. induction k as [| k IH]; cbn; [reflexivity |].
  now rewrite Hk.
Qed.

Lemma repeat_snoc {A : Type} (x : A) k :
  (repeat x k ++ [x])%list = repeat x (S k).
Proof. induction k as [| k IH]; cbn; [reflexivity | now rewrite IH]. Qed.

(** The reshaping of one chain reads the clock once, after the url was
    printed; a chainId that does not print ends it before that. *)
Lemma process_chain_step (c : Value) tr :
  nullish c = false ->
  (exists p, process_chain env c tr = (Ok p, (tr ++ [CallNow])%list))
  \/ process_chain env c tr = (Throw (JsError (fault_message NotPrimitive)), tr).
Proof.
  intros Nc. unfold process_chain, bind, lift, read, now, ret. rewrite Nc.
  destruct (ToString (prop c "chainId")) as [printed | e] eqn:P.
  - left. eexists. reflexivity.
  - right. now rewrite (ToString_throws _ _ P).
Qed.

(** The reshaping of [k] chains reads the clock [k] times, unless the
    chainId of one of them does not print: then the clock was read for the
    chains before it. *)
Lemma mapM_process_chain_clock (l : list Value) tr :
  forallb (fun c => negb (nullish c)) l = true ->
  (exists found,
      mapM (process_chain env) l tr
      = (Ok found, (tr ++ repeat CallNow (length l))%list)
      /\ length found = length l)
  \/ (exists k,
        mapM (process_chain env) l tr
        = (Throw (JsError (fault_message NotPrimitive)),
           (tr ++ repeat CallNow k)%list)).
Proof.
  revert tr. induction l as [| c rest IH]; intros tr N; cbn [mapM length repeat].
  - left. exists []. rewrite app_nil_r. split; reflexivity.
  - cbn [forallb] in N. apply andb_prop in N. destruct N as [Nc Nrest].
    apply negb_true_iff in Nc.
    destruct (process_chain_step c tr Nc) as [(p & Ep) | Ep].
    + rewrite (bind_ok _ _ _ _ _ Ep).
      destruct (IH (tr ++ [CallNow])%list Nrest)
        as [(found & Ef & Hlen) | (k & Ef)].
      * left. exists (p :: found). split.
        -- rewrite (bind_ok _ _ _ _ _ Ef). rewrite <- app_assoc. reflexivity.
        -- cbn. now rewrite Hlen.
      * right. exists (S k). rewrite (bind_throw _ _ _ _ _ Ef).
        rewrite <- app_assoc. reflexivity.
    + right. exists 0. rewrite (bind_throw _ _ _ _ _ Ep), app_nil_r.
      reflexivity.
Qed.

(** What the filter keeps is neither undefined nor null: the callback reads
    a property of every element. *)
Lemma filterR_kept (term : string) (l kept : list Value) :
  filterR (chain_matches term) l = Ok kept ->
  forallb (fun c => negb (nullish c)) kept = true.
Proof.
  revert kept. induction l as [| c rest IH]; cbn [filterR]; intros kept H.
  - inversion H. reflexivity.
  - destruct (chain_matches term c) as [v | e] eqn:Ec; [| discriminate H].
    cbn [bindR] in H.
    destruct (filterR (chain_matches term) rest) as [kept' | e] eqn:Er;
      [| discriminate H].
    cbn [bindR] in H. inversion H; subst.
    destruct (truthy v); [| now apply IH].
    cbn [forallb]. rewrite (IH kept' eq_refl), andb_true_r.
    unfold chain_matches, read in Ec. destruct (nullish c); [discriminate Ec |].
    reflexivity.
Qed.

Ltac use_clock_lemma :=
  match goal with
  | F : filterR _ _ = Ok ?kept, Hm : mapM _ ?kept ?t = _ |- _ =>
      let found := fresh "found" in
      let Ef := fresh "Ef" in
      let Hlen := fresh "Hlen" in
      destruct (mapM_process_chain_clock kept t (filterR_kept _ _ _ F))
        as [(found & Ef & Hlen) | (k & Ef)];
      rewrite Ef in Hm; inversion Hm; subst; clear Hm
  end.

(** The lookup ended after [S n] readings of the clock. *)
Ltac ended_after n :=
  eexists _, n; split;
  [ apply f_equal2; [reflexivity |];
    rewrite <- ?app_assoc; cbn [app repeat]; rewrite ?repeat_snoc; reflexivity
  | cbn [data message message_or];
    first [ reflexivity | left; reflexivity | right; reflexivity
          | symmetry; assumption ] ].

Lemma getChainDetails_issues (chainQuery : string) (tr : Trace) :
  exists r n,
    getChainDetails env chainQuery tr
    = (Ok r, (tr ++ CallFetch chain_request :: repeat CallNow (S n))%list)
    /\ match data r with
       | Some found => n = length found
       | None => n = 0 \/ message r = fault_message NotPrimitive
       end.
Proof.
  destruct (getChainDetails env chainQuery tr) as [r tr'] eqn:E.
  rewrite getChainDetails_unfold in E. run_in E.
  case_split_in E; try use_clock_lemma; try discriminate;
    inversion E; subst;
    first [ solve [ended_after 0]
          | match goal with
            | |- context [repeat CallNow ?k] => solve [ended_after k]
            end ].
Qed.

(** X1. Whatever the query and whatever the directory answers, one call of
    the chain lookup issues exactly one request, always to the same address
    (page 0, limit 200, sorted by creation date), and then only reads the
    clock: once per record it returns and once for the result. A failure
    object comes after that one reading alone, unless the failure is that
    the chainId of a selected chain does not print: the clock was then read
    for the records built before it. The query is not part of any
    request. *)
Theorem getChainDetails_calls (chainQuery : string) (tr : Trace) :
  exists r n,
    getChainDetails env chainQuery tr
    = (Ok r,
       (tr ++ CallFetch (GetChainDirectory
                 "https://api.nitroswap.routernitro.com/chain?page=0&limit=200&sortKey=createdAt&sortOrder=asc")
           :: repeat CallNow (S n))%list)
    /\ match data r with
       | Some found => n = length found
       | None => n = 0 \/ message r = fault_message NotPrimitive
       end.
Proof.
  destruct (getChainDetails_issues chainQuery tr) as (r & n & E & H).
  exists r, n. rewrite E. split; [reflexivity | exact H].
Qed.

Lemma extractTransactionDetails_calls query tr :
  exists r,
    extractTransactionDetails env query tr
    = (r, (tr ++ [CallLLM system_prompt (user_prompt query)])%list).
Proof.
  destruct (extractTransactionDetails env query tr) as [r tr'] eqn:E.
  exists r. unfold extractTransactionDetails in E. run_in E.
  case_split_in E; inversion E; reflexivity.
Qed.

Lemma getTransactionDetails_returns params tr :
  exists found,
    getTransactionDetails env params tr
    = (Ok found, (tr ++ [CallFetch (quote_request params)])%list).
Proof.
  destruct (getTransactionDetails env params tr) as [r tr'] eqn:E.
  unfold getTransactionDetails in E. run_in E.
  change (PostQuote ROUTER_NITRO_QUOTE_API params) with (quote_request params) in E.
  case_split_in E; inversion E; eauto.
Qed.

Lemma requests_app (a b : Trace) :
  requests (a ++ b)%list
  = (let '(l1, c1, t1, q1) := requests a in
     let '(l2, c2, t2, q2) := requests b in
     (l1 + l2, c1 + c2, t1 + t2, q1 + q2)).
Proof. unfold requests. now rewrite !count_calls_app. Qed.

Lemma requests_clock k : requests (repeat CallNow k) = (0, 0, 0, 0).
Proof. unfold requests. now rewrite !count_calls_clock. Qed.

Lemma getChainDetails_requests chainQuery tr :
  exists r added,
    getChainDetails env chainQuery tr = (Ok r, (tr ++ added)%list)
    /\ requests added = (0, 1, 0, 0).
Proof.
  destruct (getChainDetails_issues chainQuery tr) as (r & n & E & _).
  eexists r, _. split; [exact E |].
  match goal with
  | |- requests (?c :: ?l) = _ => change (c :: l) with ([c] ++ l)%list
  end.
  rewrite requests_app, requests_clock. reflexivity.
Qed.

(** How a run of the [try] block ends, and the requests it has made by
    then. *)
Definition run_outcome (r : Result (string * Artifact)) (added : Trace) : Prop :=
  match r with
  | Ok (_, ChainFailure _ _ _) => requests added = (1, 2, 0, 0)
  | Ok (_, TokenFailure _ _ _) => requests added = (1, 2, 2, 0)
  | Ok (_, QuoteFailure _) => requests added = (1, 2, 2, 1)
  | Ok (_, Route _ _ _ _ _ _) => requests added = (1, 2, 2, 1)
  | Ok (_, Failure _ _) => False
  | Throw _ =>
      requests added = (1, 0, 0, 0) \/ requests added = (1, 2, 0, 0)
      \/ requests added = (1, 2, 1, 0)
  end.

Lemma nitro_steps_requests query tr :
  exists r added,
    nitro_steps env query tr = (r, (tr ++ added)%list) /\ run_outcome r added.
Proof.
  unfold nitro_steps.
  set (L := [CallLLM system_prompt (user_prompt query)]).
  destruct (extractTransactionDetails_calls query tr) as ([details | e] & He);
    fold L in He.
  2: { rewrite (bind_throw _ _ _ _ _ He). exists (Throw e), L.
       split; [reflexivity |]. left. reflexivity. }
  rewrite (bind_ok _ _ _ _ _ He).
  destruct (getChainDetails_requests (fromChain details) (tr ++ L)%list)
    as (rf & a1 & Hf & C1).
  rewrite (bind_ok _ _ _ _ _ Hf).
  destruct (getChainDetails_requests (toChain details) ((tr ++ L) ++ a1)%list)
    as (rt & a2 & Ht & C2).
  rewrite (bind_ok _ _ _ _ _ Ht).
  assert (Cchain : requests (L ++ a1 ++ a2)%list = (1, 2, 0, 0)).
  { rewrite !requests_app, C1, C2. reflexivity. }
  assert (T3 : (((tr ++ L) ++ a1) ++ a2 = tr ++ (L ++ a1 ++ a2))%list)
    by now rewrite <- !app_assoc.
  pose proof (fun first rest => first_match_prints _ _ _ _ first rest Hf) as Pf.
  pose proof (fun first rest => first_match_prints _ _ _ _ first rest Ht) as Pt.
  rewrite T3. clear T3 He Hf Ht. set (S3 := (L ++ a1 ++ a2)%list) in *.
  destruct (negb (success rf) || negb (success rt)).
  { eexists _, S3. split; [reflexivity |]. exact Cchain. }
  unfold first_chain.
  destruct (data rf) as [[| cf restf] |]; run;
    [ | | eexists _, S3; split; [reflexivity |]; right; left; exact Cchain].
  { (* the source side has no match *)
    destruct (data rt) as [[| ct restt] |]; run; cbn [defined];
      (eexists _, S3; split; [reflexivity |]; right; left; exact Cchain). }
  destruct (data rt) as [[| ct restt] |]; run;
    [ | | eexists _, S3; split; [reflexivity |]; right; left; exact Cchain].
  - (* the destination side has no match: the source token request is out *)
    cbn [defined].
    destruct (Pf _ _ eq_refl) as (pf & Hpf).
    destruct (getTokenDetails_returns (chainId (chain cf)) pf (fromToken details)
                (tr ++ S3)%list Hpf) as (ft & Hft).
    rewrite Hft.
    eexists _, (S3 ++ [CallFetch (token_request pf)])%list.
    split; [now rewrite app_assoc |].
    right. right. rewrite requests_app, Cchain. reflexivity.
  - cbn [defined].
    destruct (Pf _ _ eq_refl) as (pf & Hpf).
    destruct (Pt _ _ eq_refl) as (pt & Hpt).
    destruct (getTokenDetails_returns (chainId (chain cf)) pf (fromToken details)
                (tr ++ S3)%list Hpf) as (ft & Hft).
    rewrite Hft.
    destruct (getTokenDetails_returns (chainId (chain ct)) pt (toToken details)
                ((tr ++ S3) ++ [CallFetch (token_request pf)])%list Hpt)
      as (tt & Htt).
    rewrite Htt.
    set (S5 := (S3 ++ [CallFetch (token_request pf);
                       CallFetch (token_request pt)])%list).
    assert (T5 : (((tr ++ S3) ++ [CallFetch (token_request pf)])
                    ++ [CallFetch (token_request pt)]
                  = tr ++ S5)%list).
    { unfold S5. now rewrite <- !app_assoc. }
    rewrite T5. clear T5 Hft Htt.
    assert (Ctok : requests S5 = (1, 2, 2, 0)).
    { unfold S5. rewrite requests_app, Cchain. reflexivity. }
    destruct ft as [ft |], tt as [tt |];
      try (eexists _, S5; split; [reflexivity | exact Ctok]).
    match goal with
    | |- context [getTransactionDetails env ?p ?t] =>
        destruct (getTransactionDetails_returns p t) as (qt & Hq); rewrite Hq;
        set (Q := CallFetch (quote_request p))
    end.
    assert (Cquote : requests (S5 ++ [Q])%list = (1, 2, 2, 1)).
    { rewrite requests_app, Ctok. reflexivity. }
    destruct qt as [qt |];
      (eexists _, (S5 ++ [Q])%list; split;
       [now rewrite app_assoc | exact Cquote]).
Qed.

(** X2. Every run of the tool calls the model exactly once and makes its
    requests stage by stage; the payload it returns tells which requests
    were made, as (model calls, directory requests, token requests, quote
    requests): chain failure (1, 2, 0, 0), token failure (1, 2, 2, 0), quote
    failure and found route (1, 2, 2, 1), and for the generic error one of
    (1, 0, 0, 0), (1, 2, 0, 0), (1, 2, 1, 0). In particular no token request
    precedes the two directory requests and no quote request precedes the
    two token requests. *)
Theorem nitro_requests_by_outcome (query : string) (tr : Trace) :
  exists message artifact added,
    nitro env query tr = (Ok (message, artifact), (tr ++ added)%list)
    /\ match artifact with
       | ChainFailure _ _ _ => requests added = (1, 2, 0, 0)
       | TokenFailure _ _ _ => requests added = (1, 2, 2, 0)
       | QuoteFailure _ => requests added = (1, 2, 2, 1)
       | Route _ _ _ _ _ _ => requests added = (1, 2, 2, 1)
       | Failure _ _ =>
           requests added = (1, 0, 0, 0) \/ requests added = (1, 2, 0, 0)
           \/ requests added = (1, 2, 1, 0)
       end.
Proof.
  destruct (nitro_steps_requests query tr) as (r & added & Hs & Ho).
  unfold nitro. destruct r as [[message artifact] | e].
  - rewrite (try_catch_ok _ _ _ _ _ Hs). exists message, artifact, added.
    split; [reflexivity |]. cbn [run_outcome] in Ho.
    destruct artifact; [exact Ho | exact Ho | exact Ho | exact Ho | contradiction].
  - rewrite (try_catch_throw _ _ _ _ _ Hs). eexists _, _, added.
    split; [reflexivity |]. exact Ho.
Qed.

(** X3. When both chain lookups succeed with a match and one of the two
    token lookups returns null, the tool returns "Failed to fetch token
    details. Please check the token symbols and try again." with a payload
    holding both token results. Both token lookups have run by then, also
    when the first one had already returned null: the two requests went to
    the addresses of the two chain ids as printed. *)
Theorem nitro_token_failure (query : string) (tr : Trace)
    (details : TransactionDetails) (tr1 : Trace)
    (fromChainResult : ChainLookupResult) (tr2 : Trace)
    (toChainResult : ChainLookupResult) (tr3 : Trace)
    (fromMatch toMatch : ChainQueryResult)
    (fromRest toRest : list ChainQueryResult)
    (fromFound toFound : option TokenDetails) (tr4 tr5 : Trace) :
  extractTransactionDetails env query tr = (Ok details, tr1) ->
  getChainDetails env (fromChain details) tr1 = (Ok fromChainResult, tr2) ->
  getChainDetails env (toChain details) tr2 = (Ok toChainResult, tr3) ->
  success fromChainResult = true ->
  success toChainResult = true ->
  data fromChainResult = Some (fromMatch :: fromRest) ->
  data toChainResult = Some (toMatch :: toRest) ->
  getTokenDetails env (chainId (chain fromMatch)) (fromToken details) tr3
  = (Ok fromFound, tr4) ->
  getTokenDetails env (chainId (chain toMatch)) (toToken details) tr4
  = (Ok toFound, tr5) ->
  fromFound = None \/ toFound = None ->
  nitro env query tr
  = (Ok ("Failed to fetch token details. Please check the token symbols and try again.",
         TokenFailure "Invalid token information" fromFound toFound),
     tr5)
  /\ exists fromId toId,
       ToString (chainId (chain fromMatch)) = Ok fromId
       /\ ToString (chainId (chain toMatch)) = Ok toId
       /\ tr5 = (tr3 ++ [CallFetch (token_request fromId);
                         CallFetch (token_request toId)])%list.
Proof.
  intros He Hf Ht Sf St Df Dt Hft Htt Hnone. split.
  - unfold nitro. apply try_catch_ok. unfold nitro_steps.
    rewrite (bind_ok _ _ _ _ _ He), (bind_ok _ _ _ _ _ Hf), (bind_ok _ _ _ _ _ Ht).
    rewrite Sf, St. cbn [negb orb]. unfold first_chain. rewrite Df, Dt.
    run. unfold defined. cbv beta iota. rewrite Hft. cbv beta iota.
    rewrite Htt. cbv beta iota.
    destruct Hnone as [-> | ->]; [reflexivity |].
    now destruct fromFound.
  - destruct (first_match_prints _ _ _ _ _ _ Hf Df) as (fromId & Pf).
    destruct (first_match_prints _ _ _ _ _ _ Ht Dt) as (toId & Pt).
    exists fromId, toId. split; [exact Pf |]. split; [exact Pt |].
    rewrite (getTokenDetails_trace _ _ _ _ _ _ Pt Htt).
    rewrite (getTokenDetails_trace _ _ _ _ _ _ Pf Hft).
    now rewrite <- app_assoc.
Qed.

(** X4. When both token lookups return a record and the quote lookup
    returns null, the tool returns "Failed to fetch quote. Please try again
    with different parameters." with the payload [{error: "Error getting
    quote"}]; the quote request carried the chain ids of the first matches,
    the addresses of the two token records and the amount as extracted. *)
Theorem nitro_quote_failure (query : string) (tr : Trace)
    (details : TransactionDetails) (tr1 : Trace)
    (fromChainResult : ChainLookupResult) (tr2 : Trace)
    (toChainResult : ChainLookupResult) (tr3 : Trace)
    (fromMatch toMatch : ChainQueryResult)
    (fromRest toRest : list ChainQueryResult)
    (fromRecord : TokenDetails) (tr4 : Trace)
    (toRecord : TokenDetails) (tr5 tr6 : Trace) :
  extractTransactionDetails env query tr = (Ok details, tr1) ->
  getChainDetails env (fromChain details) tr1 = (Ok fromChainResult, tr2) ->
  getChainDetails env (toChain details) tr2 = (Ok toChainResult, tr3) ->
  success fromChainResult = true ->
  success toChainResult = true ->
  data fromChainResult = Some (fromMatch :: fromRest) ->
  data toChainResult = Some (toMatch :: toRest) ->
  getTokenDetails env (chainId (chain fromMatch)) (fromToken details) tr3
  = (Ok (Some fromRecord), tr4) ->
  getTokenDetails env (chainId (chain toMatch)) (toToken details) tr4
  = (Ok (Some toRecord), tr5) ->
  getTransactionDetails env
    {| fromChainId := chainId (chain fromMatch);
       toChainId := chainId (chain toMatch);
       fromTokenAddress := address fromRecord;
       toTokenAddress := address toRecord;
       quote_amount := amount details |} tr5
  = (Ok None, tr6) ->
  nitro env query tr
  = (Ok ("Failed to fetch quote. Please try again with different parameters.",
         QuoteFailure "Error getting quote"),
     tr6)
  /\ tr6 = (tr5 ++ [CallFetch
                      (PostQuote "https://api.nitroswap.routernitro.com/quote"
                         {| fromChainId := chainId (chain fromMatch);
                            toChainId := chainId (chain toMatch);
                            fromTokenAddress := address fromRecord;
                            toTokenAddress := address toRecord;
                            quote_amount := amount details |})])%list.
Proof.
  intros He Hf Ht Sf St Df Dt Hft Htt Hq. split.
  - unfold nitro. apply try_catch_ok. unfold nitro_steps.
    rewrite (bind_ok _ _ _ _ _ He), (bind_ok _ _ _ _ _ Hf), (bind_ok _ _ _ _ _ Ht).
    rewrite Sf, St. cbn [negb orb]. unfold first_chain. rewrite Df, Dt.
    run. unfold defined. cbv beta iota. rewrite Hft. cbv beta iota.
    rewrite Htt. cbv beta iota. rewrite Hq. reflexivity.
  - match type of Hq with
    | getTransactionDetails env ?p ?t = _ =>
        destruct (getTransactionDetails_returns p t) as (found & E)
    end.
    rewrite E in Hq. inversion Hq. reflexivity.
Qed.

(** ** Chain lookup: edge cases *)

Lemma filterR_throws (term : string) (good : list Value) (bad : Value)
    (rest : list Value) (e : Exn) :
  (forall c, In c good -> exists v, chain_matches term c = Ok v) ->
  chain_matches term bad = Throw e ->
  filterR (chain_matches term) (good ++ bad :: rest) = Throw e.
Proof.
  intros Hgood Hbad. induction good as [| c good IH]; cbn [app filterR].
  - now rewrite Hbad.
  - destruct (Hgood c (or_introl eq_refl)) as (v & ->). cbn [bindR].
    rewrite IH; [reflexivity |]. intros c' Hc'. apply Hgood. now right.
Qed.

Lemma getChainDetails_filter_throws chainQuery tr resp body chains e :
  fetch_api env (tr ++ [CallFetch chain_request])%list = Ok resp ->
  ok resp = true ->
  json resp = Ok body ->
  read body "data" = Ok (JArr chains) ->
  filterR (chain_matches (toLowerCase chainQuery)) chains = Throw e ->
  exists r tr',
    getChainDetails env chainQuery tr = (Ok r, tr')
    /\ structured_failure r
    /\ message r = message_or "An unknown error occurred" e.
Proof.
  intros Hfetch Hok Hjson Hdata Hfilter.
  rewrite getChainDetails_unfold. run.
  rewrite Hfetch, Hok. run. rewrite Hjson, Hdata. run. rewrite Hfilter.
  eexists _, _. split; [reflexivity |]. unfold structured_failure. cbn. auto.
Qed.

(** X5. One malformed record spoils the whole chain lookup: when the
    directory lists, after well-formed chains, an entry that is null or an
    entry whose name is there and is not a string, the lookup returns the
    failure object with the TypeError's message, whatever else the directory
    lists and whether or not other chains match the query. *)
Theorem getChainDetails_poisoned (chainQuery : string) (tr : Trace)
    (resp : Response) (body : Value) (good : list Value) (bad : Value)
    (rest : list Value) :
  fetch_api env (tr ++ [CallFetch chain_request])%list = Ok resp ->
  ok resp = true ->
  json resp = Ok body ->
  read body "data" = Ok (JArr (good ++ bad :: rest)) ->
  forallb well_formed_chain good = true ->
  bad = JNull \/ not_text (prop bad "name") = true ->
  exists r tr',
    getChainDetails env chainQuery tr = (Ok r, tr')
    /\ structured_failure r
    /\ message r = fault_message (if nullish bad then ReadOfNullish "name"
                                  else NotCallable "toLowerCase").
Proof.
  intros Hfetch Hok Hjson Hdata Hgood Hbad.
  assert (Hthrow : chain_matches (toLowerCase chainQuery) bad
                   = Throw (JsError (fault_message
                                       (if nullish bad then ReadOfNullish "name"
                                        else NotCallable "toLowerCase")))).
  { destruct Hbad as [-> | Hname]; [reflexivity |].
    unfold chain_matches, read.
    destruct bad; try discriminate Hname. cbn [nullish bindR].
    destruct (prop (JObj fields) "name"); try discriminate Hname; reflexivity. }
  apply (getChainDetails_filter_throws chainQuery tr resp body _
           (JsError (fault_message (if nullish bad then ReadOfNullish "name"
                                    else NotCallable "toLowerCase")))
           Hfetch Hok Hjson Hdata).
  apply filterR_throws; [| exact Hthrow].
  intros c Hc. destruct (chain_matches_wf chainQuery c) as (v & Hv & _).
  - exact (proj1 (forallb_forall _ _) Hgood c Hc).
  - now exists v.
Qed.

Lemma mapM_process_chain_rel (Rel : Value -> ChainQueryResult -> Prop)
    (l : list Value) tr :
  (forall c t p t', process_chain env c t = (Ok p, t') -> Rel c p) ->
  forallb (fun c => negb (nullish c) && printable (prop c "chainId")) l = true ->
  exists found tr', mapM (process_chain env) l tr = (Ok found, tr')
                    /\ Forall2 Rel l found.
Proof.
  intros HRel. revert tr. induction l as [| c rest IH]; intros tr N; simpl.
  - exists [], tr. split; [reflexivity | constructor].
  - simpl in N. apply andb_prop in N. destruct N as [Nc Nrest].
    apply andb_prop in Nc. destruct Nc as [Nc Pc].
    apply negb_true_iff in Nc.
    destruct (process_chain_reshapes c tr Nc Pc) as (p & tr1 & Ep & _).
    destruct (IH tr1 Nrest) as (found & tr2 & Ef & Hf).
    exists (p :: found), tr2. split.
    + rewrite (bind_ok _ _ _ _ _ Ep). rewrite (bind_ok _ _ _ _ _ Ef). reflexivity.
    + constructor; [exact (HRel _ _ _ _ Ep) | exact Hf].
Qed.

(** X6. On a well-formed directory the chainId of every selected chain
    prints, and every returned record links to
    "https://routernitro.com/chain/" followed by the chain's own chainId as
    printed, not by the defaulted one: a selected chain
    without chainId is returned with chainId "Unknown" and a link that ends
    in "undefined". When at least one chain is selected the message is
    "Found n matching chains" with n the number of records. *)
Theorem getChainDetails_links (chainQuery : string) (tr : Trace)
    (resp : Response) (body : Value) (chains : list Value) :
  fetch_api env (tr ++ [CallFetch chain_request])%list = Ok resp ->
  ok resp = true ->
  json resp = Ok body ->
  read body "data" = Ok (JArr chains) ->
  forallb well_formed_chain chains = true ->
  exists r tr' found,
    getChainDetails env chainQuery tr = (Ok r, tr')
    /\ data r = Some found
    /\ Forall2
         (fun c p =>
            (exists printed,
                ToString (prop c "chainId") = Ok printed
                /\ url p = "https://routernitro.com/chain/" ++ printed)
            /\ (prop c "chainId" = JUndefined ->
                chainId (chain p) = JStr "Unknown"
                /\ url p = "https://routernitro.com/chain/undefined"))
         (filter (spec_selected chainQuery) chains) found
    /\ (found <> [] ->
        message r = "Found " ++ nat_to_string (length found)
                      ++ " matching chains").
Proof.
  intros Hfetch Hok Hjson Hdata W.
  destruct (mapM_process_chain_rel
              (fun c p =>
                 (exists printed,
                     ToString (prop c "chainId") = Ok printed
                     /\ url p = "https://routernitro.com/chain/" ++ printed)
                 /\ (prop c "chainId" = JUndefined ->
                     chainId (chain p) = JStr "Unknown"
                     /\ url p = "https://routernitro.com/chain/undefined"))
              (filter (spec_selected chainQuery) chains)
              (tr ++ [CallFetch chain_request])%list)
    as (found & tr2 & Hmap & Hfound).
  { intros c t p t' H. unfold process_chain, bind, lift, read, now, ret in H.
    destruct (nullish c); [discriminate H |].
    destruct (ToString (prop c "chainId")) as [printed | e] eqn:P;
      [| discriminate H].
    inversion H; subst. cbn [url chain chainId].
    split; [now exists printed |]. intros U. rewrite U in P |- *.
    cbn in P. inversion P. split; reflexivity. }
  { exact (selected_not_nullish chainQuery chains W). }
  rewrite getChainDetails_unfold. run.
  rewrite Hfetch, Hok. run. rewrite Hjson, Hdata. run.
  rewrite (filterR_wf chainQuery chains W). run. rewrite Hmap.
  eexists _, _, found. split; [reflexivity |]. cbn [data message].
  split; [reflexivity |]. split; [exact Hfound |].
  intros Hne. destruct found; [contradiction | reflexivity].
Qed.

Lemma filterR_app (term : string) (a b ka kb : list Value) :
  filterR (chain_matches term) a = Ok ka ->
  filterR (chain_matches term) b = Ok kb ->
  filterR (chain_matches term) (a ++ b) = Ok (ka ++ kb)%list.
Proof.
  revert ka. induction a as [| c a IH]; cbn [app filterR]; intros ka Ha Hb.
  - inversion Ha. exact Hb.
  - destruct (chain_matches term c) as [v | e]; [| discriminate Ha].
    cbn [bindR] in *.
    destruct (filterR (chain_matches term) a) as [ka' | e]; [| discriminate Ha].
    cbn [bindR] in Ha. inversion Ha; subst.
    rewrite (IH ka' eq_refl Hb). cbn [bindR].
    now destruct (truthy v).
Qed.

(** The map stops at the first chain whose chainId does not print, after
    the clock readings of the chains before it. *)
Lemma mapM_process_chain_stops (l : list Value) (bad : Value)
    (rest : list Value) tr :
  forallb (fun c => negb (nullish c) && printable (prop c "chainId")) l = true ->
  nullish bad = false ->
  printable (prop bad "chainId") = false ->
  mapM (process_chain env) (l ++ bad :: rest) tr
  = (Throw (JsError (fault_message NotPrimitive)),
     (tr ++ repeat CallNow (length l))%list).
Proof.
  intros Hl Hbad Hid. revert tr.
  induction l as [| c l IH]; intros tr; cbn [app mapM length repeat].
  - rewrite app_nil_r.
    destruct (process_chain_step bad tr Hbad) as [(p & Ep) | Ep].
    + apply process_chain_printable in Ep as Pp. exfalso.
      unfold process_chain, bind, lift, read in Ep. rewrite Hbad in Ep.
      unfold printable in Hid.
      destruct (ToString (prop bad "chainId")); discriminate.
    + now rewrite (bind_throw _ _ _ _ _ Ep).
  - cbn [forallb] in Hl. apply andb_prop in Hl. destruct Hl as [Hc Hl].
    apply andb_prop in Hc. destruct Hc as [Nc Pc]. apply negb_true_iff in Nc.
    destruct (process_chain_step c tr Nc) as [(p & Ep) | Ep].
    + rewrite (bind_ok _ _ _ _ _ Ep).
      rewrite (bind_throw _ _ _ _ _ (IH Hl (tr ++ [CallNow])%list)).
      now rewrite <- app_assoc.
    + exfalso. unfold process_chain, bind, lift, read in Ep. rewrite Nc in Ep.
      unfold printable in Pc.
      destruct (ToString (prop c "chainId")); discriminate.
Qed.

(** X23. A chain that is selected by its name and whose chainId does not
    print spoils the lookup while the records are built: on a directory
    that is well formed but for this chain, the lookup returns the failure
    object with the TypeError's message, having read the clock once for
    each selected chain before it and once for the failure object. *)
Theorem getChainDetails_unprintable_id (chainQuery : string) (tr : Trace)
    (resp : Response) (body : Value) (good : list Value) (bad : Value)
    (rest : list Value) :
  fetch_api env (tr ++ [CallFetch chain_request])%list = Ok resp ->
  ok resp = true ->
  json resp = Ok body ->
  read body "data" = Ok (JArr (good ++ bad :: rest)) ->
  forallb well_formed_chain good = true ->
  forallb well_formed_chain rest = true ->
  spec_contains chainQuery (prop bad "name") = true ->
  printable (prop bad "chainId") = false ->
  exists r,
    getChainDetails env chainQuery tr
    = (Ok r,
       (tr ++ CallFetch chain_request
           :: repeat CallNow
                (S (length (filter (spec_selected chainQuery) good))))%list)
    /\ structured_failure r
    /\ message r = fault_message NotPrimitive.
Proof.
  intros Hfetch Hok Hjson Hdata Hgood Hrest Hname Hid.
  assert (Hbad : nullish bad = false).
  { destruct bad; try discriminate Hname. reflexivity. }
  assert (Hkeep : filterR (chain_matches (toLowerCase chainQuery)) [bad]
                  = Ok [bad]).
  { cbn [filterR]. unfold chain_matches, read. rewrite Hbad. cbn [bindR].
    unfold spec_contains in Hname.
    destruct (prop bad "name") as [| | | | s | |]; try discriminate Hname.
    cbn [lower_includes bindR truthy]. rewrite Hname. reflexivity. }
  assert (Hfilter : filterR (chain_matches (toLowerCase chainQuery))
                      (good ++ bad :: rest)
                    = Ok (filter (spec_selected chainQuery) good
                            ++ bad :: filter (spec_selected chainQuery) rest)%list).
  { apply filterR_app; [exact (filterR_wf chainQuery good Hgood) |].
    change (bad :: rest) with ([bad] ++ rest)%list.
    change (bad :: filter (spec_selected chainQuery) rest)
      with ([bad] ++ filter (spec_selected chainQuery) rest)%list.
    apply filterR_app; [exact Hkeep | exact (filterR_wf chainQuery rest Hrest)]. }
  rewrite getChainDetails_unfold. run.
  rewrite Hfetch, Hok. run. rewrite Hjson, Hdata. run. rewrite Hfilter.
  rewrite (mapM_process_chain_stops _ bad _ _
             (selected_not_nullish chainQuery good Hgood) Hbad Hid).
  eexists. split.
  - apply f_equal2; [reflexivity |].
    rewrite <- !app_assoc. cbn [app]. now rewrite repeat_snoc.
  - split; [unfold structured_failure; cbn; auto | reflexivity].
Qed.

Lemma includes_empty (s : string) : includes EmptyString s = true.
Proof. now destruct s. Qed.

(** X7. An empty query selects every chain that has a string under name,
    chainId, type or gasToken.symbol: on a well-formed directory the lookup
    returns all of them, in the directory's order. *)
Theorem getChainDetails_empty_query (tr : Trace)
    (resp : Response) (body : Value) (chains : list Value) :
  toLowerCase EmptyString = EmptyString ->
  fetch_api env (tr ++ [CallFetch chain_request])%list = Ok resp ->
  ok resp = true ->
  json resp = Ok body ->
  read body "data" = Ok (JArr chains) ->
  forallb well_formed_chain chains = true ->
  exists r tr' found,
    getChainDetails env EmptyString tr = (Ok r, tr')
    /\ success r = true
    /\ data r = Some found
    /\ Forall2 spec_reshaped (filter has_text_field chains) found.
Proof.
  intros Hlow Hfetch Hok Hjson Hdata W.
  assert (Hsel : forall c, spec_selected EmptyString c = has_text_field c).
  { intros c. unfold spec_selected, has_text_field, spec_contains.
    rewrite Hlow.
    repeat match goal with
           | |- context [match ?v with JStr _ => _ | _ => _ end] =>
               destruct v; cbn [is_text]; rewrite ?includes_empty
           end; reflexivity. }
  destruct (mapM_process_chain _ (tr ++ [CallFetch chain_request])%list
              (selected_not_nullish EmptyString chains W))
    as (found & tr2 & Hmap & Hfound).
  rewrite getChainDetails_unfold. run.
  rewrite Hfetch, Hok. run. rewrite Hjson, Hdata. run.
  rewrite (filterR_wf EmptyString chains W). run. rewrite Hmap.
  eexists _, _, found. split; [reflexivity |]. cbn [success data].
  split; [reflexivity |]. split; [reflexivity |].
  rewrite (filter_ext _ _ Hsel) in Hfound. exact Hfound.
Qed.

(** ** Token and quote lookups: edge cases *)

Lemma findR_throws (tokenSymbol : string) (before : list Value) (bad : Value)
    (rest : list Value) :
  Forall (fun t => exists s, prop t "symbol" = JStr s
                             /\ toLowerCase s <> toLowerCase tokenSymbol) before ->
  is_text (prop bad "symbol") = false ->
  exists e, findR (symbol_equals tokenSymbol) (before ++ bad :: rest) = Throw e.
Proof.
  intros Hbefore Hbad. induction Hbefore as [| t before Ht _ IH]; cbn [app findR].
  - unfold symbol_equals, read. destruct (nullish bad); [now eexists |].
    cbn [bindR]. destruct (prop bad "symbol"); try discriminate Hbad;
      now eexists.
  - destruct Ht as (s & Hs & Hne).
    assert (E : symbol_equals tokenSymbol t = Ok false).
    { unfold symbol_equals, read. destruct t; try discriminate Hs.
      cbn [nullish bindR]. rewrite Hs.
      apply String.eqb_neq in Hne. now rewrite Hne. }
    rewrite E. cbn [bindR]. exact IH.
Qed.

(** X8. One malformed entry spoils the token lookup: when the fetched list
    has, before any token with the requested symbol, an entry without a
    string symbol (null, a bare value, a record whose symbol is missing or
    is not a string), the lookup returns null even if a matching token
    follows. The chainId is one that prints, as every chainId the chain
    lookup returns does. *)
Theorem getTokenDetails_poisoned (chainId : Value) (printed : string)
    (tokenSymbol : string)
    (tr : Trace) (resp : Response) (body : Value)
    (before : list Value) (bad : Value) (rest : list Value) :
  ToString chainId = Ok printed ->
  fetch_api env (tr ++ [CallFetch (token_request printed)])%list = Ok resp ->
  ok resp = true ->
  json resp = Ok body ->
  read body "data" = Ok (JArr (before ++ bad :: rest)) ->
  Forall (fun t => exists s, prop t "symbol" = JStr s
                             /\ toLowerCase s <> toLowerCase tokenSymbol) before ->
  is_text (prop bad "symbol") = false ->
  getTokenDetails env chainId tokenSymbol tr
  = (Ok None, (tr ++ [CallFetch (token_request printed)])%list).
Proof.
  intros Hp Hfetch Hok Hjson Hdata Hbefore Hbad.
  destruct (findR_throws tokenSymbol before bad rest Hbefore Hbad) as (e & He).
  rewrite (getTokenDetails_unfold _ _ _ _ Hp). run.
  rewrite Hfetch, Hok. run. rewrite Hjson, Hdata.
  unfold or_else. run. now rewrite He.
Qed.

(** X9. The token lookup, asked with a chainId that prints, returns null
    whenever the parsed body has no array under data: a body that is null
    or not an object, a missing data field, and a data field holding
    anything but an array. *)
Theorem getTokenDetails_without_list (chainId : Value) (printed : string)
    (tokenSymbol : string)
    (tr : Trace) (resp : Response) (body : Value) :
  ToString chainId = Ok printed ->
  fetch_api env (tr ++ [CallFetch (token_request printed)])%list = Ok resp ->
  json resp = Ok body ->
  isArray (prop body "data") = false ->
  getTokenDetails env chainId tokenSymbol tr
  = (Ok None, (tr ++ [CallFetch (token_request printed)])%list).
Proof.
  intros Hp Hfetch Hjson Hno.
  rewrite (getTokenDetails_unfold _ _ _ _ Hp). run. rewrite Hfetch.
  destruct (ok resp); [| reflexivity]. run. rewrite Hjson.
  unfold read. destruct (nullish body); [reflexivity |]. run.
  unfold or_else. destruct (truthy (prop body "data")) eqn:T.
  - destruct (prop body "data"); try discriminate Hno; reflexivity.
  - reflexivity.
Qed.

(** X10. The quote lookup returns a quote exactly when the request is
    answered with a 2xx status and a body that parses to an object holding
    a number under estimatedGas that the schema accepts, an array under
    route and strings under expectedOutput and priceImpact; the quote holds
    these four values, and any other key of the body is dropped. *)
Theorem getTransactionDetails_some_iff (params : QuoteParams) (tr : Trace)
    (quote : QuoteResponse) :
  let asked := (tr ++ [CallFetch (quote_request params)])%list in
  getTransactionDetails env params tr = (Ok (Some quote), asked)
  <-> exists resp fields,
        fetch_api env asked = Ok resp
        /\ ok resp = true
        /\ json resp = Ok (JObj fields)
        /\ lookup "estimatedGas" fields = Some (JNum (estimatedGas quote))
        /\ number_refused (estimatedGas quote) = false
        /\ lookup "route" fields = Some (JArr (route quote))
        /\ lookup "expectedOutput" fields = Some (JStr (expectedOutput quote))
        /\ lookup "priceImpact" fields = Some (JStr (priceImpact quote)).
Proof.
  intros asked. subst asked. unfold getTransactionDetails. run.
  change (PostQuote ROUTER_NITRO_QUOTE_API params) with (quote_request params).
  split.
  - intros H.
    destruct (fetch_api env _) as [resp | e] eqn:Hfetch; [| discriminate H].
    destruct (ok resp) eqn:Hok; [| discriminate H]. run_in H.
    destruct (json resp) as [body | e] eqn:Hjson; [| discriminate H].
    destruct (QuoteResponseSchema_parse body) as [parsed | e] eqn:P;
      [| discriminate H].
    inversion H; subst parsed. clear H.
    unfold QuoteResponseSchema_parse, z_object, z_number, z_array_any,
      z_string in P.
    destruct body; try discriminate P. cbn [bindR] in P.
    exists resp, fields. repeat (split; [reflexivity |]).
    field_in P. destruct (number_refused n) eqn:Hn; [discriminate P |].
    cbn [bindR] in P. field_in P. field_in P. field_in P.
    inversion P; subst. cbn. repeat split; assumption.
  - intros (resp & fields & Hfetch & Hok & Hjson & Hg & Hn & Hr & He & Hp).
    rewrite Hfetch, Hok. run. rewrite Hjson.
    unfold QuoteResponseSchema_parse, z_object, z_number, z_array_any, z_string.
    cbn [bindR]. rewrite Hg, Hn. cbn [bindR]. rewrite Hr. cbn [bindR].
    rewrite He. cbn [bindR]. rewrite Hp. cbn [bindR]. now destruct quote.
Qed.

(** ** Parameter extraction: messages and tolerated replies *)

(** X11. Whatever makes parameter extraction fail, it throws an Error whose
    message starts with "Failed to extract transaction parameters: ". A
    rejected model call contributes its own message; a reply without braces
    gives "... Failed to parse transaction details: No JSON object found in
    LLM response"; a match that is not JSON and a value that fails
    validation give "... Failed to parse transaction details: " followed by
    the parser's or the schema's message. *)
Theorem extractTransactionDetails_messages (query : string) (tr : Trace) :
  let asked := (tr ++ [CallLLM system_prompt (user_prompt query)])%list in
  (forall e tr',
     extractTransactionDetails env query tr = (Throw e, tr') ->
     exists m, e = JsError ("Failed to extract transaction parameters: " ++ m))
  /\ (forall e,
        llm_invoke env asked = Throw e ->
        extractTransactionDetails env query tr
        = (Throw (JsError ("Failed to extract transaction parameters: "
                             ++ message_or "Unknown error" e)), asked))
  /\ (forall text,
        llm_invoke env asked = Ok (JStr text) ->
        match_json_object text = None ->
        extractTransactionDetails env query tr
        = (Throw (JsError ("Failed to extract transaction parameters: "
                             ++ "Failed to parse transaction details: "
                             ++ "No JSON object found in LLM response")), asked))
  /\ (forall text m,
        llm_invoke env asked = Ok (JStr text) ->
        match_json_object text = Some m ->
        JSON_parse m = None ->
        extractTransactionDetails env query tr
        = (Throw (JsError ("Failed to extract transaction parameters: "
                             ++ "Failed to parse transaction details: "
                             ++ fault_message (BadJSON m))), asked))
  /\ (forall text m v,
        llm_invoke env asked = Ok (JStr text) ->
        match_json_object text = Some m ->
        JSON_parse m = Some v ->
        spec_five_strings v = None ->
        extractTransactionDetails env query tr
        = (Throw (JsError ("Failed to extract transaction parameters: "
                             ++ "Failed to parse transaction details: "
                             ++ fault_message (ZodIssues "TransactionDetailsSchema"))),
           asked)).
Proof.
  intros asked. subst asked. split; [| split; [| split; [| split]]].
  - intros e tr' H. unfold extractTransactionDetails in H. run_in H.
    case_split_in H; inversion H; eexists; reflexivity.
  - intros e Hllm. unfold extractTransactionDetails. run. now rewrite Hllm.
  - intros text Hllm Hm. unfold extractTransactionDetails. run.
    now rewrite Hllm, Hm.
  - intros text m Hllm Hm Hv. unfold extractTransactionDetails. run.
    now rewrite Hllm, Hm, Hv.
  - intros text m v Hllm Hm Hv Hd. unfold extractTransactionDetails. run.
    rewrite Hllm, Hm, Hv. rewrite TransactionDetailsSchema_parse_spec, Hd.
    reflexivity.
Qed.

(** X12. A reply whose content is not a string is not searched for JSON: it
    is validated as it is. It yields the five strings when it is an object
    holding them and fails with the schema's message otherwise, as every
    content made of parts (an array) does. *)
Theorem extractTransactionDetails_structured_content (query : string)
    (tr : Trace) (content : Value) :
  let asked := (tr ++ [CallLLM system_prompt (user_prompt query)])%list in
  llm_invoke env asked = Ok content ->
  is_text content = false ->
  extractTransactionDetails env query tr
  = (match spec_five_strings content with
     | Some details => Ok details
     | None =>
         Throw (JsError ("Failed to extract transaction parameters: "
                           ++ "Failed to parse transaction details: "
                           ++ fault_message (ZodIssues "TransactionDetailsSchema")))
     end, asked)
  /\ (isArray content = true -> spec_five_strings content = None).
Proof.
  intros asked Hllm Hcontent. subst asked. split.
  - unfold extractTransactionDetails. run. rewrite Hllm.
    destruct content; try discriminate Hcontent;
      rewrite TransactionDetailsSchema_parse_spec;
      match goal with
      | |- context [spec_five_strings ?c] => destruct (spec_five_strings c)
      end; reflexivity.
  - destruct content; try discriminate. reflexivity.
Qed.

Lemma upto_last_close_nonempty (s : string) :
  upto_last_close s <> Some EmptyString.
Proof.
  destruct s as [| c s]; cbn; [discriminate |].
  destruct (upto_last_close s); [discriminate |].
  destruct (Ascii.eqb c "}"); discriminate.
Qed.

Lemma upto_last_close_longer (mid post : string) :
  has_char "}" post = true ->
  upto_last_close (mid ++ String "}" post) <> Some (mid ++ "}").
Proof.
  intros Hpost. induction mid as [| c mid IH]; cbn.
  - destruct (upto_last_close post) as [p |] eqn:E.
    + intros H. inversion H; subst. now apply (upto_last_close_nonempty post).
    + apply upto_last_close_none in E. congruence.
  - pose proof (upto_last_close_finds mid post) as Hsome.
    destruct (upto_last_close (mid ++ String "}" post)) as [p |];
      [| contradiction].
    intros H. inversion H; subst. now apply IH.
Qed.

(** X13. Prose around the JSON object is ignored as long as it has no brace
    of its own: when the reply is some text without an opening brace, then
    an object text, then some text without a closing brace, extraction
    parses exactly the object text. A closing brace in the trailing text is
    taken into the match, which is then no longer the object text. *)
Theorem extractTransactionDetails_ignores_prose (query : string) (tr : Trace)
    (pre mid post : string) :
  let asked := (tr ++ [CallLLM system_prompt (user_prompt query)])%list in
  llm_invoke env asked = Ok (JStr (pre ++ "{" ++ mid ++ "}" ++ post)) ->
  has_char "{" pre = false ->
  (has_char "}" post = false ->
   forall v details,
     JSON_parse ("{" ++ mid ++ "}") = Some v ->
     spec_five_strings v = Some details ->
     extractTransactionDetails env query tr = (Ok details, asked))
  /\ (has_char "}" post = true ->
      match_json_object (pre ++ "{" ++ mid ++ "}" ++ post)
      <> Some ("{" ++ mid ++ "}")).
Proof.
  intros asked Hllm Hpre. subst asked. split.
  - intros Hpost v details Hv Hd.
    assert (Hm : match_json_object (pre ++ "{" ++ mid ++ "}" ++ post)
                 = Some ("{" ++ mid ++ "}")).
    { unfold match_json_object. cbn [append].
      rewrite (from_first_open_exact pre _ Hpre).
      now rewrite (upto_last_close_exact mid post Hpost). }
    unfold extractTransactionDetails. run. rewrite Hllm, Hm, Hv.
    now rewrite TransactionDetailsSchema_parse_spec, Hd.
  - intros Hpost. unfold match_json_object. cbn [append].
    rewrite (from_first_open_exact pre _ Hpre).
    pose proof (upto_last_close_longer mid post Hpost) as Hne.
    destruct (upto_last_close (mid ++ String "}" post)) as [p |];
      [| discriminate].
    intros H. inversion H; subst. now apply Hne.
Qed.

(** ** The seeding script: the schema of a chain *)

Lemma z_string_ok schema key fields s :
  z_string schema key fields = Ok s <-> lookup key fields = Some (JStr s).
Proof.
  unfold z_string. split.
  - destruct (lookup key fields) as [[] |]; try discriminate.
    intros H. now inversion H.
  - now intros ->.
Qed.

Lemma z_boolean_ok schema key fields b :
  Seed.z_boolean schema key fields = Ok b <-> lookup key fields = Some (JBool b).
Proof.
  unfold Seed.z_boolean. split.
  - destruct (lookup key fields) as [[] |]; try discriminate.
    intros H. now inversion H.
  - now intros ->.
Qed.

Lemma z_number_ok schema key fields n :
  z_number schema key fields = Ok n
  <-> lookup key fields = Some (JNum n) /\ number_refused n = false.
Proof.
  unfold z_number. split.
  - destruct (lookup key fields) as [[] |]; try discriminate.
    destruct (number_refused n0) eqn:E; [discriminate |].
    intros H. inversion H; subst. now split.
  - intros [-> ->]. reflexivity.
Qed.

(** One step of a schema: the check at the head of [H] succeeded. *)
Ltac schema_step H :=
  lazymatch type of H with
  | bindR ?check _ = Ok _ =>
      let E := fresh "E" in
      destruct check eqn:E; cbn [bindR] in H; [| discriminate H]
  end.

Lemma GasLimitSchema_parse_spec (v : Value) (limit : Seed.GasLimit) :
  Seed.GasLimitSchema_parse v = Ok limit <-> Seed.spec_limit v limit.
Proof.
  unfold Seed.GasLimitSchema_parse, Seed.spec_limit, z_object. split.
  - intros H. destruct v; try discriminate H. cbn [bindR] in H.
    schema_step H.
    schema_step H. inversion H; subst. cbn.
    apply z_number_ok in E, E0. destruct E, E0.
    exists fields. auto.
  - intros (fields & -> & Hs & Hsr & Ht & Htr). cbn [bindR].
    rewrite (proj2 (z_number_ok _ _ _ _) (conj Hs Hsr)). cbn [bindR].
    rewrite (proj2 (z_number_ok _ _ _ _) (conj Ht Htr)). cbn [bindR].
    now destruct limit.
Qed.

Lemma GasLimitGroupSchema_parse_spec (v : Value)
    (limits : option Seed.GasLimitGroup) :
  Seed.nullable Seed.GasLimitGroupSchema_parse v = Ok limits
  <-> Seed.spec_limits v limits.
Proof.
  assert (Hgroup : forall group,
             Seed.GasLimitGroupSchema_parse v = Ok group
             <-> Seed.spec_limits v (Some group)).
  { intros group.
    unfold Seed.GasLimitGroupSchema_parse, Seed.spec_limits, z_object. split.
    - intros H. destruct v; try discriminate H. cbn [bindR] in H.
      schema_step H. schema_step H. schema_step H.
      inversion H; subst. cbn.
      apply GasLimitSchema_parse_spec in E, E0, E1. exists fields. auto.
    - intros (fields & -> & Ht & Hm & Hc). cbn [bindR].
      rewrite (proj2 (GasLimitSchema_parse_spec _ _) Ht). cbn [bindR].
      rewrite (proj2 (GasLimitSchema_parse_spec _ _) Hm). cbn [bindR].
      rewrite (proj2 (GasLimitSchema_parse_spec _ _) Hc). cbn [bindR].
      now destruct group. }
  unfold Seed.nullable. split.
  - intros H. destruct v;
      try (destruct (Seed.GasLimitGroupSchema_parse _) as [group |] eqn:E;
           cbn [bindR] in H; [| discriminate H];
           inversion H; subst; now apply Hgroup).
    inversion H. reflexivity.
  - destruct limits as [group |].
    + intros Hs. pose proof (proj2 (Hgroup group) Hs) as E.
      destruct Hs as (fields & -> & _). now rewrite E.
    + intros Hs. cbn in Hs. now subst v.
Qed.

Lemma GasTokenSchema_parse_spec (v : Value) (token : option Seed.GasToken) :
  Seed.GasTokenSchema_parse v = Ok token <-> Seed.spec_gas_token v token.
Proof.
  unfold Seed.GasTokenSchema_parse, Seed.nullable, Seed.spec_gas_token, z_object.
  split.
  - intros H. destruct v; try discriminate H.
    + inversion H. reflexivity.
    + cbn [bindR] in H.
      destruct (z_string "ChainSchema" "symbol" fields) as [a |] eqn:E;
        [| discriminate H].
      cbn [bindR] in H.
      destruct (z_string "ChainSchema" "address" fields) as [b |] eqn:E0;
        [| discriminate H].
      cbn [bindR] in H. inversion H; subst. cbn.
      apply z_string_ok in E, E0. exists fields. auto.
  - destruct token as [t |].
    + intros (fields & -> & Hs & Ha). cbn [bindR].
      rewrite (proj2 (z_string_ok _ _ _ _) Hs). cbn [bindR].
      rewrite (proj2 (z_string_ok _ _ _ _) Ha). cbn [bindR].
      now destruct t.
    + intros ->. reflexivity.
Qed.

Lemma ChainSchema_parse_record (v : Value) (c : Seed.Chain) :
  Seed.ChainSchema_parse v = Ok c <-> Seed.spec_chain_record v c.
Proof.
  unfold Seed.ChainSchema_parse, Seed.spec_chain_record, z_object. split.
  - intros H. destruct v; try discriminate H. cbn [bindR] in H.
    do 14 schema_step H. inversion H; subst. cbn.
    apply z_string_ok in E, E0, E1, E2, E10, E11.
    apply z_boolean_ok in E3, E4, E5, E6, E7.
    apply GasLimitGroupSchema_parse_spec in E8.
    apply GasTokenSchema_parse_spec in E9.
    apply z_number_ok in E12. destruct E12.
    exists fields. repeat (split; [first [reflexivity | assumption] |]).
    assumption.
  - intros (fields & -> & H1 & H2 & H3 & H4 & H5 & H6 & H7 & H8 & H9
            & H10 & H11 & H12 & H13 & H14 & H15).
    cbn [bindR].
    rewrite (proj2 (z_string_ok _ _ _ _) H1). cbn [bindR].
    rewrite (proj2 (z_string_ok _ _ _ _) H2). cbn [bindR].
    rewrite (proj2 (z_string_ok _ _ _ _) H3). cbn [bindR].
    rewrite (proj2 (z_string_ok _ _ _ _) H4). cbn [bindR].
    rewrite (proj2 (z_boolean_ok _ _ _ _) H5). cbn [bindR].
    rewrite (proj2 (z_boolean_ok _ _ _ _) H6). cbn [bindR].
    rewrite (proj2 (z_boolean_ok _ _ _ _) H7). cbn [bindR].
    rewrite (proj2 (z_boolean_ok _ _ _ _) H8). cbn [bindR].
    rewrite (proj2 (z_boolean_ok _ _ _ _) H9). cbn [bindR].
    rewrite (proj2 (GasLimitGroupSchema_parse_spec _ _) H10). cbn [bindR].
    rewrite (proj2 (GasTokenSchema_parse_spec _ _) H11). cbn [bindR].
    rewrite (proj2 (z_string_ok _ _ _ _) H12). cbn [bindR].
    rewrite (proj2 (z_string_ok _ _ _ _) H13). cbn [bindR].
    rewrite (proj2 (z_number_ok _ _ _ _) (conj H14 H15)). cbn [bindR].
    now destruct c.
Qed.

(** X14. A value passes the schema of a chain exactly when it is an object
    with strings under _id, chainId, name, type, createdAt and updatedAt,
    booleans under the five flags, an accepted number under __v, null or
    the three {swap, transfer} pairs under gasLimit and null or {symbol,
    address} under gasToken; the parsed chain holds these values. A record
    without a gasLimit or gasToken key is refused: null is accepted, a
    missing key is not. *)
Theorem ChainSchema_parse_spec (v : Value) (c : Seed.Chain) :
  (Seed.ChainSchema_parse v = Ok c <-> Seed.spec_chain_record v c)
  /\ (forall fields,
        v = JObj fields ->
        lookup "gasLimit" fields = None \/ lookup "gasToken" fields = None ->
        Seed.ChainSchema_parse v <> Ok c).
Proof.
  pose proof (ChainSchema_parse_record v c) as Hiff.
  split; [exact Hiff |].
  intros fields -> Hmissing Hparse. apply Hiff in Hparse.
  destruct Hparse as (fields' & Hv & _ & _ & _ & _ & _ & _ & _ & _ & _
                      & Hlimits & Htoken & _).
  inversion Hv; subst fields'. unfold Seed.field in Hlimits, Htoken.
  destruct Hmissing as [Hm | Hm]; rewrite Hm in *.
  - destruct (Seed.gasLimit c); cbn in Hlimits.
    + destruct Hlimits as (f & Hf & _). discriminate Hf.
    + discriminate Hlimits.
  - destruct (Seed.gasToken c); cbn in Htoken.
    + destruct Htoken as (f & Hf & _). discriminate Hf.
    + discriminate Htoken.
Qed.

(** ** The seeding script: fetching and validating the directory *)

Ltac srun :=
  cbv beta iota zeta
      delta [Seed.bind Seed.try_catch Seed.try_finally Seed.fetch Seed.perform
             Seed.findOne Seed.lift Seed.ret Seed.throw bindR];
  cbn [truthy isArray nullish negb orb andb].

Ltac srun_in H :=
  cbv beta iota zeta
      delta [Seed.bind Seed.try_catch Seed.try_finally Seed.fetch Seed.perform
             Seed.findOne Seed.lift Seed.ret Seed.throw bindR] in H;
  cbn [truthy isArray nullish negb orb andb] in H.

Lemma fetchChainData_calls (senv : Seed.Env) tr :
  exists outcome,
    Seed.fetchChainData senv tr
    = (outcome, (tr ++ [Seed.Fetch Seed.CHAIN_URL])%list).
Proof.
  destruct (Seed.fetchChainData senv tr) as [outcome tr'] eqn:E.
  exists outcome. unfold Seed.fetchChainData in E. srun_in E.
  case_split_in E; inversion E; reflexivity.
Qed.

(** On an entry the warning can name, validation yields the parsed chain
    or null. *)
Lemma validate_nameable (v : Value) :
  Seed.nameable v = true ->
  Seed.validate v = Ok (match Seed.ChainSchema_parse v with
                        | Ok c => Some c
                        | Throw _ => None
                        end).
Proof.
  unfold Seed.nameable, Seed.validate, read, printable. intros N.
  apply andb_prop in N. destruct N as [Nv Pv]. apply negb_true_iff in Nv.
  rewrite Nv. destruct (Seed.ChainSchema_parse v) as [c | e]; [reflexivity |].
  cbn [bindR]. destruct (ToString (prop v "name")); [reflexivity | discriminate Pv].
Qed.

Lemma mapR_validate (items : list Value) :
  forallb Seed.nameable items = true ->
  exists validated,
    Seed.mapR Seed.validate items = Ok validated
    /\ Seed.not_null validated = Seed.valid_chains items.
Proof.
  induction items as [| v rest IH]; cbn [forallb Seed.mapR Seed.valid_chains].
  - intros _. now exists [].
  - intros N. apply andb_prop in N. destruct N as [Nv Nrest].
    destruct (IH Nrest) as (validated & -> & Hv).
    rewrite (validate_nameable v Nv).
    destruct (Seed.ChainSchema_parse v) as [c | e]; cbn [bindR].
    + exists (Some c :: validated). split; [reflexivity |]. cbn. now rewrite Hv.
    + exists (None :: validated). split; [reflexivity |]. exact Hv.
Qed.

Lemma valid_chains_length (items : list Value) :
  length (Seed.valid_chains items) <= length items.
Proof.
  induction items as [| v rest IH]; cbn; [lia |].
  destruct (Seed.ChainSchema_parse v); cbn; lia.
Qed.

Lemma valid_chains_sound (items : list Value) :
  Forall (fun c => exists v, In v items /\ Seed.ChainSchema_parse v = Ok c)
         (Seed.valid_chains items).
Proof.
  induction items as [| v rest IH]; cbn; [constructor |].
  assert (Hrest : Forall (fun c => exists v', (v = v' \/ In v' rest)
                                    /\ Seed.ChainSchema_parse v' = Ok c)
                         (Seed.valid_chains rest)).
  { eapply Forall_impl; [| exact IH]. intros c (v' & Hin & Hp). eauto. }
  destruct (Seed.ChainSchema_parse v) as [c | e] eqn:P; [| exact Hrest].
  constructor; [| exact Hrest]. exists v. auto.
Qed.

(** X15. When the directory answers with a 2xx status and a list of
    entries the warning can name (none of them null, each with a name that
    prints), the seeder's fetch returns the entries that pass the schema of
    a chain, parsed, in the order of the list; the entries that do not pass
    are dropped without an error. *)
Theorem fetchChainData_keeps_valid (senv : Seed.Env) (tr : Seed.Trace)
    (resp : Response) (body : Value) (items : list Value) :
  Seed.fetch_api senv (tr ++ [Seed.Fetch Seed.CHAIN_URL])%list = Ok resp ->
  ok resp = true ->
  json resp = Ok body ->
  read body "data" = Ok (JArr items) ->
  forallb Seed.nameable items = true ->
  Seed.fetchChainData senv tr
  = (Ok (Seed.valid_chains items), (tr ++ [Seed.Fetch Seed.CHAIN_URL])%list)
  /\ length (Seed.valid_chains items) <= length items
  /\ Forall (fun c => exists v, In v items /\ Seed.spec_chain_record v c)
            (Seed.valid_chains items).
Proof.
  intros Hfetch Hok Hjson Hdata Hnull. split; [| split].
  - destruct (mapR_validate items Hnull) as (validated & Hmap & Hkeep).
    unfold Seed.fetchChainData. srun. rewrite Hfetch, Hok. srun.
    rewrite Hjson, Hdata. srun. rewrite Hmap. now rewrite Hkeep.
  - apply valid_chains_length.
  - eapply Forall_impl; [| apply valid_chains_sound].
    intros c (v & Hin & Hp). exists v. split; [exact Hin |].
    now apply ChainSchema_parse_record.
Qed.

(** X16. Where the chain lookup of the tool returns a failure object, the
    seeder's fetch rejects: with the error of a rejected request or of a
    body that does not parse, with "HTTP error! status: " and the code on a
    status outside 2xx, and with a TypeError when the body has no list
    under data: that of reading the length of nothing, that of a length
    the log line cannot print, or that of calling a map that is not
    there. *)
Theorem fetchChainData_rejects (senv : Seed.Env) (tr : Seed.Trace) :
  let asked := (tr ++ [Seed.Fetch Seed.CHAIN_URL])%list in
  (forall e,
     Seed.fetch_api senv asked = Throw e ->
     Seed.fetchChainData senv tr = (Throw e, asked))
  /\ (forall resp,
        Seed.fetch_api senv asked = Ok resp ->
        ok resp = false ->
        Seed.fetchChainData senv tr
        = (Throw (JsError ("HTTP error! status: " ++ Z_to_string (status resp))),
           asked))
  /\ (forall resp e,
        Seed.fetch_api senv asked = Ok resp ->
        ok resp = true ->
        json resp = Throw e ->
        Seed.fetchChainData senv tr = (Throw e, asked))
  /\ (forall resp body,
        Seed.fetch_api senv asked = Ok resp ->
        ok resp = true ->
        json resp = Ok body ->
        nullish body = false ->
        isArray (prop body "data") = false ->
        Seed.fetchChainData senv tr
        = (Throw (JsError (fault_message
                             (if nullish (prop body "data")
                              then ReadOfNullish "length"
                              else if Seed.length_prints (prop body "data")
                                   then NotCallable "map"
                                   else NotPrimitive))),
           asked)).
Proof.
  intros asked. subst asked. split; [| split; [| split]].
  - intros e Hfetch. unfold Seed.fetchChainData. srun. now rewrite Hfetch.
  - intros resp Hfetch Hok. unfold Seed.fetchChainData. srun.
    now rewrite Hfetch, Hok.
  - intros resp e Hfetch Hok Hjson. unfold Seed.fetchChainData. srun.
    rewrite Hfetch, Hok. srun. now rewrite Hjson.
  - intros resp body Hfetch Hok Hjson Hbody Hno.
    unfold Seed.fetchChainData. srun. rewrite Hfetch, Hok. srun.
    rewrite Hjson. unfold read. rewrite Hbody. srun.
    destruct (prop body "data") as [| | b | n | s | items | fields];
      try discriminate Hno; try reflexivity.
    unfold Seed.length_logged, Seed.length_prints, prop, printable.
    destruct (lookup "length" fields) as [v |]; [| reflexivity].
    destruct (ToString v) as [printed | e] eqn:P; [reflexivity |].
    now rewrite (ToString_throws _ _ P).
Qed.

Lemma mapR_validate_null (good rest : list Value) :
  forallb Seed.nameable good = true ->
  Seed.mapR Seed.validate (good ++ JNull :: rest)
  = Throw (JsError (fault_message (ReadOfNullish "name"))).
Proof.
  induction good as [| v good IH]; cbn [forallb app Seed.mapR].
  - intros _. reflexivity.
  - intros N. apply andb_prop in N. destruct N as [Nv Ngood].
    rewrite (IH Ngood), (validate_nameable v Nv). reflexivity.
Qed.

(** X17. A null entry in the directory's list is not dropped like other
    invalid entries: when the entries before it are ones the warning can
    name, the warning for the null entry reads the name of null, and the
    whole fetch rejects with that TypeError, valid entries and all. *)
Theorem fetchChainData_null_entry (senv : Seed.Env) (tr : Seed.Trace)
    (resp : Response) (body : Value) (good rest : list Value) :
  Seed.fetch_api senv (tr ++ [Seed.Fetch Seed.CHAIN_URL])%list = Ok resp ->
  ok resp = true ->
  json resp = Ok body ->
  read body "data" = Ok (JArr (good ++ JNull :: rest)) ->
  forallb Seed.nameable good = true ->
  Seed.fetchChainData senv tr
  = (Throw (JsError (fault_message (ReadOfNullish "name"))),
     (tr ++ [Seed.Fetch Seed.CHAIN_URL])%list).
Proof.
  intros Hfetch Hok Hjson Hdata Hgood.
  unfold Seed.fetchChainData. srun. rewrite Hfetch, Hok. srun.
  rewrite Hjson, Hdata. srun. now rewrite (mapR_validate_null good rest Hgood).
Qed.

Lemma mapR_validate_throws (good rest : list Value) (bad : Value) (e : Exn) :
  forallb Seed.nameable good = true ->
  Seed.validate bad = Throw e ->
  Seed.mapR Seed.validate (good ++ bad :: rest) = Throw e.
Proof.
  intros Hgood Hbad.
  induction good as [| v good IH]; cbn [forallb app Seed.mapR] in *.
  - now rewrite Hbad.
  - apply andb_prop in Hgood. destruct Hgood as [Nv Ngood].
    rewrite (IH Ngood), (validate_nameable v Nv). reflexivity.
Qed.

(** X22. An entry whose name does not print is not dropped either: it
    fails the schema, the warning cannot print its name, and the whole
    fetch rejects with that TypeError, when the entries before it are ones
    the warning can name. *)
Theorem fetchChainData_unnameable_entry (senv : Seed.Env) (tr : Seed.Trace)
    (resp : Response) (body : Value) (good : list Value) (bad : Value)
    (rest : list Value) :
  Seed.fetch_api senv (tr ++ [Seed.Fetch Seed.CHAIN_URL])%list = Ok resp ->
  ok resp = true ->
  json resp = Ok body ->
  read body "data" = Ok (JArr (good ++ bad :: rest)) ->
  forallb Seed.nameable good = true ->
  nullish bad = false ->
  printable (prop bad "name") = false ->
  Seed.fetchChainData senv tr
  = (Throw (JsError (fault_message NotPrimitive)),
     (tr ++ [Seed.Fetch Seed.CHAIN_URL])%list).
Proof.
  intros Hfetch Hok Hjson Hdata Hgood Hbad Hname.
  assert (Hthrow : Seed.validate bad
                   = Throw (JsError (fault_message NotPrimitive))).
  { unfold Seed.validate, read. rewrite Hbad.
    destruct (Seed.ChainSchema_parse bad) as [c | e] eqn:P.
    - apply ChainSchema_parse_record in P.
      destruct P as (fields & -> & _ & _ & Hn & _).
      unfold prop in Hname. rewrite Hn in Hname. discriminate Hname.
    - cbn [bindR]. unfold printable in Hname.
      destruct (ToString (prop bad "name")) as [s | e'] eqn:T;
        [discriminate Hname |].
      now rewrite (ToString_throws _ _ T). }
  unfold Seed.fetchChainData. srun. rewrite Hfetch, Hok. srun.
  rewrite Hjson, Hdata. srun.
  now rewrite (mapR_validate_throws good rest bad _ Hgood Hthrow).
Qed.

(** ** The seeding script: the searchable text *)

Section SearchableText.

Variable is_space : ascii -> bool.
Hypothesis line_feed_is_space : is_space (ascii_of_nat 10) = true.

Lemma newline_is_space (c : ascii) :
  Seed.is_newline c = true -> is_space c = true.
Proof.
  unfold Seed.is_newline. intros H. apply Ascii.eqb_eq in H. now subst.
Qed.

Lemma trim_start_clean (s : string) :
  Seed.starts_with_space is_space (Seed.trim_start is_space s) = false.
Proof.
  induction s as [| c s IH]; cbn; [reflexivity |].
  destruct (is_space c) eqn:E; [exact IH |]. cbn. exact E.
Qed.

Lemma trim_end_keeps_start (s : string) :
  Seed.starts_with_space is_space s = false ->
  Seed.starts_with_space is_space (Seed.trim_end is_space s) = false.
Proof.
  destruct s as [| c s]; cbn; [reflexivity |]. intros E.
  destruct (Seed.trim_end is_space s); [rewrite E |]; cbn; exact E.
Qed.

Lemma trim_end_clean (s : string) :
  Seed.ends_with_space is_space (Seed.trim_end is_space s) = false.
Proof.
  induction s as [| c s IH]; cbn [Seed.trim_end]; [reflexivity |].
  destruct (Seed.trim_end is_space s) as [| d kept].
  - destruct (is_space c) eqn:E; cbn; [reflexivity | exact E].
  - exact IH.
Qed.

(** A text that ends with a visible character keeps one through the
    replacement. *)
Lemma replace_breaks_nonempty (dropping : bool) (s : string) :
  s <> EmptyString ->
  Seed.ends_with_space is_space s = false ->
  Seed.replace_breaks is_space dropping s <> EmptyString.
Proof.
  revert dropping. induction s as [| c s IH]; intros dropping Hne Hend;
    [contradiction |].
  cbn [Seed.replace_breaks].
  destruct s as [| d s'].
  - cbn in Hend. rewrite Hend, andb_false_r. cbn [Seed.starts_with_space].
    rewrite andb_false_r. discriminate.
  - destruct (dropping && is_space c); [| destruct (_ && _); discriminate].
    apply IH; [discriminate | exact Hend].
Qed.

Lemma replace_breaks_end (dropping : bool) (s : string) :
  Seed.ends_with_space is_space s = false ->
  Seed.ends_with_space is_space (Seed.replace_breaks is_space dropping s) = false.
Proof.
  revert dropping. induction s as [| c s IH]; intros dropping Hend;
    [reflexivity |].
  cbn [Seed.replace_breaks].
  destruct s as [| d s'].
  - cbn in Hend. rewrite Hend, andb_false_r. cbn [Seed.starts_with_space].
    rewrite andb_false_r. cbn. exact Hend.
  - assert (Hrest : Seed.ends_with_space is_space (String d s') = false)
      by exact Hend.
    assert (Hout : forall x flag,
               Seed.ends_with_space is_space
                 (String x (Seed.replace_breaks is_space flag (String d s')))
               = false).
    { intros x flag.
      pose proof (replace_breaks_nonempty flag (String d s')
                    ltac:(discriminate) Hrest) as Hne.
      pose proof (IH flag Hrest) as Hi.
      destruct (Seed.replace_breaks is_space flag (String d s'));
        [contradiction | exact Hi]. }
    destruct (dropping && is_space c); [now apply IH |].
    destruct (_ && _); apply Hout.
Qed.

Lemma replace_breaks_start (s : string) :
  Seed.starts_with_space is_space s = false ->
  Seed.starts_with_space is_space (Seed.replace_breaks is_space false s) = false.
Proof.
  destruct s as [| c s]; cbn; [reflexivity |]. intros E.
  destruct (Seed.is_newline c) eqn:N.
  - apply newline_is_space in N. congruence.
  - cbn. exact E.
Qed.

Lemma replace_breaks_sound (dropping : bool) (s : string) :
  Seed.has_broken_line is_space (Seed.replace_breaks is_space dropping s) = false.
Proof.
  revert dropping. induction s as [| c s IH]; intros dropping; [reflexivity |].
  cbn [Seed.replace_breaks].
  destruct (dropping && is_space c); [apply IH |].
  destruct (Seed.is_newline c && Seed.starts_with_space is_space s) eqn:B.
  - cbn [Seed.has_broken_line]. rewrite IH. reflexivity.
  - cbn [Seed.has_broken_line]. rewrite IH, orb_false_r.
    destruct (Seed.is_newline c) eqn:N; [| reflexivity].
    cbn [andb] in *. now rewrite (replace_breaks_start s B).
Qed.

(** X18. Whatever the fields of the chain hold, the searchable text has no
    whitespace at its start or at its end and nowhere a line feed followed
    by whitespace: the line breaks and the indentation of the template are
    gone. *)
Theorem createSearchableText_clean (chain : Seed.Chain) :
  Seed.starts_with_space is_space (Seed.createSearchableText is_space chain) = false
  /\ Seed.ends_with_space is_space (Seed.createSearchableText is_space chain) = false
  /\ Seed.has_broken_line is_space (Seed.createSearchableText is_space chain) = false.
Proof.
  unfold Seed.createSearchableText, Seed.trim. split; [| split].
  - apply replace_breaks_start, trim_end_keeps_start, trim_start_clean.
  - apply replace_breaks_end, trim_end_clean.
  - apply replace_breaks_sound.
Qed.

End SearchableText.

(** ** The seeding script: the run *)

Lemma seedDatabase_unfold (senv : Seed.Env) (is_space : ascii -> bool) tr :
  Seed.seedDatabase senv is_space tr
  = Seed.try_finally
      (Seed.try_catch
         (Seed.bind (Seed.perform senv Seed.Connect) (fun _ =>
          Seed.bind (Seed.perform senv Seed.DeleteMany) (fun _ =>
          Seed.bind (Seed.fetchChainData senv) (fun chainData =>
          Seed.bind (Seed.perform senv Seed.NewVectorStore) (fun _ =>
          Seed.bind (Seed.perform senv
                       (Seed.AddDocuments
                          (map (Seed.document_of is_space) chainData))) (fun _ =>
          Seed.bind (Seed.findOne senv) (fun _ => Seed.ret tt)))))))
         (fun error => Seed.throw error))
      (Seed.perform senv Seed.Close) tr.
Proof. reflexivity. Qed.

Ltac use_fetch_calls :=
  match goal with
  | Hf : Seed.fetchChainData ?senv ?t = (_, _) |- _ =>
      let o := fresh "o" in
      let Eo := fresh "Eo" in
      destruct (fetchChainData_calls senv t) as (o & Eo);
      rewrite Eo in Hf; inversion Hf; subst; clear Hf
  end.

(** X19. Every run of the seeding script closes the database client exactly
    once, as its last call, whether the run got through or failed at any
    step; when closing itself rejects, that error is the outcome of the
    run. *)
Theorem seedDatabase_always_closes (senv : Seed.Env)
    (is_space : ascii -> bool) (tr : Seed.Trace) :
  exists outcome added,
    Seed.seedDatabase senv is_space tr = (outcome, (tr ++ added)%list)
    /\ last added Seed.Connect = Seed.Close
    /\ length (filter Seed.is_close added) = 1
    /\ (forall e,
          Seed.done_api senv (tr ++ added)%list = Throw e -> outcome = Throw e).
Proof.
  destruct (Seed.seedDatabase senv is_space tr) as [outcome final] eqn:E.
  rewrite seedDatabase_unfold in E. srun_in E.
  case_split_in E; try use_fetch_calls; try discriminate;
    inversion E; subst; rewrite <- ?app_assoc in *; cbn [app] in *;
    (eexists _, _; split; [reflexivity |];
     split; [reflexivity |]; split; [reflexivity |];
     intros e' He'; congruence).
Qed.

(** X20. The collection is emptied before the directory is fetched: when
    the fetch then fails, the run has cleared the collection, has added no
    document, closes the client and rejects with the error of the fetch. *)
Theorem seedDatabase_fetch_failure (senv : Seed.Env)
    (is_space : ascii -> bool) (tr : Seed.Trace) (e : Exn) :
  Seed.done_api senv (tr ++ [Seed.Connect])%list = Ok tt ->
  Seed.done_api senv (tr ++ [Seed.Connect; Seed.DeleteMany])%list = Ok tt ->
  Seed.fetchChainData senv (tr ++ [Seed.Connect; Seed.DeleteMany])%list
  = (Throw e, (tr ++ [Seed.Connect; Seed.DeleteMany;
                      Seed.Fetch Seed.CHAIN_URL])%list) ->
  Seed.done_api senv (tr ++ [Seed.Connect; Seed.DeleteMany;
                             Seed.Fetch Seed.CHAIN_URL; Seed.Close])%list
  = Ok tt ->
  Seed.seedDatabase senv is_space tr
  = (Throw e, (tr ++ [Seed.Connect; Seed.DeleteMany;
                      Seed.Fetch Seed.CHAIN_URL; Seed.Close])%list).
Proof.
  intros Hc Hd Hf Hclose.
  rewrite seedDatabase_unfold. srun. rewrite Hc.
  rewrite <- !app_assoc. cbn [app]. rewrite Hd, Hf.
  rewrite <- !app_assoc. cbn [app]. now rewrite Hclose.
Qed.

(** X21. When every step succeeds, the run clears the collection, fetches,
    sets up the vector store, adds one document per validated chain, in the
    fetched order, each with the searchable text of its chain as content
    and the chain as metadata, looks one document up and closes the client.
    It does so also when no chain was validated, adding an empty list, and
    whatever the document it looks up. *)
Theorem seedDatabase_documents (senv : Seed.Env)
    (is_space : ascii -> bool) (tr : Seed.Trace)
    (chains : list Seed.Chain) (sample : Value) :
  let documents :=
    map (fun chain =>
           {| Seed.pageContent := Seed.createSearchableText is_space chain;
              Seed.metadata := chain |}) chains in
  Seed.done_api senv (tr ++ [Seed.Connect])%list = Ok tt ->
  Seed.done_api senv (tr ++ [Seed.Connect; Seed.DeleteMany])%list = Ok tt ->
  Seed.fetchChainData senv (tr ++ [Seed.Connect; Seed.DeleteMany])%list
  = (Ok chains,
     (tr ++ [Seed.Connect; Seed.DeleteMany; Seed.Fetch Seed.CHAIN_URL])%list) ->
  Seed.done_api senv
    (tr ++ [Seed.Connect; Seed.DeleteMany; Seed.Fetch Seed.CHAIN_URL;
            Seed.NewVectorStore])%list = Ok tt ->
  Seed.done_api senv
    (tr ++ [Seed.Connect; Seed.DeleteMany; Seed.Fetch Seed.CHAIN_URL;
            Seed.NewVectorStore; Seed.AddDocuments documents])%list = Ok tt ->
  Seed.findOne_api senv
    (tr ++ [Seed.Connect; Seed.DeleteMany; Seed.Fetch Seed.CHAIN_URL;
            Seed.NewVectorStore; Seed.AddDocuments documents;
            Seed.FindOne])%list = Ok sample ->
  Seed.done_api senv
    (tr ++ [Seed.Connect; Seed.DeleteMany; Seed.Fetch Seed.CHAIN_URL;
            Seed.NewVectorStore; Seed.AddDocuments documents;
            Seed.FindOne; Seed.Close])%list = Ok tt ->
  Seed.seedDatabase senv is_space tr
  = (Ok tt,
     (tr ++ [Seed.Connect; Seed.DeleteMany; Seed.Fetch Seed.CHAIN_URL;
             Seed.NewVectorStore; Seed.AddDocuments documents;
             Seed.FindOne; Seed.Close])%list)
  /\ length documents = length chains.
Proof.
  intros documents H1 H2 Hfetch H4 H5 Hfind H7. split; [| apply length_map].
  rewrite seedDatabase_unfold. srun. rewrite H1.
  rewrite <- ?app_assoc; cbn [app]. rewrite H2, Hfetch.
  rewrite <- ?app_assoc; cbn [app]. rewrite H4.
  rewrite <- ?app_assoc; cbn [app].
  change (map (Seed.document_of is_space) chains) with documents.
  rewrite H5. rewrite <- ?app_assoc; cbn [app]. rewrite Hfind.
  rewrite <- ?app_assoc; cbn [app]. now rewrite H7.
Qed.

End Proofs.

(* ===================================================================== *)
(** * The theorems at work on the examples *)

#[local] Existing Instance ExampleRuntime.


Lemma getChainDetails_selects_witness :
  forallb well_formed_chain
    [chain_record "Ethereum" "1" "ETH"; chain_record "BSC" "56" "BNB";
     chain_record "Polygon" "137" "MATIC"; JObj [("name", JStr "Bare")]] = true
  /\ exists r tr' found,
       getChainDetails bridge_env "matic" [] = (Ok r, tr')
       /\ success r = true
       /\ data r = Some found
       /\ count r = Some (length found)
       /\ Forall2 spec_reshaped [chain_record "Polygon" "137" "MATIC"] found
       /\ ([chain_record "Polygon" "137" "MATIC"] = [] ->
           found = [] /\ count r = Some 0
           /\ message r = "No matching chains found").
Proof.
  split; [reflexivity |].
  exact (getChainDetails_selects bridge_env "matic" []
           {| status := 200; statusText := "OK"; json := Ok directory_body |}
           directory_body
           [chain_record "Ethereum" "1" "ETH"; chain_record "BSC" "56" "BNB";
            chain_record "Polygon" "137" "MATIC"; JObj [("name", JStr "Bare")]]
           eq_refl eq_refl eq_refl eq_refl eq_refl).
Defined.

Lemma getChainDetails_never_throws_witness :
  (exists r tr',
     getChainDetails down_env "BSC" [] = (Ok r, tr')
     /\ structured_failure r
     /\ message r = "RouterNitro API error: 503 Service Unavailable")
  /\ (exists r tr',
        getChainDetails odd_env "BSC" [] = (Ok r, tr')
        /\ structured_failure r
        /\ message r = "Invalid API response format").
Proof.
  split.
  - exact (proj1 (proj2 (proj2 (getChainDetails_never_throws down_env "BSC" [])))
             {| status := 503; statusText := "Service Unavailable";
                json := Ok JNull |} eq_refl eq_refl).
  - exact (proj2 (proj2 (proj2 (proj2
             (getChainDetails_never_throws odd_env "BSC" []))))
             {| status := 200; statusText := "OK";
                json := Ok (JObj [("total", JNum 0%Z)]) |}
             (JObj [("total", JNum 0%Z)]) eq_refl eq_refl eq_refl eq_refl eq_refl).
Defined.

Lemma two_tokens_records :
  Forall2 spec_token_record two_tokens
    [{| symbol := "ETH"; address := "0xE"; decimals := 18%Z; token_chainId := "1" |};
     {| symbol := "USDC"; address := "0xC"; decimals := 18%Z; token_chainId := "1" |}].
Proof.
  repeat constructor; eexists; repeat split; reflexivity.
Defined.

Lemma getTokenDetails_scans_witness :
  getTokenDetails two_tokens_env (JStr "1") "eth" []
  = (Ok (Some {| symbol := "ETH"; address := "0xE"; decimals := 18%Z;
                 token_chainId := "1" |}),
     [CallFetch (token_request "1")])
  /\ getTokenDetails two_tokens_env (JStr "1") "DOGE" []
     = (Ok None, [CallFetch (token_request "1")])
  /\ getTokenDetails two_tokens_env (JObj [("toString", JNull)]) "eth" []
     = (Ok None, []).
Proof.
  split; [| split].
  - exact (proj2 (proj2 (proj2
             (proj2 (getTokenDetails_scans two_tokens_env (JStr "1") "eth" [])
                    "1" eq_refl)))
             {| status := 200; statusText := "OK";
                json := Ok (JObj [("data", JArr two_tokens)]) |}
             (JObj [("data", JArr two_tokens)]) two_tokens _
             eq_refl eq_refl eq_refl eq_refl two_tokens_records).
  - exact (proj2 (proj2 (proj2
             (proj2 (getTokenDetails_scans two_tokens_env (JStr "1") "DOGE" [])
                    "1" eq_refl)))
             {| status := 200; statusText := "OK";
                json := Ok (JObj [("data", JArr two_tokens)]) |}
             (JObj [("data", JArr two_tokens)]) two_tokens _
             eq_refl eq_refl eq_refl eq_refl two_tokens_records).
  - exact (proj1 (getTokenDetails_scans two_tokens_env
                    (JObj [("toString", JNull)]) "eth" [])
             _ eq_refl).
Defined.

Lemma ragged_first_match :
  spec_first_match "ETH" ragged_tokens
    (JObj [("symbol", JStr "Eth"); ("address", JStr "0xE"); ("chainId", JStr "1")]).
Proof.
  exists [token_record "USDC" "0xC" "1"], [token_record "ETH" "0xE" "1"].
  split; [reflexivity |]. split.
  - constructor; [| constructor].
    intros (s & Hs & Hm). inversion Hs; subst. discriminate Hm.
  - exists "Eth". split; reflexivity.
Defined.

Lemma getTokenDetails_schema_witness :
  getTokenDetails ragged_env (JStr "1") "ETH" []
  = (Ok None, [CallFetch (token_request "1")]).
Proof.
  refine (proj2 (getTokenDetails_schema ragged_env (JStr "1") "ETH" [])
            "1"
            {| status := 200; statusText := "OK";
               json := Ok (JObj [("data", JArr ragged_tokens)]) |}
            (JObj [("data", JArr ragged_tokens)]) ragged_tokens _
            eq_refl eq_refl eq_refl eq_refl eq_refl ragged_first_match _).
  intros r (fields & Hf & _ & _ & Hd & _).
  inversion Hf; subst. discriminate Hd.
Defined.

Lemma getTransactionDetails_null_on_failure_witness :
  lookup "priceImpact" short_quote_fields = None
  /\ getTransactionDetails short_quote_env sample_params []
     = (Ok None, [CallFetch (quote_request sample_params)]).
Proof.
  split; [reflexivity |].
  exact (proj2 (proj2 (proj2 (proj2 (proj2
           (getTransactionDetails_null_on_failure short_quote_env sample_params [])))))
           {| status := 200; statusText := "OK";
              json := Ok (JObj short_quote_fields) |}
           short_quote_fields eq_refl eq_refl eq_refl).
Defined.

Lemma extractTransactionDetails_fails_exactly_witness :
  extractTransactionDetails swap_env "swap 100 ETH from Ethereum to Polygon" []
  = (Ok {| fromChain := "Ethereum"; toChain := "Polygon"; amount := "100";
           fromToken := "ETH"; toToken := "ETH" |},
     [CallLLM system_prompt (user_prompt "swap 100 ETH from Ethereum to Polygon")])
  /\ extractTransactionDetails chatty_env "swap" []
     = (Ok {| fromChain := "Ethereum"; toChain := "Polygon"; amount := "100";
              fromToken := "ETH"; toToken := "ETH" |},
        [CallLLM system_prompt (user_prompt "swap")])
  /\ exists e,
       extractTransactionDetails prose_env "hello" []
       = (Throw e, [CallLLM system_prompt (user_prompt "hello")]).
Proof.
  assert (Hparse : JSON_parse reply_text
                   = Some (JObj [("fromChain", JStr "Ethereum");
                                 ("toChain", JStr "Polygon");
                                 ("amount", JStr "100");
                                 ("fromToken", JStr "ETH");
                                 ("toToken", JStr "ETH")])) by reflexivity.
  split; [| split].
  - refine (proj2 (extractTransactionDetails_fails_exactly swap_env
                     "swap 100 ETH from Ethereum to Polygon" [] reply_text eq_refl)
              reply_text _ _ _ Hparse eq_refl).
    exists EmptyString, inner_text, EmptyString. repeat split.
  - refine (proj2 (extractTransactionDetails_fails_exactly chatty_env
                     "swap" []
                     ("Here you go: " ++ "{" ++ inner_text ++ "}"
                        ++ " Hope this helps.") eq_refl)
              reply_text _ _ _ Hparse eq_refl).
    exists "Here you go: ", inner_text, " Hope this helps.". repeat split.
  - exact (proj2 (proj1 (extractTransactionDetails_fails_exactly prose_env
                           "hello" [] "I could not find any parameters." eq_refl))
             (or_introl
                (proj1 (match_json_object_none "I could not find any parameters.")
                       eq_refl))).
Defined.

(** Run the left-hand side and read the result off. *)
Ltac evaluate :=
  match goal with
  | |- ?lhs = _ =>
      let v := eval vm_compute in lhs in
      apply (@eq_trans _ lhs v); [exact (eq_refl v) | reflexivity]
  end.

Lemma nitro_chain_failure_witness :
  exists fromChainResult toChainResult tr3,
    (nitro down_env "Bridge 50 USDT from BSC to Polygon" []
     = (Ok ("Failed to fetch chain details. Please check the chain names and try again.",
            ChainFailure "Invalid chain information" fromChainResult toChainResult),
        tr3)
     /\ exists added,
          tr3 = ([] ++ added)%list
          /\ count_calls is_token_call added = 0
          /\ count_calls is_quote_call added = 0)
    /\ success fromChainResult = false
    /\ success toChainResult = true.
Proof.
  eexists _, _, _. split.
  - eapply nitro_chain_failure;
      [evaluate | evaluate | evaluate | left; reflexivity].
  - split; reflexivity.
Defined.

Lemma nitro_empty_match_halts_witness :
  exists added,
    nitro nowhere_env "Bridge 50 USDT from BSC to Atlantis" []
    = (Ok ("An error occurred while processing your request. Please try again.",
           Failure "Cannot read properties of undefined (reading 'chainId')"
                   "Bridge 50 USDT from BSC to Atlantis"),
       ([] ++ added)%list)
    /\ count_calls is_quote_call added = 0
    /\ count_calls is_token_call added <= 1.
Proof.
  assert (H : exists details tr1 fromChainResult tr2 toChainResult tr3
                     first rest,
             extractTransactionDetails nowhere_env
               "Bridge 50 USDT from BSC to Atlantis" [] = (Ok details, tr1)
             /\ getChainDetails nowhere_env (fromChain details) tr1
                = (Ok fromChainResult, tr2)
             /\ getChainDetails nowhere_env (toChain details) tr2
                = (Ok toChainResult, tr3)
             /\ success fromChainResult = true
             /\ success toChainResult = true
             /\ data fromChainResult = Some (first :: rest)
             /\ data toChainResult = Some []).
  { eexists _, _, _, _, _, _, _, _.
    split; [evaluate |]. split; [evaluate |]. split; [evaluate |].
    repeat split; reflexivity. }
  destruct H as (details & tr1 & fromChainResult & tr2 & toChainResult & tr3
                 & first & rest & He & Hf & Ht & Sf & St & Df & Dt).
  destruct (nitro_empty_match_halts nowhere_env
              "Bridge 50 USDT from BSC to Atlantis" [] details tr1
              fromChainResult tr2 toChainResult tr3 (first :: rest) []
              He Hf Ht Sf St Df Dt (or_intror eq_refl))
    as (added & Hrun & Hq & Ht1 & Ht0).
  exists added. split; [exact Hrun |]. split; [exact Hq | exact Ht1].
Defined.

Lemma nitro_route_found_witness :
  exists artifact tr6,
    nitro bridge_env "Bridge 50 USDT from BSC to Polygon" []
    = (Ok ("Found route to USDT on Polygon chain:" ++ nl
             ++ "- Amount: 50 USDT" ++ nl
             ++ "- Expected output: 49.9 USDT" ++ nl
             ++ "- Price impact: 0.2%" ++ nl
             ++ "- Estimated gas: 210000",
           artifact),
       tr6)
    /\ includes "Found route to USDT on Polygon chain"
         ("Found route to USDT on Polygon chain:" ++ nl
            ++ "- Amount: 50 USDT" ++ nl
            ++ "- Expected output: 49.9 USDT" ++ nl
            ++ "- Price impact: 0.2%" ++ nl
            ++ "- Estimated gas: 210000") = true.
Proof.
  assert (H : exists details tr1 fromChainResult tr2 toChainResult tr3
                     fromMatch fromRest toMatch toRest
                     fromRecord tr4 toRecord tr5 quote tr6,
             extractTransactionDetails bridge_env
               "Bridge 50 USDT from BSC to Polygon" [] = (Ok details, tr1)
             /\ getChainDetails bridge_env (fromChain details) tr1
                = (Ok fromChainResult, tr2)
             /\ getChainDetails bridge_env (toChain details) tr2
                = (Ok toChainResult, tr3)
             /\ success fromChainResult = true
             /\ success toChainResult = true
             /\ data fromChainResult = Some (fromMatch :: fromRest)
             /\ data toChainResult = Some (toMatch :: toRest)
             /\ getTokenDetails bridge_env (chainId (chain fromMatch))
                  (fromToken details) tr3 = (Ok (Some fromRecord), tr4)
             /\ getTokenDetails bridge_env (chainId (chain toMatch))
                  (toToken details) tr4 = (Ok (Some toRecord), tr5)
             /\ getTransactionDetails bridge_env
                  {| fromChainId := chainId (chain fromMatch);
                     toChainId := chainId (chain toMatch);
                     fromTokenAddress := address fromRecord;
                     toTokenAddress := address toRecord;
                     quote_amount := amount details |} tr5
                = (Ok (Some quote), tr6)
             /\ toToken details = "USDT" /\ toChain details = "Polygon"
             /\ amount details = "50" /\ fromToken details = "USDT"
             /\ expectedOutput quote = "49.9" /\ priceImpact quote = "0.2%"
             /\ estimatedGas quote = 210000%Z).
  { eexists _, _, _, _, _, _, _, _, _, _, _, _, _, _, _, _.
    split; [evaluate |]. split; [evaluate |]. split; [evaluate |].
    split; [reflexivity |]. split; [reflexivity |].
    split; [reflexivity |]. split; [reflexivity |].
    split; [evaluate |]. split; [evaluate |]. split; [evaluate |].
    repeat split; reflexivity. }
  destruct H as (details & tr1 & fromChainResult & tr2 & toChainResult & tr3
                 & fromMatch & fromRest & toMatch & toRest
                 & fromRecord & tr4 & toRecord & tr5 & quote & tr6
                 & He & Hf & Ht & Sf & St & Df & Dt & Hft & Htt & Hq
                 & E1 & E2 & E3 & E4 & E5 & E6 & E7).
  pose proof (nitro_route_found bridge_env
                "Bridge 50 USDT from BSC to Polygon" [] details tr1
                fromChainResult tr2 toChainResult tr3 fromMatch toMatch
                fromRest toRest fromRecord tr4 toRecord tr5 quote tr6
                He Hf Ht Sf St Df Dt Hft Htt Hq) as Hrun.
  cbv zeta in Hrun. rewrite E1, E2, E3, E4, E5, E6, E7 in Hrun.
  eexists _, _. exact Hrun.
Defined.

Lemma nitro_never_rejects_witness :
  nitro silent_env "Bridge 50 USDT from BSC to Polygon" []
  = (Ok ("An error occurred while processing your request. Please try again.",
         Failure "Failed to extract transaction parameters: Connection error."
                 "Bridge 50 USDT from BSC to Polygon"),
     [CallLLM system_prompt (user_prompt "Bridge 50 USDT from BSC to Polygon")]).
Proof.
  exact (proj2 (proj2 (nitro_never_rejects silent_env
                         "Bridge 50 USDT from BSC to Polygon" []))
           (JsError "Failed to extract transaction parameters: Connection error.")
           _ eq_refl).
Defined.

Lemma nitro_token_failure_witness :
  exists fromFound tr5,
    nitro missing_token_env "Bridge 50 USDT from BSC to Polygon" []
    = (Ok ("Failed to fetch token details. Please check the token symbols and try again.",
           TokenFailure "Invalid token information" (Some fromFound) None),
       tr5)
    /\ count_calls is_token_call tr5 = 2
    /\ count_calls is_quote_call tr5 = 0.
Proof.
  assert (H : exists details tr1 fromChainResult tr2 toChainResult tr3
                     fromMatch fromRest toMatch toRest fromFound tr4 tr5,
             extractTransactionDetails missing_token_env
               "Bridge 50 USDT from BSC to Polygon" [] = (Ok details, tr1)
             /\ getChainDetails missing_token_env (fromChain details) tr1
                = (Ok fromChainResult, tr2)
             /\ getChainDetails missing_token_env (toChain details) tr2
                = (Ok toChainResult, tr3)
             /\ success fromChainResult = true
             /\ success toChainResult = true
             /\ data fromChainResult = Some (fromMatch :: fromRest)
             /\ data toChainResult = Some (toMatch :: toRest)
             /\ getTokenDetails missing_token_env (chainId (chain fromMatch))
                  (fromToken details) tr3 = (Ok (Some fromFound), tr4)
             /\ getTokenDetails missing_token_env (chainId (chain toMatch))
                  (toToken details) tr4 = (Ok None, tr5)
             /\ count_calls is_token_call tr5 = 2
             /\ count_calls is_quote_call tr5 = 0).
  { eexists _, _, _, _, _, _, _, _, _, _, _, _, _.
    split; [evaluate |]. split; [evaluate |]. split; [evaluate |].
    split; [reflexivity |]. split; [reflexivity |].
    split; [reflexivity |]. split; [reflexivity |].
    split; [evaluate |]. split; [evaluate |]. split; reflexivity. }
  destruct H as (details & tr1 & fromChainResult & tr2 & toChainResult & tr3
                 & fromMatch & fromRest & toMatch & toRest & fromFound & tr4
                 & tr5 & He & Hf & Ht & Sf & St & Df & Dt & Hft & Htt & C1 & C2).
  exists fromFound, tr5. split; [| split; assumption].
  exact (proj1 (nitro_token_failure missing_token_env
                  "Bridge 50 USDT from BSC to Polygon" [] details tr1
                  fromChainResult tr2 toChainResult tr3 fromMatch toMatch
                  fromRest toRest (Some fromFound) None tr4 tr5
                  He Hf Ht Sf St Df Dt Hft Htt (or_intror eq_refl))).
Defined.

Lemma nitro_quote_failure_witness :
  exists tr6,
    nitro no_quote_env "Bridge 50 USDT from BSC to Polygon" []
    = (Ok ("Failed to fetch quote. Please try again with different parameters.",
           QuoteFailure "Error getting quote"),
       tr6)
    /\ count_calls is_quote_call tr6 = 1.
Proof.
  assert (H : exists details tr1 fromChainResult tr2 toChainResult tr3
                     fromMatch fromRest toMatch toRest
                     fromRecord tr4 toRecord tr5 tr6,
             extractTransactionDetails no_quote_env
               "Bridge 50 USDT from BSC to Polygon" [] = (Ok details, tr1)
             /\ getChainDetails no_quote_env (fromChain details) tr1
                = (Ok fromChainResult, tr2)
             /\ getChainDetails no_quote_env (toChain details) tr2
                = (Ok toChainResult, tr3)
             /\ success fromChainResult = true
             /\ success toChainResult = true
             /\ data fromChainResult = Some (fromMatch :: fromRest)
             /\ data toChainResult = Some (toMatch :: toRest)
             /\ getTokenDetails no_quote_env (chainId (chain fromMatch))
                  (fromToken details) tr3 = (Ok (Some fromRecord), tr4)
             /\ getTokenDetails no_quote_env (chainId (chain toMatch))
                  (toToken details) tr4 = (Ok (Some toRecord), tr5)
             /\ getTransactionDetails no_quote_env
                  {| fromChainId := chainId (chain fromMatch);
                     toChainId := chainId (chain toMatch);
                     fromTokenAddress := address fromRecord;
                     toTokenAddress := address toRecord;
                     quote_amount := amount details |} tr5
                = (Ok None, tr6)
             /\ count_calls is_quote_call tr6 = 1).
  { eexists _, _, _, _, _, _, _, _, _, _, _, _, _, _, _.
    split; [evaluate |]. split; [evaluate |]. split; [evaluate |].
    split; [reflexivity |]. split; [reflexivity |].
    split; [reflexivity |]. split; [reflexivity |].
    split; [evaluate |]. split; [evaluate |]. split; [evaluate |].
    reflexivity. }
  destruct H as (details & tr1 & fromChainResult & tr2 & toChainResult & tr3
                 & fromMatch & fromRest & toMatch & toRest
                 & fromRecord & tr4 & toRecord & tr5 & tr6
                 & He & Hf & Ht & Sf & St & Df & Dt & Hft & Htt & Hq & C).
  exists tr6. split; [| exact C].
  exact (proj1 (nitro_quote_failure no_quote_env
                  "Bridge 50 USDT from BSC to Polygon" [] details tr1
                  fromChainResult tr2 toChainResult tr3 fromMatch toMatch
                  fromRest toRest fromRecord tr4 toRecord tr5 tr6
                  He Hf Ht Sf St Df Dt Hft Htt Hq)).
Defined.

Lemma getChainDetails_poisoned_witness :
  exists r tr',
    getChainDetails holed_env "bsc" [] = (Ok r, tr')
    /\ structured_failure r
    /\ message r = fault_message (ReadOfNullish "name").
Proof.
  exact (getChainDetails_poisoned holed_env "bsc" []
           {| status := 200; statusText := "OK";
              json := Ok (JObj [("data",
                                 JArr ([chain_record "Ethereum" "1" "ETH"]
                                         ++ JNull
                                         :: [chain_record "BSC" "56" "BNB"]))]) |}
           _ [chain_record "Ethereum" "1" "ETH"] JNull
           [chain_record "BSC" "56" "BNB"]
           eq_refl eq_refl eq_refl eq_refl eq_refl (or_introl eq_refl)).
Defined.

Lemma getChainDetails_links_witness :
  exists r tr' found,
    getChainDetails bridge_env "bare" [] = (Ok r, tr')
    /\ data r = Some found
    /\ Forall2
         (fun c p =>
            (exists printed,
                ToString (prop c "chainId") = Ok printed
                /\ url p = "https://routernitro.com/chain/" ++ printed)
            /\ (prop c "chainId" = JUndefined ->
                chainId (chain p) = JStr "Unknown"
                /\ url p = "https://routernitro.com/chain/undefined"))
         [JObj [("name", JStr "Bare")]] found
    /\ (found <> [] ->
        message r = "Found " ++ nat_to_string (length found)
                      ++ " matching chains").
Proof.
  exact (getChainDetails_links bridge_env "bare" []
           {| status := 200; statusText := "OK"; json := Ok directory_body |}
           directory_body
           [chain_record "Ethereum" "1" "ETH"; chain_record "BSC" "56" "BNB";
            chain_record "Polygon" "137" "MATIC"; JObj [("name", JStr "Bare")]]
           eq_refl eq_refl eq_refl eq_refl eq_refl).
Defined.

Lemma getChainDetails_empty_query_witness :
  exists r tr' found,
    getChainDetails bridge_env EmptyString [] = (Ok r, tr')
    /\ success r = true
    /\ data r = Some found
    /\ Forall2 spec_reshaped
         [chain_record "Ethereum" "1" "ETH"; chain_record "BSC" "56" "BNB";
          chain_record "Polygon" "137" "MATIC"; JObj [("name", JStr "Bare")]]
         found.
Proof.
  exact (getChainDetails_empty_query bridge_env []
           {| status := 200; statusText := "OK"; json := Ok directory_body |}
           directory_body
           [chain_record "Ethereum" "1" "ETH"; chain_record "BSC" "56" "BNB";
            chain_record "Polygon" "137" "MATIC"; JObj [("name", JStr "Bare")]]
           eq_refl eq_refl eq_refl eq_refl eq_refl eq_refl).
Defined.

Lemma getTokenDetails_poisoned_witness :
  getTokenDetails holed_tokens_env (JStr "1") "ETH" []
  = (Ok None, [CallFetch (token_request "1")]).
Proof.
  refine (getTokenDetails_poisoned holed_tokens_env (JStr "1") "1" "ETH" []
            {| status := 200; statusText := "OK";
               json := Ok (JObj [("data",
                                  JArr ([token_record "USDC" "0xC" "1"]
                                          ++ JObj [("address", JStr "0x0")]
                                          :: [token_record "ETH" "0xE" "1"]))]) |}
            _ [token_record "USDC" "0xC" "1"] (JObj [("address", JStr "0x0")])
            [token_record "ETH" "0xE" "1"]
            eq_refl eq_refl eq_refl eq_refl eq_refl _ eq_refl).
  constructor; [| constructor]. exists "USDC". split; [reflexivity |].
  discriminate.
Defined.

Lemma getTokenDetails_without_list_witness :
  getTokenDetails no_list_env (JStr "1") "ETH" []
  = (Ok None, [CallFetch (token_request "1")]).
Proof.
  exact (getTokenDetails_without_list no_list_env (JStr "1") "1" "ETH" []
           {| status := 200; statusText := "OK";
              json := Ok (JObj [("data", JStr "unsupported chain")]) |}
           (JObj [("data", JStr "unsupported chain")])
           eq_refl eq_refl eq_refl eq_refl).
Defined.

Lemma getTransactionDetails_some_iff_witness :
  getTransactionDetails bridge_env sample_params []
  = (Ok (Some {| estimatedGas := 210000%Z; route := [JStr "bridge"];
                 expectedOutput := "49.9"; priceImpact := "0.2%" |}),
     [CallFetch (quote_request sample_params)]).
Proof.
  apply (proj2 (getTransactionDetails_some_iff bridge_env sample_params [] _)).
  eexists _, _. split; [evaluate |]. repeat split.
Defined.


Lemma extractTransactionDetails_messages_witness :
  extractTransactionDetails silent_env "swap" []
  = (Throw (JsError "Failed to extract transaction parameters: Connection error."),
     [CallLLM system_prompt (user_prompt "swap")])
  /\ extractTransactionDetails prose_env "hello" []
     = (Throw (JsError ("Failed to extract transaction parameters: "
                          ++ "Failed to parse transaction details: "
                          ++ "No JSON object found in LLM response")),
        [CallLLM system_prompt (user_prompt "hello")]).
Proof.
  split.
  - exact (proj1 (proj2 (extractTransactionDetails_messages silent_env "swap" []))
             (JsError "Connection error.") eq_refl).
  - exact (proj1 (proj2 (proj2 (extractTransactionDetails_messages prose_env
                                  "hello" [])))
             "I could not find any parameters." eq_refl eq_refl).
Defined.

Lemma extractTransactionDetails_structured_content_witness :
  extractTransactionDetails parts_env "swap" []
  = (Throw (JsError ("Failed to extract transaction parameters: "
                       ++ "Failed to parse transaction details: "
                       ++ fault_message (ZodIssues "TransactionDetailsSchema"))),
     [CallLLM system_prompt (user_prompt "swap")]).
Proof.
  exact (proj1 (extractTransactionDetails_structured_content parts_env "swap" []
                  parts eq_refl eq_refl)).
Defined.

Lemma extractTransactionDetails_ignores_prose_witness :
  extractTransactionDetails chatty_env "swap" []
  = (Ok {| fromChain := "Ethereum"; toChain := "Polygon"; amount := "100";
           fromToken := "ETH"; toToken := "ETH" |},
     [CallLLM system_prompt (user_prompt "swap")]).
Proof.
  assert (Hparse : JSON_parse ("{" ++ inner_text ++ "}")
                   = Some (JObj [("fromChain", JStr "Ethereum");
                                 ("toChain", JStr "Polygon");
                                 ("amount", JStr "100");
                                 ("fromToken", JStr "ETH");
                                 ("toToken", JStr "ETH")])) by evaluate.
  exact (proj1 (extractTransactionDetails_ignores_prose chatty_env "swap" []
                  "Here you go: " inner_text " Hope this helps."
                  eq_refl eq_refl)
           eq_refl _ _ Hparse eq_refl).
Defined.

Lemma ChainSchema_parse_spec_witness :
  Seed.spec_chain_record (chain_record "BSC" "56" "BNB")
    (seed_chain "BSC" "56" "BNB")
  /\ Seed.ChainSchema_parse (JObj [("name", JStr "Bare")])
     <> Ok (seed_chain "BSC" "56" "BNB").
Proof.
  split.
  - apply (proj1 (proj1 (ChainSchema_parse_spec (R := ExampleRuntime)
                           (chain_record "BSC" "56" "BNB")
                           (seed_chain "BSC" "56" "BNB")))).
    evaluate.
  - exact (proj2 (ChainSchema_parse_spec (R := ExampleRuntime)
                    (JObj [("name", JStr "Bare")])
                    (seed_chain "BSC" "56" "BNB"))
             [("name", JStr "Bare")] eq_refl (or_introl eq_refl)).
Defined.

Lemma fetchChainData_keeps_valid_witness :
  Seed.fetchChainData seed_env [] = (Ok seed_chains, [Seed.Fetch Seed.CHAIN_URL])
  /\ length seed_chains <= 4.
Proof.
  assert (E : Seed.valid_chains
                [chain_record "Ethereum" "1" "ETH"; chain_record "BSC" "56" "BNB";
                 chain_record "Polygon" "137" "MATIC";
                 JObj [("name", JStr "Bare")]]
              = seed_chains) by evaluate.
  rewrite <- E.
  pose proof (fetchChainData_keeps_valid seed_env []
                {| status := 200; statusText := "OK"; json := Ok directory_body |}
                directory_body
                [chain_record "Ethereum" "1" "ETH"; chain_record "BSC" "56" "BNB";
                 chain_record "Polygon" "137" "MATIC";
                 JObj [("name", JStr "Bare")]]
                eq_refl eq_refl eq_refl eq_refl eq_refl) as H.
  split; [exact (proj1 H) | exact (proj1 (proj2 H))].
Defined.

Lemma fetchChainData_rejects_witness :
  Seed.fetchChainData seed_down_env []
  = (Throw (JsError "HTTP error! status: 503"), [Seed.Fetch Seed.CHAIN_URL])
  /\ Seed.fetchChainData seed_odd_length_env []
     = (Throw (JsError "Cannot convert object to primitive value"),
        [Seed.Fetch Seed.CHAIN_URL]).
Proof.
  split.
  - exact (proj1 (proj2 (fetchChainData_rejects seed_down_env []))
             {| status := 503; statusText := "Service Unavailable";
                json := Ok JNull |} eq_refl eq_refl).
  - exact (proj2 (proj2 (proj2 (fetchChainData_rejects seed_odd_length_env [])))
             {| status := 200; statusText := "OK";
                json := Ok (JObj [("data", JObj [("length", unprintable)])]) |}
             (JObj [("data", JObj [("length", unprintable)])])
             eq_refl eq_refl eq_refl eq_refl eq_refl).
Defined.

Lemma fetchChainData_null_entry_witness :
  Seed.fetchChainData seed_holed_env []
  = (Throw (JsError (fault_message (ReadOfNullish "name"))),
     [Seed.Fetch Seed.CHAIN_URL]).
Proof.
  exact (fetchChainData_null_entry seed_holed_env []
           {| status := 200; statusText := "OK";
              json := Ok (JObj [("data",
                                 JArr ([chain_record "Ethereum" "1" "ETH"]
                                         ++ JNull
                                         :: [chain_record "BSC" "56" "BNB"]))]) |}
           _ [chain_record "Ethereum" "1" "ETH"] [chain_record "BSC" "56" "BNB"]
           eq_refl eq_refl eq_refl eq_refl eq_refl).
Defined.

Lemma createSearchableText_clean_witness :
  is_ws (ascii_of_nat 10) = true
  /\ Seed.starts_with_space is_ws
       (Seed.createSearchableText is_ws (seed_chain "BSC" "56" "BNB")) = false
  /\ Seed.ends_with_space is_ws
       (Seed.createSearchableText is_ws (seed_chain "BSC" "56" "BNB")) = false
  /\ Seed.has_broken_line is_ws
       (Seed.createSearchableText is_ws (seed_chain "BSC" "56" "BNB")) = false.
Proof.
  split; [reflexivity |].
  exact (createSearchableText_clean is_ws eq_refl (seed_chain "BSC" "56" "BNB")).
Defined.

Lemma seedDatabase_always_closes_witness :
  exists outcome added,
    Seed.seedDatabase seed_down_env is_ws [] = (outcome, ([] ++ added)%list)
    /\ last added Seed.Connect = Seed.Close
    /\ length (filter Seed.is_close added) = 1
    /\ (forall e,
          Seed.done_api seed_down_env ([] ++ added)%list = Throw e ->
          outcome = Throw e).
Proof.
  exact (seedDatabase_always_closes seed_down_env is_ws []).
Defined.

Lemma seedDatabase_fetch_failure_witness :
  Seed.seedDatabase seed_down_env is_ws []
  = (Throw (JsError "HTTP error! status: 503"),
     [Seed.Connect; Seed.DeleteMany; Seed.Fetch Seed.CHAIN_URL; Seed.Close]).
Proof.
  assert (H : Seed.fetchChainData seed_down_env [Seed.Connect; Seed.DeleteMany]
              = (Throw (JsError "HTTP error! status: 503"),
                 [Seed.Connect; Seed.DeleteMany; Seed.Fetch Seed.CHAIN_URL]))
    by evaluate.
  exact (seedDatabase_fetch_failure seed_down_env is_ws []
           (JsError "HTTP error! status: 503") eq_refl eq_refl H eq_refl).
Defined.

Lemma seedDatabase_documents_witness :
  exists documents,
    Seed.seedDatabase seed_env is_ws []
    = (Ok tt,
       [Seed.Connect; Seed.DeleteMany; Seed.Fetch Seed.CHAIN_URL;
        Seed.NewVectorStore; Seed.AddDocuments documents; Seed.FindOne;
        Seed.Close])
    /\ map Seed.metadata documents = seed_chains
    /\ length documents = 3.
Proof.
  assert (H : Seed.fetchChainData seed_env [Seed.Connect; Seed.DeleteMany]
              = (Ok seed_chains,
                 [Seed.Connect; Seed.DeleteMany; Seed.Fetch Seed.CHAIN_URL]))
    by evaluate.
  exists (map (fun chain =>
                 {| Seed.pageContent := Seed.createSearchableText is_ws chain;
                    Seed.metadata := chain |}) seed_chains).
  split; [| split; reflexivity].
  exact (proj1 (seedDatabase_documents seed_env is_ws [] seed_chains JNull
                  eq_refl eq_refl H eq_refl eq_refl eq_refl eq_refl)).
Defined.


Lemma getChainDetails_calls_witness :
  exists r n,
    getChainDetails unprintable_env "bsc" []
    = (Ok r,
       [CallFetch (GetChainDirectory
           "https://api.nitroswap.routernitro.com/chain?page=0&limit=200&sortKey=createdAt&sortOrder=asc")]
         ++ repeat CallNow (S n))%list
    /\ n = 1
    /\ success r = false.
Proof.
  destruct (getChainDetails_calls unprintable_env "bsc" [])
    as (r & n & E & H).
  exists r, n. cbn [app] in E. split; [exact E |].
  assert (C : exists r0,
             getChainDetails unprintable_env "bsc" []
             = (Ok r0, [CallFetch chain_request; CallNow; CallNow])
             /\ success r0 = false).
  { eexists. split; [evaluate | reflexivity]. }
  destruct C as (r0 & C & S0). rewrite C in E. inversion E; subst r0.
  split; [| exact S0].
  destruct n as [| [| n]]; [discriminate | reflexivity | discriminate].
Defined.

Lemma getChainDetails_unprintable_id_witness :
  exists r,
    getChainDetails unprintable_env "bsc" []
    = (Ok r, [CallFetch chain_request; CallNow; CallNow])
    /\ structured_failure r
    /\ message r = "Cannot convert object to primitive value".
Proof.
  exact (getChainDetails_unprintable_id unprintable_env "bsc" []
           {| status := 200; statusText := "OK";
              json := Ok (JObj [("data",
                                 JArr ([chain_record "BSC" "56" "BNB"]
                                         ++ JObj [("name", JStr "bsc-two");
                                                  ("chainId", unprintable)]
                                         :: [chain_record "Polygon" "137" "MATIC"]))]) |}
           _ [chain_record "BSC" "56" "BNB"]
           (JObj [("name", JStr "bsc-two"); ("chainId", unprintable)])
           [chain_record "Polygon" "137" "MATIC"]
           eq_refl eq_refl eq_refl eq_refl eq_refl eq_refl eq_refl eq_refl).
Defined.

Lemma fetchChainData_unnameable_entry_witness :
  Seed.fetchChainData seed_unnameable_env []
  = (Throw (JsError "Cannot convert object to primitive value"),
     [Seed.Fetch Seed.CHAIN_URL]).
Proof.
  exact (fetchChainData_unnameable_entry seed_unnameable_env []
           {| status := 200; statusText := "OK";
              json := Ok (JObj [("data",
                                 JArr ([chain_record "BSC" "56" "BNB"]
                                         ++ JObj [("name", unprintable)]
                                         :: []))]) |}
           _ [chain_record "BSC" "56" "BNB"] (JObj [("name", unprintable)]) []
           eq_refl eq_refl eq_refl eq_refl eq_refl eq_refl eq_refl).
Defined.
